(** * IMST WiMOD HCI serdev driver (wimod.c): a shallow embedding

    The development follows the driver from the leaves up: the frame check
    sequence (CRC-CCITT), the SLIP byte-stuffing sender, the receive loop
    with its accumulation buffer, the dispatcher list, and the two
    device-management requests built on top of them.

    Conventions.  A [u8] is a [Z] in [0, 256), a [u16] a [Z] in [0, 65536);
    a C buffer [(ptr, len)] is a [list Z].  The host is little-endian, so
    [cpu_to_le16s] is the identity and [(u8 * )&crc] reads the low byte
    first. *)

From Stdlib Require Import ZArith List Lia Bool.
Import ListNotations.
Open Scope Z_scope.

(** ** Constants of wimod.c *)

Definition WIMOD_HCI_PAYLOAD_MAX : Z := 300.
Definition WIMOD_HCI_PACKET_MAX : Z := 1 + (2 + WIMOD_HCI_PAYLOAD_MAX + 2) * 2 + 1.

Definition SLIP_END : Z := 192.     (* 0300 *)
Definition SLIP_ESC : Z := 219.     (* 0333 *)
Definition SLIP_ESC_END : Z := 220. (* 0334 *)
Definition SLIP_ESC_ESC : Z := 221. (* 0335 *)

Definition DEVMGMT_ID : Z := 1.
Definition DEVMGMT_MSG_PING_REQ : Z := 1.
Definition DEVMGMT_MSG_PING_RSP : Z := 2.
Definition DEVMGMT_MSG_GET_DEVICE_INFO_REQ : Z := 3.
Definition DEVMGMT_MSG_GET_DEVICE_INFO_RSP : Z := 4.
Definition DEVMGMT_STATUS_OK : Z := 0.

Definition EINVAL : Z := 22.
Definition ETIMEDOUT : Z := 110.

(** ** Machine integers *)

Definition is_u8 (c : Z) : Prop := 0 <= c < 256.
Definition is_u16 (c : Z) : Prop := 0 <= c < 65536.

(** Conversion to [u16] (assignment to a [u16] lvalue). *)
Definition to_u16 (x : Z) : Z := x mod 65536.

(** Conversion of an [int] to [size_t] on a 64-bit kernel. *)
Definition to_size_t (x : Z) : Z := x mod 2 ^ 64.

(** ** Frame check sequence: <linux/crc-ccitt.h> *)

Module CRC.

(** Modelled from the spec: [crc_ccitt] and [crc_ccitt_byte] belong to the
    kernel (lib/crc-ccitt.c, <linux/crc-ccitt.h>) and are not part of the
    driver's source.  The spec names the algorithm: CRC-CCITT, X.25 variant,
    processed byte by byte.  The kernel computes it from a table of 256
    entries; the entry for index [i] is [i] pushed through eight steps of
    the reflected polynomial 0x8408. *)
Definition table_step (v : Z) : Z :=
  if Z.odd v then Z.lxor (Z.shiftr v 1) 33800 else Z.shiftr v 1.

Definition table_entry (i : Z) : Z :=
  table_step (table_step (table_step (table_step
    (table_step (table_step (table_step (table_step i))))))).

Definition indices (n : nat) : list Z := map Z.of_nat (seq 0 n).

Definition crc_ccitt_table : list Z :=
  Eval vm_compute in map table_entry (indices 256).

(** Modelled from the spec: one byte fed to the register,
    [static inline u16 crc_ccitt_byte(u16 crc, const u8 c)] of the kernel. *)
Definition crc_ccitt_byte (crc c : Z) : Z :=
  Z.lxor (Z.shiftr crc 8)
         (nth (Z.to_nat (Z.land (Z.lxor crc c) 255)) crc_ccitt_table 0).

(** Modelled from the spec: the register after [len] bytes of [buffer],
    [u16 crc_ccitt(u16 crc, u8 const *buffer, size_t len)] of the kernel. *)
Definition crc_ccitt (crc : Z) (buffer : list Z) (len : Z) : Z :=
  fold_left crc_ccitt_byte (firstn (Z.to_nat len) buffer) crc.

(** The value both [wimod_hci_send] and [wimod_process_packet] form from
    the register: [~crc] stored back into a [u16]. *)
Definition complement (crc : Z) : Z := to_u16 (Z.lnot crc).

End CRC.

(** ** The serial device

    The transport is a record of the bytes written so far and of the return
    values the coming writes will produce; once that list is used up every
    write succeeds.  The [timeout] argument the driver passes along has no
    other effect than on these return values and is left out, as is the
    debug printing ([slip_print_bytes], [printk]). *)

Record serdev_device := mk_serdev {
  tx : list Z;
  write_ret : list Z
}.

(** Modelled from the spec: [serdev_device_write] belongs to the kernel's
    serdev core and is not part of the driver's source.  It is the link's
    write path, which may fail; the driver only looks at its return value,
    0 on success and an error code otherwise, taken here from [write_ret]. *)
Definition serdev_device_write (sdev : serdev_device) (buf : list Z)
  : Z * serdev_device :=
  match write_ret sdev with
  | [] => (0, mk_serdev (tx sdev ++ buf) [])
  | r :: rs =>
      if r =? 0 then (0, mk_serdev (tx sdev ++ buf) rs)
      else (r, mk_serdev (tx sdev) rs)
  end.

(** ** SLIP sender *)

Definition slip_send_end (sdev : serdev_device) : Z * serdev_device :=
  serdev_device_write sdev [SLIP_END].

(** The [for] loop of [slip_send_data].  [run] is [buf[last_idx+1 .. i)],
    the bytes passed over since the last write, [rest] is [buf[i .. len)]
    and [esc1] is the current value of [esc[1]]. *)
Fixpoint slip_send_data_loop (sdev : serdev_device) (esc1 : Z)
    (run rest : list Z) : Z * serdev_device :=
  match rest with
  | [] => serdev_device_write sdev run
  | c :: rest' =>
      if negb (c =? SLIP_END) && negb (c =? SLIP_ESC) then
        slip_send_data_loop sdev esc1 (run ++ [c]) rest'
      else
        let (ret, sdev1) := serdev_device_write sdev run in
        if negb (ret =? 0) then (ret, sdev1)
        else
          let esc1' :=
            if c =? SLIP_END then SLIP_ESC_END
            else if c =? SLIP_ESC then SLIP_ESC_ESC
            else esc1 in
          let (ret2, sdev2) := serdev_device_write sdev1 [SLIP_ESC; esc1'] in
          if negb (ret2 =? 0) then (ret2, sdev2)
          else slip_send_data_loop sdev2 esc1' [] rest'
  end.

Definition slip_send_data (sdev : serdev_device) (buf : list Z) (len : Z)
  : Z * serdev_device :=
  slip_send_data_loop sdev 0 [] (firstn (Z.to_nat len) buf).

(** ** Sending one HCI frame *)

(** Lines 153-160 of [wimod_hci_send]: the checksum of a frame. *)
Definition hci_fcs (dst_id msg_id : Z) (payload : list Z) (payload_len : Z) : Z :=
  let crc := 65535 in
  let crc := CRC.crc_ccitt_byte crc dst_id in
  let crc := CRC.crc_ccitt_byte crc msg_id in
  let crc := if 0 <? payload_len
             then CRC.crc_ccitt crc payload payload_len else crc in
  CRC.complement crc.

(** The two bytes [(u8 * )&crc] points at. *)
Definition le16_bytes (crc : Z) : list Z := [Z.land crc 255; Z.shiftr crc 8].

Definition wimod_hci_send (sdev : serdev_device) (dst_id msg_id : Z)
    (payload : list Z) (payload_len : Z) : Z * serdev_device :=
  let crc := hci_fcs dst_id msg_id payload payload_len in
  let (ret, sdev) := slip_send_end sdev in
  if negb (ret =? 0) then (ret, sdev) else
  let (ret, sdev) := slip_send_data sdev [dst_id] 1 in
  if negb (ret =? 0) then (ret, sdev) else
  let (ret, sdev) := slip_send_data sdev [msg_id] 1 in
  if negb (ret =? 0) then (ret, sdev) else
  let (ret, sdev) :=
    if 0 <? payload_len then slip_send_data sdev payload payload_len
    else (0, sdev) in
  if negb (ret =? 0) then (ret, sdev) else
  let (ret, sdev) := slip_send_data sdev (le16_bytes crc) 2 in
  if negb (ret =? 0) then (ret, sdev) else
  let (ret, sdev) := slip_send_end sdev in
  if negb (ret =? 0) then (ret, sdev) else
  (0, sdev).

(** The frame before escaping, as the receiver is to see it. *)
Definition hci_frame (dst_id msg_id : Z) (payload : list Z) : list Z :=
  dst_id :: msg_id :: payload
    ++ le16_bytes (hci_fcs dst_id msg_id payload (Z.of_nat (length payload))).

(** ** Dispatchers and completions *)

(** The function a dispatcher's [dispatchee] pointer designates.  The driver
    stores only one function there. *)
Inductive dispatchee_fn :=
| fn_wimod_hci_packet_dispatch_completion.

Record wimod_hci_packet_dispatcher := mk_dispatcher {
  dst_id : Z;
  msg_id : Z;
  dispatchee : dispatchee_fn
}.

(** Modelled from the spec: [struct completion] and its functions belong
    to the kernel (<linux/completion.h>) and are not part of the driver's
    source.  It is the one-shot completion signal of a waiter, kept by its
    counter [done]: [init_completion] clears it, [complete] adds one to it
    (it saturates at [UINT_MAX]) and [completion_done] tells whether it is
    not zero. *)
Record completion := mk_completion { done : Z }.

Definition init_completion : completion := mk_completion 0.
Definition completion_done (x : completion) : bool := negb (done x =? 0).
Definition UINT_MAX : Z := 4294967295.
Definition complete (x : completion) : completion :=
  if done x =? UINT_MAX then x else mk_completion (done x + 1).

(** [payload = None] is the NULL pointer. *)
Record wimod_hci_packet_completion := mk_packet {
  disp : wimod_hci_packet_dispatcher;
  comp : completion;
  payload : option (list Z);
  payload_len : Z
}.

(** Diagnostics and calls left behind by the receive path, in order. *)
Inductive event :=
| Processing (packet : list Z)   (* wimod_process_packet entered on these bytes *)
| Discard_length (len : Z)       (* "Discarding packet of length %d" *)
| Discard_checksum               (* "Discarding packet with wrong checksum" *)
| Unknown_escape (c : Z)         (* "Ignoring unknown escape sequence" *)
| Dispatch (entry : nat) (data : list Z). (* e->dispatchee(data, len, e) *)

(** An entry of the dispatcher list: the address of the caller's object and
    the object itself (the list links the [disp] member embedded in it). *)
Abbreviation dispatcher_entry := (nat * wimod_hci_packet_completion)%type.

Record wimod_device := mk_device {
  serdev : serdev_device;
  rx_buf : list Z;
  rx_len : Z;
  rx_esc : bool;
  packet_dispatchers : list dispatcher_entry
}.

Definition set_serdev (s : serdev_device) (w : wimod_device) : wimod_device :=
  mk_device s (rx_buf w) (rx_len w) (rx_esc w) (packet_dispatchers w).
Definition set_rx (buf : list Z) (len : Z) (w : wimod_device) : wimod_device :=
  mk_device (serdev w) buf len (rx_esc w) (packet_dispatchers w).
Definition set_rx_len (len : Z) (w : wimod_device) : wimod_device :=
  mk_device (serdev w) (rx_buf w) len (rx_esc w) (packet_dispatchers w).
Definition set_rx_esc (esc : bool) (w : wimod_device) : wimod_device :=
  mk_device (serdev w) (rx_buf w) (rx_len w) esc (packet_dispatchers w).
Definition set_packet_dispatchers (l : list dispatcher_entry) (w : wimod_device)
  : wimod_device :=
  mk_device (serdev w) (rx_buf w) (rx_len w) (rx_esc w) l.

(** The device as [wimod_probe] leaves it: zeroed by [devm_kzalloc], with an
    empty dispatcher list. *)
Definition wimod_device_init (sdev : serdev_device) : wimod_device :=
  mk_device sdev (repeat 0 (Z.to_nat WIMOD_HCI_PACKET_MAX)) 0 false [].

(** [list_add_tail_rcu] and [list_del_rcu] on the dispatcher list, whose
    entries are told apart by their address.  [list_del_rcu] is modelled on
    an entry that is on the list, the only use the driver makes of it; on an
    entry that is not linked the C function follows stale pointers, which
    the filter below does not show. *)
Definition wimod_hci_add_dispatcher (wmdev : wimod_device)
    (entry : dispatcher_entry) : wimod_device :=
  set_packet_dispatchers (packet_dispatchers wmdev ++ [entry]) wmdev.

Definition wimod_hci_remove_dispatcher (wmdev : wimod_device) (entry : nat)
  : wimod_device :=
  set_packet_dispatchers
    (filter (fun e => negb (Nat.eqb (fst e) entry)) (packet_dispatchers wmdev))
    wmdev.

(** A store of [src] into a C array at [idx]; [None] when any byte of it
    would fall outside the array. *)
Definition store (buf : list Z) (idx : Z) (src : list Z) : option (list Z) :=
  if (0 <=? idx) && (idx + Z.of_nat (length src) <=? Z.of_nat (length buf)) then
    Some (firstn (Z.to_nat idx) buf ++ src
            ++ skipn (Z.to_nat idx + length src) buf)
  else None.

(** [wmdev->rx_buf[wmdev->rx_len++] = c] *)
Definition rx_push (wmdev : wimod_device) (c : Z) : option wimod_device :=
  match store (rx_buf wmdev) (rx_len wmdev) [c] with
  | Some buf => Some (set_rx buf (rx_len wmdev + 1) wmdev)
  | None => None
  end.

(** [memcpy(&wmdev->rx_buf[wmdev->rx_len], data, i); wmdev->rx_len += i] *)
Definition rx_memcpy (wmdev : wimod_device) (src : list Z) : option wimod_device :=
  match store (rx_buf wmdev) (rx_len wmdev) src with
  | Some buf => Some (set_rx buf (rx_len wmdev + Z.of_nat (length src)) wmdev)
  | None => None
  end.

Section Driver.

(** [kzalloc] is the kernel's allocator: whether an allocation of a given
    size succeeds is up to the kernel, and nothing is assumed of it. *)
Variable kzalloc : Z -> bool.

(** Called by [wimod_process_packet] with [len >= 2] only. *)
Definition wimod_hci_packet_dispatch_completion (data : list Z) (len : Z)
    (d : wimod_hci_packet_completion) : wimod_hci_packet_completion :=
  if completion_done (comp d) then d
  else
    let plen := len - 2 in
    let p := if kzalloc plen
             then Some (firstn (Z.to_nat (len - 2)) (skipn 2 data))
             else None in
    mk_packet (disp d) (complete (comp d)) p plen.

Definition call_dispatchee (f : dispatchee_fn) (data : list Z) (len : Z)
    (d : wimod_hci_packet_completion) : wimod_hci_packet_completion :=
  match f with
  | fn_wimod_hci_packet_dispatch_completion =>
      wimod_hci_packet_dispatch_completion data len d
  end.

(** [list_for_each_entry] with its [break]. *)
Fixpoint dispatch_scan (es : list dispatcher_entry) (data : list Z) (len : Z)
  : list dispatcher_entry * list event :=
  match es with
  | [] => ([], [])
  | (a, e) :: rest =>
      if (dst_id (disp e) =? nth 0 data 0) && (msg_id (disp e) =? nth 1 data 0)
      then ((a, call_dispatchee (dispatchee (disp e)) data (len - 2) e) :: rest,
            [Dispatch a (firstn (Z.to_nat (len - 2)) data)])
      else
        let (rest', tr) := dispatch_scan rest data len in
        ((a, e) :: rest', tr)
  end.

Definition wimod_process_packet (wmdev : wimod_device) (data : list Z) (len : Z)
  : wimod_device * list event :=
  let entered := Processing (firstn (Z.to_nat len) data) in
  if len <? 4 then (wmdev, [entered; Discard_length len])
  else
    let crc := CRC.complement (CRC.crc_ccitt 65535 data len) in
    if negb (crc =? 3911) then (wmdev, [entered; Discard_checksum])
    else
      let (es, tr) := dispatch_scan (packet_dispatchers wmdev) data len in
      (set_packet_dispatchers es wmdev, entered :: tr).

(** The final values of the loop variables of [wimod_receive_buf]. *)
Record receive_exit := mk_exit {
  exit_len : Z;
  exit_data : list Z;
  exit_dev : wimod_device;
  exit_trace : list event
}.

Definition emit (tr : list event) (r : option receive_exit) : option receive_exit :=
  match r with
  | Some x => Some (mk_exit (exit_len x) (exit_data x) (exit_dev x)
                            (tr ++ exit_trace x))
  | None => None
  end.

(** The [while] loop of [wimod_receive_buf].  The C variables [data], [count]
    and [i] are kept as the pair [(lit, rest)]: [lit] is [data[0 .. i)], the
    bytes already passed over, and [rest] is [data[i .. count)], so that
    [i = length lit], [count = length lit + length rest] and [data[i]] is
    the head of [rest].  [None] is a store outside [rx_buf].  The [int]
    counter [len] is kept unbounded: no call is given 2^31 bytes. *)
Fixpoint receive_loop (wmdev : wimod_device) (lit rest : list Z) (len : Z)
    {struct rest} : option receive_exit :=
  let i := Z.of_nat (length lit) in
  let count := Z.of_nat (length lit + length rest) in
  match rest with
  | [] => Some (mk_exit len (lit ++ rest) wmdev [])
  | c :: rest' =>
    if i <? Z.min count (to_size_t (WIMOD_HCI_PACKET_MAX - rx_len wmdev)) then
      if rx_esc wmdev then
        let wmdev := set_rx_esc false wmdev in
        let pushed :=
          if c =? SLIP_ESC_END then
            option_map (fun w => (w, [])) (rx_push wmdev SLIP_END)
          else if c =? SLIP_ESC_ESC then
            option_map (fun w => (w, [])) (rx_push wmdev SLIP_ESC)
          else Some (wmdev, [Unknown_escape c]) in
        match pushed with
        | None => None
        | Some (wmdev, tr) => emit tr (receive_loop wmdev [] rest' (len + (i + 1)))
        end
      else if negb (c =? SLIP_END) && negb (c =? SLIP_ESC) then
        receive_loop wmdev (lit ++ [c]) rest' len
      else
        let copied := if 0 <? i then rx_memcpy wmdev lit else Some wmdev in
        match copied with
        | None => None
        | Some wmdev =>
          let (wmdev, tr) :=
            if (c =? SLIP_END) && (0 <? rx_len wmdev) then
              let (w, tr) :=
                wimod_process_packet wmdev (rx_buf wmdev) (rx_len wmdev) in
              (set_rx_len 0 w, tr)
            else if c =? SLIP_ESC then (set_rx_esc true wmdev, [])
            else (wmdev, []) in
          emit tr (receive_loop wmdev [] rest' (len + (i + 1)))
        end
    else Some (mk_exit len (lit ++ rest) wmdev [])
  end.

Definition wimod_receive_buf (wmdev : wimod_device) (data : list Z)
  : option (Z * wimod_device * list event) :=
  match receive_loop wmdev [] data 0 with
  | Some x => Some (exit_len x, exit_dev x, exit_trace x)
  | None => None
  end.

(** ** The transport's side of [receive_buf]

    The tty layer keeps what a call did not consume and presents it again in
    front of the bytes that arrive next.  [pending] is that kept tail. *)
Fixpoint receive_chunks (wmdev : wimod_device) (pending : list Z)
    (chunks : list (list Z)) : option (wimod_device * list Z * list event) :=
  match chunks with
  | [] => Some (wmdev, pending, [])
  | c :: cs =>
      match wimod_receive_buf wmdev (pending ++ c) with
      | None => None
      | Some (n, wmdev', tr) =>
          match receive_chunks wmdev' (skipn (Z.to_nat n) (pending ++ c)) cs with
          | None => None
          | Some (w, p, tr') => Some (w, p, tr ++ tr')
          end
      end
  end.

(** Each chunk handed over once, the return value ignored. *)
Fixpoint receive_each_once (wmdev : wimod_device) (chunks : list (list Z))
  : option (wimod_device * list event) :=
  match chunks with
  | [] => Some (wmdev, [])
  | c :: cs =>
      match wimod_receive_buf wmdev c with
      | None => None
      | Some (_, wmdev', tr) =>
          match receive_each_once wmdev' cs with
          | None => None
          | Some (w, tr') => Some (w, tr ++ tr')
          end
      end
  end.

(** ** Requests *)

(** What happens around one request, seen from the caller: the chunks the
    receive path gets to process before the deadline, and the jiffies left
    when the completion fires in time. *)
Record request_env := mk_env {
  incoming : list (list Z);
  jiffies_left : Z
}.

Definition find_entry (wmdev : wimod_device) (self : nat)
  : option wimod_hci_packet_completion :=
  match find (fun e => Nat.eqb (fst e) self) (packet_dispatchers wmdev) with
  | Some e => Some (snd e)
  | None => None
  end.

Definition entry_done (wmdev : wimod_device) (self : nat) : bool :=
  match find_entry wmdev self with
  | Some p => completion_done (comp p)
  | None => false
  end.

(** The receive path running while the caller sleeps: it stops being of
    interest as soon as the caller's completion has fired. *)
Fixpoint receive_while_waiting (wmdev : wimod_device) (self : nat)
    (pending : list Z) (chunks : list (list Z))
  : option (wimod_device * list event) :=
  if entry_done wmdev self then Some (wmdev, [])
  else
    match chunks with
    | [] => Some (wmdev, [])
    | c :: cs =>
        match wimod_receive_buf wmdev (pending ++ c) with
        | None => None
        | Some (n, wmdev', tr) =>
            match receive_while_waiting wmdev' self
                    (skipn (Z.to_nat n) (pending ++ c)) cs with
            | None => None
            | Some (w, tr') => Some (w, tr ++ tr')
            end
        end
    end.

(** The part of a request's result that is not the return value. *)
Inductive step :=
| Waited            (* wait_for_completion_timeout was entered *)
| Received (e : event).

(** Modelled from the spec: [wait_for_completion_timeout] belongs to the
    kernel and is not part of the driver's source.  It blocks the caller
    until its completion fires or the deadline passes: 0 when the deadline
    passes first, otherwise the completion is consumed and at least 1 is
    returned. *)
Definition wait_for_completion_timeout (wmdev : wimod_device) (self : nat)
    (env : request_env) : option (Z * wimod_device * list event) :=
  match receive_while_waiting wmdev self [] (incoming env) with
  | None => None
  | Some (w, tr) =>
      if entry_done w self then
        let consume (e : dispatcher_entry) :=
          if Nat.eqb (fst e) self then
            (fst e, mk_packet (disp (snd e))
                      (mk_completion
                         (if done (comp (snd e)) =? UINT_MAX
                          then done (comp (snd e))
                          else done (comp (snd e)) - 1))
                      (payload (snd e)) (payload_len (snd e)))
          else e in
        Some (Z.max 1 (jiffies_left env),
              set_packet_dispatchers (map consume (packet_dispatchers w)) w, tr)
      else Some (0, w, tr)
  end.

Definition wimod_hci_devmgmt_status (status : Z) : Z :=
  if status =? DEVMGMT_STATUS_OK then 0 else - EINVAL.

(** The result of a request: the return value, the caller's buffer, the
    device and what happened on the way.  [None] is a fault (a store outside
    [rx_buf], a NULL [payload] dereferenced). *)
Record request_result := mk_result {
  res_ret : Z;
  res_buf : option (list Z);
  res_dev : wimod_device;
  res_steps : list step
}.

(** [struct wimod_hci_packet_completion packet = {0}] with the fields the
    request sets. *)
Definition new_packet (dst msg : Z) : wimod_hci_packet_completion :=
  mk_packet (mk_dispatcher dst msg fn_wimod_hci_packet_dispatch_completion)
            init_completion None 0.

(** Lines 245-253 of [wimod_hci_ping]: what is made of the completed
    packet. *)
Definition ping_check (packet : wimod_hci_packet_completion) : option Z :=
  if payload_len packet <? 1 then Some (- EINVAL)
  else
    match payload packet with
    | None => None
    | Some p => Some (wimod_hci_devmgmt_status (nth 0 p 0))
    end.

(** [self] is the address of the caller's [packet]. *)
Definition wimod_hci_ping (wmdev : wimod_device) (self : nat) (env : request_env)
  : option request_result :=
  let packet := new_packet DEVMGMT_ID DEVMGMT_MSG_PING_RSP in
  let wmdev := wimod_hci_add_dispatcher wmdev (self, packet) in
  let (ret, sdev) :=
    wimod_hci_send (serdev wmdev) DEVMGMT_ID DEVMGMT_MSG_PING_REQ [] 0 in
  let wmdev := set_serdev sdev wmdev in
  if negb (ret =? 0) then
    Some (mk_result ret None (wimod_hci_remove_dispatcher wmdev self) [])
  else
    match wait_for_completion_timeout wmdev self env with
    | None => None
    | Some (timeout, wmdev, tr) =>
        let steps := Waited :: map Received tr in
        let packet := match find_entry wmdev self with
                      | Some p => p | None => packet end in
        let wmdev := wimod_hci_remove_dispatcher wmdev self in
        if timeout =? 0 then Some (mk_result (- ETIMEDOUT) None wmdev steps)
        else
          match ping_check packet with
          | None => None
          | Some ret => Some (mk_result ret None wmdev steps)
          end
    end.

(** Lines 282-305 of [wimod_hci_get_device_info]: the return value and the
    caller's buffer [buf] (NULL when [None]) after the completed packet has
    been looked at. *)
Definition get_device_info_check (packet : wimod_hci_packet_completion)
    (buf : option (list Z)) : option (Z * option (list Z)) :=
  if payload_len packet <? 1 then Some (- EINVAL, buf)
  else
    match payload packet with
    | None => None
    | Some p =>
        let ret := wimod_hci_devmgmt_status (nth 0 p 0) in
        if negb (ret =? 0) then Some (ret, buf)
        else if payload_len packet <? 10 then Some (- EINVAL, buf)
        else
          match buf with
          | Some b =>
              let n := Z.to_nat (Z.min (payload_len packet - 1) 9) in
              Some (0, Some (firstn n (skipn 1 p) ++ skipn n b))
          | None => Some (0, None)
          end
    end.

Definition wimod_hci_get_device_info (wmdev : wimod_device) (self : nat)
    (buf : option (list Z)) (env : request_env) : option request_result :=
  let packet := new_packet DEVMGMT_ID DEVMGMT_MSG_GET_DEVICE_INFO_RSP in
  let wmdev := wimod_hci_add_dispatcher wmdev (self, packet) in
  let (ret, sdev) :=
    wimod_hci_send (serdev wmdev) DEVMGMT_ID DEVMGMT_MSG_GET_DEVICE_INFO_REQ [] 0 in
  let wmdev := set_serdev sdev wmdev in
  if negb (ret =? 0) then
    Some (mk_result ret buf (wimod_hci_remove_dispatcher wmdev self) [])
  else
    match wait_for_completion_timeout wmdev self env with
    | None => None
    | Some (timeout, wmdev, tr) =>
        let steps := Waited :: map Received tr in
        let packet := match find_entry wmdev self with
                      | Some p => p | None => packet end in
        let wmdev := wimod_hci_remove_dispatcher wmdev self in
        if timeout =? 0 then Some (mk_result (- ETIMEDOUT) buf wmdev steps)
        else
          match get_device_info_check packet buf with
          | None => None
          | Some (ret, buf') => Some (mk_result ret buf' wmdev steps)
          end
    end.

End Driver.

(** ** Definitions used by the statements *)

Module CRCFacts.
Import CRC.

(** The high byte of a table entry determines its index: [inverse_table]
    lists, by high byte, the index it belongs to. *)
Definition find_index (h : Z) : Z :=
  match find (fun j => Z.shiftr (nth (Z.to_nat j) crc_ccitt_table 0) 8 =? h)
             (indices 256) with
  | Some j => j
  | None => 0
  end.

Definition inverse_table : list Z :=
  Eval vm_compute in map find_index (indices 256).

(** The register before a step, recovered from the register after it and
    the byte that was fed. *)
Definition crc_ccitt_unbyte (crc c : Z) : Z :=
  let j := nth (Z.to_nat (Z.shiftr crc 8)) inverse_table 0 in
  let t := nth (Z.to_nat j) crc_ccitt_table 0 in
  Z.lxor (Z.lor (Z.shiftl (Z.land (Z.lxor crc t) 255) 8) j) c.

(** Bit [k] of the byte at position [i] inverted. *)
Definition flip_bit (l : list Z) (i : nat) (k : Z) : list Z :=
  firstn i l ++ Z.lxor (nth i l 0) (2 ^ k) :: skipn (S i) l.

(** What [wimod_process_packet] compares with 0x0f47. *)
Definition residual (data : list Z) : Z :=
  complement (crc_ccitt 65535 data (Z.of_nat (length data))).

(** The register [wimod_hci_send] complements. *)
Definition fcs_register (dst msg : Z) (payload : list Z) : Z :=
  fold_left crc_ccitt_byte payload
    (crc_ccitt_byte (crc_ccitt_byte 65535 dst) msg).

End CRCFacts.

(** A packet is accepted when [wimod_process_packet] gets past both of its
    discards. *)
Definition is_discard (e : event) : bool :=
  match e with
  | Discard_length _ | Discard_checksum => true
  | _ => false
  end.

Definition accepted (tr : list event) : bool := negb (existsb is_discard tr).

Definition is_dispatch (e : event) : bool :=
  match e with
  | Dispatch _ _ => true
  | _ => false
  end.

(** The packets [wimod_process_packet] was entered on. *)
Fixpoint processed (tr : list event) : list (list Z) :=
  match tr with
  | [] => []
  | Processing p :: tr' => p :: processed tr'
  | _ :: tr' => processed tr'
  end.

(** The test [wimod_process_packet] makes on each entry of the list. *)
Definition entry_matches (data : list Z) (e : dispatcher_entry) : bool :=
  (dst_id (disp (snd e)) =? nth 0 data 0) && (msg_id (disp (snd e)) =? nth 1 data 0).

Definition dispatches (tr : list event) : list event := filter is_dispatch tr.

(** ** The receive buffer *)

(** The buffer has its declared size and the fill length lies within it. *)
Definition rx_wf (w : wimod_device) : Prop :=
  length (rx_buf w) = Z.to_nat WIMOD_HCI_PACKET_MAX /\
  0 <= rx_len w <= WIMOD_HCI_PACKET_MAX.

(** The bytes accumulated so far. *)
Definition content (w : wimod_device) : list Z :=
  firstn (Z.to_nat (rx_len w)) (rx_buf w).

(** The device with [pkt] as the accumulated bytes. *)
Definition rx_load (w : wimod_device) (pkt : list Z) : wimod_device :=
  set_rx (pkt ++ skipn (length pkt) (rx_buf w)) (Z.of_nat (length pkt)) w.

Definition literal (c : Z) : bool := negb (c =? SLIP_END) && negb (c =? SLIP_ESC).

(** SLIP escaping of a byte sequence, as a function. *)
Definition slip_escape (c : Z) : list Z :=
  if c =? SLIP_END then [SLIP_ESC; SLIP_ESC_END]
  else if c =? SLIP_ESC then [SLIP_ESC; SLIP_ESC_ESC]
  else [c].

Definition slip_encode (l : list Z) : list Z := flat_map slip_escape l.

(** The second byte of an escape. *)
Definition slip_escape_code (c : Z) : Z :=
  if c =? SLIP_END then SLIP_ESC_END else SLIP_ESC_ESC.

(** Every write of the transport returns 0. *)
Definition writes_succeed (sdev : serdev_device) : Prop :=
  Forall (fun r => r = 0) (write_ret sdev).

(** One turn of the loop of [wimod_receive_buf], by what it does to the
    loop variables: leave the loop, pass over a literal byte, or consume
    the bytes up to and including the current one. *)
Inductive step_result :=
| Halt
| Scan
| Consume (w : wimod_device) (tr : list event)
| Fault.

Section LoopStep.
Variable kzalloc : Z -> bool.

Definition loop_step (wmdev : wimod_device) (lit : list Z) (c : Z) : step_result :=
  if Z.of_nat (length lit) <? to_size_t (WIMOD_HCI_PACKET_MAX - rx_len wmdev) then
    if rx_esc wmdev then
      let wmdev := set_rx_esc false wmdev in
      if c =? SLIP_ESC_END then
        match rx_push wmdev SLIP_END with
        | Some w => Consume w []
        | None => Fault
        end
      else if c =? SLIP_ESC_ESC then
        match rx_push wmdev SLIP_ESC with
        | Some w => Consume w []
        | None => Fault
        end
      else Consume wmdev [Unknown_escape c]
    else if literal c then Scan
    else
      match (if 0 <? Z.of_nat (length lit) then rx_memcpy wmdev lit
             else Some wmdev) with
      | None => Fault
      | Some wmdev =>
          if (c =? SLIP_END) && (0 <? rx_len wmdev) then
            let (w, tr) :=
              wimod_process_packet kzalloc wmdev (rx_buf wmdev) (rx_len wmdev) in
            Consume (set_rx_len 0 w) tr
          else if c =? SLIP_ESC then Consume (set_rx_esc true wmdev) []
          else Consume wmdev []
      end
  else Halt.

(** The device after the byte that follows an ESC... *)
Definition unescaped (w : wimod_device) (c : Z) : wimod_device :=
  set_rx_esc false
    (if c =? SLIP_ESC_END then rx_load w (content w ++ [SLIP_END])
     else if c =? SLIP_ESC_ESC then rx_load w (content w ++ [SLIP_ESC])
     else w).

(** ... and the diagnostic it leaves. *)
Definition unescaped_trace (c : Z) : list event :=
  if c =? SLIP_ESC_END then []
  else if c =? SLIP_ESC_ESC then []
  else [Unknown_escape c].

(** The device and the trace after an END or ESC met outside an escape,
    the literal run before it already copied. *)
Definition delimited (w1 : wimod_device) (c : Z) : wimod_device * list event :=
  if (c =? SLIP_END) && (0 <? rx_len w1) then
    (set_rx_len 0 (fst (wimod_process_packet kzalloc w1 (rx_buf w1) (rx_len w1))),
     snd (wimod_process_packet kzalloc w1 (rx_buf w1) (rx_len w1)))
  else if c =? SLIP_ESC then (set_rx_esc true w1, [])
  else (w1, []).

(** The loop resumed on what an earlier call left, followed by [more]. *)
Definition resume (more : list Z) (r : option receive_exit) : option receive_exit :=
  match r with
  | Some x =>
      emit (exit_trace x)
        (receive_loop kzalloc (exit_dev x) [] (exit_data x ++ more) (exit_len x))
  | None => None
  end.

End LoopStep.

(** What holds of the loop variables at the head of the loop. *)
Definition loop_inv (w : wimod_device) (lit : list Z) : Prop :=
  rx_wf w /\
  Forall (fun c => literal c = true) lit /\
  Z.of_nat (length lit) <= WIMOD_HCI_PACKET_MAX - rx_len w /\
  (rx_esc w = true -> lit = []).

(** What a call leaves behind, apart from the count it returns: the device,
    the bytes not consumed and the trace. *)
Definition outcome (r : option receive_exit)
  : option (wimod_device * list Z * list event) :=
  match r with
  | Some x => Some (exit_dev x, exit_data x, exit_trace x)
  | None => None
  end.

(** ** Requests *)

(** The address [self] is on the dispatcher list. *)
Definition registered (w : wimod_device) (self : nat) : Prop :=
  In self (map fst (packet_dispatchers w)).

(** A waiter with no payload slot has no payload length either. *)
Definition slot_ok (p : wimod_hci_packet_completion) : Prop :=
  payload p = None -> payload_len p < 1.

Definition waiters_ok (es : list dispatcher_entry) : Prop :=
  Forall (fun e => slot_ok (snd e)) es.

(** ** Test vectors *)

Module Vectors.

(** An allocator that never fails. *)
Definition always (_ : Z) : bool := true.

(** A device just probed, on a transport whose writes succeed. *)
Definition fresh : wimod_device := wimod_device_init (mk_serdev [] []).

(** The bytes [wimod_hci_send] writes for a frame. *)
Definition wire (dst msg : Z) (payload : list Z) : list Z :=
  tx (snd (wimod_hci_send (mk_serdev [] []) dst msg payload
             (Z.of_nat (length payload)))).

Definition returned (r : option request_result) : option Z := option_map res_ret r.

End Vectors.

(** ** Further definitions used by the statements *)

(** The first return value of the coming writes that is not 0. *)
Definition first_error (rets : list Z) : option Z :=
  find (fun r => negb (r =? 0)) rets.

(** One frame as [wimod_hci_send] delimits it, and a sequence of them. *)
Definition framed (pkt : list Z) : list Z :=
  SLIP_END :: slip_encode pkt ++ [SLIP_END].

Definition frames_stream (pkts : list (list Z)) : list Z := flat_map framed pkts.

(** Address and key of an entry, the part of it a handler leaves alone. *)
Definition entry_key (e : dispatcher_entry) : nat * wimod_hci_packet_dispatcher :=
  (fst e, disp (snd e)).

(** A waiter as the receive path may leave it: as it was, or completed from
    pending. *)
Definition completed_from (e e' : dispatcher_entry) : Prop :=
  entry_key e' = entry_key e /\
  (snd e' = snd e \/
   (completion_done (comp (snd e)) = false /\
    completion_done (comp (snd e')) = true)).

(** A payload slot holds as many bytes as [payload_len] says. *)
Definition slot_sized (p : wimod_hci_packet_completion) : Prop :=
  forall bytes, payload p = Some bytes -> Z.of_nat (length bytes) = payload_len p.

Definition waiters_sized (es : list dispatcher_entry) : Prop :=
  Forall (fun e => slot_sized (snd e)) es.

(** No entry waits for the key [(dst, msg)]. *)
Definition key_free (es : list dispatcher_entry) (dst msg : Z) : Prop :=
  Forall (fun e => negb ((dst_id (disp (snd e)) =? dst)
                         && (msg_id (disp (snd e)) =? msg)) = true) es.

(** Every call of a handler in [tr] is on the bytes, less the last two, of a
    packet of at least 4 bytes that passed the checksum test and that [tr]
    shows [wimod_process_packet] to have been entered on. *)
Definition dispatch_valid (tr : list event) : Prop :=
  forall a d,
    In (Dispatch a d) tr ->
    exists p,
      In p (processed tr) /\
      (4 <= length p)%nat /\
      CRCFacts.residual p = 3911 /\
      d = firstn (length p - 2) p.

(** ** Sending, step by step *)

(** Two sending steps in a row, the second one skipped when the first one
    fails: the shape of [wimod_hci_send]. *)
Definition seq_send (f g : serdev_device -> Z * serdev_device)
  : serdev_device -> Z * serdev_device :=
  fun s => let (r, s1) := f s in if negb (r =? 0) then (r, s1) else g s1.

(** The step [f] is to write [target]: it writes a prefix of it, all of it
    when it returns 0, and when it does not, what it returns is the first
    error of the transport. *)
Definition sends (f : serdev_device -> Z * serdev_device) (target : list Z) : Prop :=
  forall s,
    exists out,
      tx (snd (f s)) = tx s ++ out /\
      (exists more, target = out ++ more) /\
      (fst (f s) = 0 ->
       out = target /\
       first_error (write_ret (snd (f s))) = first_error (write_ret s)) /\
      (fst (f s) <> 0 -> first_error (write_ret s) = Some (fst (f s))).

(** When [f] fails, part of [target] is missing. *)
Definition falls_short (f : serdev_device -> Z * serdev_device) (target : list Z)
  : Prop :=
  forall s,
    fst (f s) <> 0 ->
    (length (tx (snd (f s))) < length (tx s) + length target)%nat.

(** ** Probing

    [wimod_probe] apart from its logging.  The calls it makes on the port
    are kept as a list; whether [devm_kzalloc] and [serdev_device_open]
    succeed is up to the kernel and given by [probe_env]. *)

Definition ENOMEM : Z := 12.

Inductive port_call :=
| Port_open (ret : Z)
| Port_set_baudrate (speed : Z)
| Port_set_flow_control (enable : bool)
| Port_set_client_ops
| Port_close.

(** Whether the calls leave the port open. *)
Definition port_open_after (calls : list port_call) : bool :=
  fold_left (fun opened c =>
               match c with
               | Port_open ret => ret =? 0
               | Port_close => false
               | _ => opened
               end) calls false.

Record probe_env := mk_probe_env {
  devm_kzalloc_ok : bool;
  open_ret : Z;
  probe_request : request_env
}.

Record probe_result := mk_probe_result {
  probe_ret : Z;
  probe_dev : option wimod_device;
  probe_port : list port_call;
  probe_steps : list step;
  probe_module_type : option Z   (* the byte logged as module type *)
}.

Section Probe.
Variable kzalloc : Z -> bool.

(** [self] is the address of the waiter of the get-device-info request and
    [buf] what the nine bytes of the local [buf] hold on entry. *)
Definition wimod_probe (sdev : serdev_device) (self : nat) (buf : list Z)
    (env : probe_env) : option probe_result :=
  if negb (devm_kzalloc_ok env) then
    Some (mk_probe_result (- ENOMEM) None [] [] None)
  else
    let wmdev := wimod_device_init sdev in
    let ret := open_ret env in
    if negb (ret =? 0) then
      Some (mk_probe_result ret (Some wmdev) [Port_open ret] [] None)
    else
      let port := [Port_open ret; Port_set_baudrate 115200;
                   Port_set_flow_control false; Port_set_client_ops] in
      match wimod_hci_get_device_info kzalloc wmdev self (Some buf)
              (probe_request env) with
      | None => None
      | Some r =>
          if negb (res_ret r =? 0) then
            Some (mk_probe_result (res_ret r) (Some (res_dev r))
                    (port ++ [Port_close]) (res_steps r) None)
          else
            Some (mk_probe_result 0 (Some (res_dev r)) port (res_steps r)
                    (option_map (fun b => nth 0 b 0) (res_buf r)))
      end.

(** [wimod_remove]: the port is closed. *)
Definition wimod_remove (port : list port_call) : list port_call :=
  port ++ [Port_close].

End Probe.

(** Case analysis on the return paths of a request. *)
Ltac request_dev H :=
  match type of H with
  | Some ?r = Some _ => inversion H; subst; cbn [res_dev]
  | None = Some _ => discriminate H
  | (if ?c then _ else _) = Some _ =>
      destruct c; request_dev H
  | match ?c with _ => _ end = Some _ =>
      destruct c; request_dev H
  end.


(** * Properties *)

(** ** Frame check sequence *)

Module CRCProofs.
Import CRC CRCFacts.

Lemma forallb_indices (f : Z -> bool) (n : nat) :
  forallb f (indices n) = true ->
  forall x, 0 <= x < Z.of_nat n -> f x = true.
Proof.
  intros H x Hx. rewrite forallb_forall in H. apply H.
  unfold indices. replace x with (Z.of_nat (Z.to_nat x)) by lia.
  apply in_map, in_seq. lia.
Qed.

Lemma lxor_range (n a b : Z) :
  0 < n -> 0 <= a < 2 ^ n -> 0 <= b < 2 ^ n -> 0 <= Z.lxor a b < 2 ^ n.
Proof.
  intros Hn Ha Hb. split.
  - apply Z.lxor_nonneg. tauto.
  - assert (Hx : 0 <= Z.lxor a b) by (apply Z.lxor_nonneg; tauto).
    destruct (Z.eq_dec (Z.lxor a b) 0) as [-> | Hne].
    + apply Z.pow_pos_nonneg; lia.
    + apply Z.log2_lt_pow2; [lia |].
      pose proof (Z.log2_lxor a b (proj1 Ha) (proj1 Hb)) as Hl.
      assert (La : Z.log2 a < n).
      { destruct (Z.eq_dec a 0) as [-> | ?]; [simpl; lia |].
        apply Z.log2_lt_pow2; lia. }
      assert (Lb : Z.log2 b < n).
      { destruct (Z.eq_dec b 0) as [-> | ?]; [simpl; lia |].
        apply Z.log2_lt_pow2; lia. }
      lia.
Qed.

Lemma lxor_u16 (a b : Z) : is_u16 a -> is_u16 b -> is_u16 (Z.lxor a b).
Proof. intros Ha Hb. apply (lxor_range 16); [lia | exact Ha | exact Hb]. Qed.

Lemma u8_is_u16 (c : Z) : is_u8 c -> is_u16 c.
Proof. unfold is_u8, is_u16. lia. Qed.

Lemma table_u16 (j : nat) : is_u16 (nth j crc_ccitt_table 0).
Proof.
  assert (H : Forall is_u16 crc_ccitt_table).
  { apply Forall_forall. intros x Hx.
    assert (Hb : forallb (fun y => (0 <=? y) && (y <? 65536)) crc_ccitt_table = true)
      by (vm_compute; reflexivity).
    rewrite forallb_forall in Hb. specialize (Hb x Hx).
    unfold is_u16. lia. }
  destruct (Nat.lt_ge_cases j (length crc_ccitt_table)) as [Hj | Hj].
  - rewrite Forall_forall in H. apply H. apply nth_In. exact Hj.
  - rewrite nth_overflow by exact Hj. unfold is_u16. lia.
Qed.

Lemma shiftr8_u16 (crc : Z) : is_u16 crc -> is_u8 (Z.shiftr crc 8).
Proof.
  intros H. unfold is_u8, is_u16 in *. rewrite Z.shiftr_div_pow2 by lia.
  change (2 ^ 8) with 256. split.
  - apply Z.div_pos; lia.
  - apply Z.div_lt_upper_bound; lia.
Qed.

Lemma crc_ccitt_byte_u16 (crc c : Z) :
  is_u16 crc -> is_u16 (crc_ccitt_byte crc c).
Proof.
  intros H. unfold crc_ccitt_byte. apply lxor_u16.
  - apply u8_is_u16, shiftr8_u16, H.
  - apply table_u16.
Qed.

Lemma fold_crc_u16 (l : list Z) (crc : Z) :
  is_u16 crc -> is_u16 (fold_left crc_ccitt_byte l crc).
Proof.
  revert crc. induction l as [| c l IH]; intros crc H; simpl.
  - exact H.
  - apply IH, crc_ccitt_byte_u16, H.
Qed.

Lemma crc_ccitt_u16 (crc : Z) (buffer : list Z) (len : Z) :
  is_u16 crc -> is_u16 (crc_ccitt crc buffer len).
Proof. intros H. unfold crc_ccitt. apply fold_crc_u16, H. Qed.

(** The byte fed enters a step only through the low byte of the register. *)
Lemma crc_ccitt_byte_lxor (crc c : Z) :
  is_u8 c -> crc_ccitt_byte crc c = crc_ccitt_byte (Z.lxor crc c) 0.
Proof.
  intros Hc. unfold crc_ccitt_byte.
  rewrite Z.lxor_0_r, Z.shiftr_lxor.
  replace (Z.shiftr c 8) with 0.
  - rewrite Z.lxor_0_r. reflexivity.
  - rewrite Z.shiftr_div_pow2 by lia. symmetry. apply Z.div_small. exact Hc.
Qed.

Lemma forallb_u16 (f : Z -> bool) :
  forallb (fun h => forallb (fun l => f (256 * h + l)) (indices 256))
          (indices 256) = true ->
  forall x, is_u16 x -> f x = true.
Proof.
  intros H x Hx. unfold is_u16 in Hx.
  pose proof (Z.div_mod x 256 ltac:(lia)) as E.
  pose proof (Z.mod_pos_bound x 256 ltac:(lia)) as Hl.
  assert (Hh : 0 <= x / 256 < 256).
  { split; [apply Z.div_pos; lia | apply Z.div_lt_upper_bound; lia]. }
  pose proof (forallb_indices _ _ H (x / 256) Hh) as H1. cbv beta in H1.
  pose proof (forallb_indices _ _ H1 (x mod 256) Hl) as H2. cbv beta in H2.
  rewrite <- E in H2. exact H2.
Qed.

Lemma unbyte_zero_all :
  forallb (fun h => forallb (fun l =>
     crc_ccitt_unbyte (crc_ccitt_byte (256 * h + l) 0) 0 =? 256 * h + l)
     (indices 256)) (indices 256) = true.
Proof. vm_compute. reflexivity. Qed.

Lemma crc_ccitt_unbyte_byte (crc c : Z) :
  is_u16 crc -> is_u8 c -> crc_ccitt_unbyte (crc_ccitt_byte crc c) c = crc.
Proof.
  intros Hcrc Hc.
  assert (Hx : is_u16 (Z.lxor crc c)) by (apply lxor_u16; auto using u8_is_u16).
  rewrite crc_ccitt_byte_lxor by exact Hc.
  pose proof (forallb_u16
    (fun x => crc_ccitt_unbyte (crc_ccitt_byte x 0) 0 =? x)
    unbyte_zero_all (Z.lxor crc c) Hx) as H.
  apply Z.eqb_eq in H.
  unfold crc_ccitt_unbyte in *. rewrite Z.lxor_0_r in H. rewrite H.
  rewrite Z.lxor_assoc, Z.lxor_nilpotent, Z.lxor_0_r. reflexivity.
Qed.

(** A step is injective in the register... *)
Lemma crc_ccitt_byte_inj (crc crc' c : Z) :
  is_u16 crc -> is_u16 crc' -> is_u8 c ->
  crc_ccitt_byte crc c = crc_ccitt_byte crc' c -> crc = crc'.
Proof.
  intros H H' Hc E.
  rewrite <- (crc_ccitt_unbyte_byte crc c H Hc).
  rewrite <- (crc_ccitt_unbyte_byte crc' c H' Hc).
  rewrite E. reflexivity.
Qed.

(** ... and in the byte. *)
Lemma crc_ccitt_byte_inj_byte (crc c c' : Z) :
  is_u16 crc -> is_u8 c -> is_u8 c' ->
  crc_ccitt_byte crc c = crc_ccitt_byte crc c' -> c = c'.
Proof.
  intros H Hc Hc' E.
  rewrite (crc_ccitt_byte_lxor crc c Hc), (crc_ccitt_byte_lxor crc c' Hc') in E.
  apply crc_ccitt_byte_inj in E.
  - apply (f_equal (Z.lxor crc)) in E.
    rewrite <- !Z.lxor_assoc, Z.lxor_nilpotent, !Z.lxor_0_l in E. exact E.
  - apply lxor_u16; auto using u8_is_u16.
  - apply lxor_u16; auto using u8_is_u16.
  - unfold is_u8. lia.
Qed.

Lemma fold_crc_inj (l : list Z) (crc crc' : Z) :
  Forall is_u8 l -> is_u16 crc -> is_u16 crc' ->
  fold_left crc_ccitt_byte l crc = fold_left crc_ccitt_byte l crc' ->
  crc = crc'.
Proof.
  revert crc crc'. induction l as [| c l IH]; intros crc crc' Hl H H' E; simpl in E.
  - exact E.
  - inversion Hl as [| ? ? Hc Hl']; subst.
    apply IH in E; auto using crc_ccitt_byte_u16.
    eapply crc_ccitt_byte_inj; eauto.
Qed.

Lemma complement_spec (crc : Z) : is_u16 crc -> complement crc = 65535 - crc.
Proof.
  intros H. unfold complement, to_u16, Z.lnot, is_u16 in *.
  replace (Z.pred (- crc)) with (65535 - crc + (-1) * 65536) by lia.
  rewrite Z.mod_add by lia. apply Z.mod_small. lia.
Qed.

Lemma complement_u16 (crc : Z) : is_u16 crc -> is_u16 (complement crc).
Proof. intros H. rewrite complement_spec by exact H. unfold is_u16 in *. lia. Qed.

Lemma complement_inj (a b : Z) :
  is_u16 a -> is_u16 b -> complement a = complement b -> a = b.
Proof. intros Ha Hb. rewrite !complement_spec by assumption. lia. Qed.

(** Feeding the complemented register back, low byte first, always leaves
    0xf0b8 in the register. *)
Lemma fed_back_all :
  forallb (fun h => forallb (fun l =>
     crc_ccitt_byte
       (crc_ccitt_byte (256 * h + l) (Z.land (complement (256 * h + l)) 255))
       (Z.shiftr (complement (256 * h + l)) 8) =? 61624)
     (indices 256)) (indices 256) = true.
Proof. vm_compute. reflexivity. Qed.

Lemma fed_back (crc : Z) :
  is_u16 crc ->
  fold_left crc_ccitt_byte (le16_bytes (complement crc)) crc = 61624.
Proof.
  intros H. simpl. apply Z.eqb_eq.
  exact (forallb_u16
    (fun x => crc_ccitt_byte (crc_ccitt_byte x (Z.land (complement x) 255))
                (Z.shiftr (complement x) 8) =? 61624) fed_back_all crc H).
Qed.

Lemma le16_bytes_u8 (crc : Z) : is_u16 crc -> Forall is_u8 (le16_bytes crc).
Proof.
  intros H. unfold le16_bytes.
  constructor; [| constructor; [| constructor]].
  - unfold is_u8. change 255 with (Z.ones 8). rewrite Z.land_ones by lia.
    apply Z.mod_pos_bound. lia.
  - apply shiftr8_u16, H.
Qed.

Lemma fcs_register_u16 (dst msg : Z) (payload : list Z) :
  is_u16 (fcs_register dst msg payload).
Proof.
  unfold fcs_register. apply fold_crc_u16.
  do 2 apply crc_ccitt_byte_u16. unfold is_u16. lia.
Qed.

Lemma hci_fcs_register (dst msg : Z) (payload : list Z) :
  hci_fcs dst msg payload (Z.of_nat (length payload))
  = complement (fcs_register dst msg payload).
Proof.
  unfold hci_fcs, fcs_register, crc_ccitt.
  rewrite Nat2Z.id, firstn_all.
  destruct payload as [| c l]; reflexivity.
Qed.

Lemma hci_fcs_u16 (dst msg : Z) (payload : list Z) :
  is_u16 (hci_fcs dst msg payload (Z.of_nat (length payload))).
Proof. rewrite hci_fcs_register. apply complement_u16, fcs_register_u16. Qed.

Lemma residual_fold (data : list Z) :
  residual data = complement (fold_left crc_ccitt_byte data 65535).
Proof. unfold residual, crc_ccitt. rewrite Nat2Z.id, firstn_all. reflexivity. Qed.

Lemma residual_hci_frame (dst msg : Z) (payload : list Z) :
  residual (hci_frame dst msg payload) = 3911.
Proof.
  rewrite residual_fold. unfold hci_frame. simpl fold_left.
  rewrite fold_left_app, hci_fcs_register.
  fold (fcs_register dst msg payload).
  rewrite fed_back by apply fcs_register_u16. reflexivity.
Qed.

Lemma hci_frame_u8 (dst msg : Z) (payload : list Z) :
  is_u8 dst -> is_u8 msg -> Forall is_u8 payload ->
  Forall is_u8 (hci_frame dst msg payload).
Proof.
  intros Hd Hm Hp. unfold hci_frame.
  constructor; [exact Hd |]. constructor; [exact Hm |].
  apply Forall_app. split; [exact Hp |].
  apply le16_bytes_u8, hci_fcs_u16.
Qed.

Lemma flip_changes (c k : Z) : 0 <= k -> Z.lxor c (2 ^ k) <> c.
Proof.
  intros Hk E. apply (f_equal (Z.lxor c)) in E.
  rewrite <- Z.lxor_assoc, Z.lxor_nilpotent, Z.lxor_0_l in E.
  pose proof (Z.pow_pos_nonneg 2 k ltac:(lia) Hk). lia.
Qed.

Lemma flip_u8 (c k : Z) : is_u8 c -> 0 <= k < 8 -> is_u8 (Z.lxor c (2 ^ k)).
Proof.
  intros Hc Hk. apply (lxor_range 8); [lia | exact Hc |].
  split; [apply Z.pow_nonneg; lia |].
  apply Z.pow_lt_mono_r; lia.
Qed.

Lemma split_at (l : list Z) (i : nat) :
  (i < length l)%nat -> l = firstn i l ++ nth i l 0 :: skipn (S i) l.
Proof.
  revert i. induction l as [| c l IH]; intros [| i] H; simpl in *; try lia.
  - reflexivity.
  - f_equal. apply IH. lia.
Qed.

(** One inverted bit anywhere changes the register, whatever it started
    from. *)
Lemma fold_crc_flip (l : list Z) (i : nat) (k crc : Z) :
  Forall is_u8 l -> (i < length l)%nat -> 0 <= k < 8 -> is_u16 crc ->
  fold_left crc_ccitt_byte (flip_bit l i k) crc
  <> fold_left crc_ccitt_byte l crc.
Proof.
  intros Hl Hi Hk Hcrc E. unfold flip_bit in E.
  pose proof (split_at l i Hi) as Hsplit.
  assert (Hc : is_u8 (nth i l 0)).
  { rewrite Forall_forall in Hl. apply Hl, nth_In, Hi. }
  assert (Hsuf : Forall is_u8 (skipn (S i) l)).
  { rewrite Forall_forall in *. intros x Hx. apply Hl.
    rewrite <- (firstn_skipn (S i) l). apply in_or_app. right. exact Hx. }
  rewrite Hsplit in E at 4.
  rewrite !fold_left_app in E. simpl in E.
  set (s := fold_left crc_ccitt_byte (firstn i l) crc) in E.
  assert (Hs : is_u16 s) by (apply fold_crc_u16, Hcrc).
  apply fold_crc_inj in E; auto using crc_ccitt_byte_u16.
  apply crc_ccitt_byte_inj_byte in E; auto using flip_u8.
  apply flip_changes in E; [exact E | lia].
Qed.

Lemma residual_flip (l : list Z) (i : nat) (k : Z) :
  Forall is_u8 l -> (i < length l)%nat -> 0 <= k < 8 ->
  residual (flip_bit l i k) <> residual l.
Proof.
  intros Hl Hi Hk E. rewrite !residual_fold in E.
  assert (H0 : is_u16 65535) by (unfold is_u16; lia).
  apply complement_inj in E; auto using fold_crc_u16.
  revert E. apply fold_crc_flip; auto.
Qed.

End CRCProofs.

(** ** The dispatcher list *)

Section DispatchProofs.
Import CRC CRCFacts CRCProofs.
Variable kzalloc : Z -> bool.

Lemma residual_firstn (data : list Z) (len : Z) :
  complement (crc_ccitt 65535 data len) = residual (firstn (Z.to_nat len) data).
Proof. rewrite residual_fold. reflexivity. Qed.

Lemma process_packet_short (wmdev : wimod_device) (data : list Z) (len : Z) :
  len < 4 ->
  wimod_process_packet kzalloc wmdev data len
  = (wmdev, [Processing (firstn (Z.to_nat len) data); Discard_length len]).
Proof.
  intros H. unfold wimod_process_packet.
  destruct (Z.ltb_spec len 4); [reflexivity | lia].
Qed.

Lemma process_packet_bad_checksum (wmdev : wimod_device) (data : list Z) (len : Z) :
  4 <= len -> residual (firstn (Z.to_nat len) data) <> 3911 ->
  wimod_process_packet kzalloc wmdev data len
  = (wmdev, [Processing (firstn (Z.to_nat len) data); Discard_checksum]).
Proof.
  intros H Hr. unfold wimod_process_packet.
  destruct (Z.ltb_spec len 4); [lia |].
  rewrite residual_firstn.
  destruct (Z.eqb_spec (residual (firstn (Z.to_nat len) data)) 3911);
    [contradiction | reflexivity].
Qed.

Lemma process_packet_valid (wmdev : wimod_device) (data : list Z) (len : Z) :
  4 <= len -> residual (firstn (Z.to_nat len) data) = 3911 ->
  wimod_process_packet kzalloc wmdev data len
  = (set_packet_dispatchers
       (fst (dispatch_scan kzalloc (packet_dispatchers wmdev) data len)) wmdev,
     Processing (firstn (Z.to_nat len) data)
       :: snd (dispatch_scan kzalloc (packet_dispatchers wmdev) data len)).
Proof.
  intros H Hr. unfold wimod_process_packet.
  destruct (Z.ltb_spec len 4); [lia |].
  rewrite residual_firstn, Hr. simpl.
  destruct (dispatch_scan kzalloc (packet_dispatchers wmdev) data len).
  reflexivity.
Qed.

Lemma dispatch_scan_events (es : list dispatcher_entry) (data : list Z) (len : Z) :
  forall e, In e (snd (dispatch_scan kzalloc es data len)) -> is_dispatch e = true.
Proof.
  induction es as [| [a d] es IH]; simpl; intros e He.
  - contradiction.
  - destruct ((dst_id (disp d) =? nth 0 data 0) && (msg_id (disp d) =? nth 1 data 0)).
    + simpl in He. destruct He as [<- | []]. reflexivity.
    + destruct (dispatch_scan kzalloc es data len) as [es' tr]. simpl in *.
      apply IH, He.
Qed.

Lemma dispatch_scan_accepted (es : list dispatcher_entry) (data : list Z) (len : Z) :
  existsb is_discard (snd (dispatch_scan kzalloc es data len)) = false.
Proof.
  destruct (existsb is_discard (snd (dispatch_scan kzalloc es data len))) eqn:E;
    [| reflexivity].
  apply existsb_exists in E. destruct E as (e & He & Hd).
  apply dispatch_scan_events in He. destruct e; discriminate.
Qed.

Lemma process_packet_accepted_iff (wmdev : wimod_device) (data : list Z) (len : Z) :
  4 <= len ->
  accepted (snd (wimod_process_packet kzalloc wmdev data len)) = true
  <-> residual (firstn (Z.to_nat len) data) = 3911.
Proof.
  intros H. split.
  - intros Ha.
    destruct (Z.eq_dec (residual (firstn (Z.to_nat len) data)) 3911) as [E | E];
      [exact E |].
    rewrite process_packet_bad_checksum in Ha by assumption. discriminate.
  - intros E. rewrite process_packet_valid by assumption.
    unfold accepted. simpl. rewrite dispatch_scan_accepted. reflexivity.
Qed.

(** The scan stops at the first entry that matches. *)
Lemma dispatch_scan_first (pre post : list dispatcher_entry) (a : nat)
    (e : wimod_hci_packet_completion) (data : list Z) (len : Z) :
  forallb (fun x => negb (entry_matches data x)) pre = true ->
  entry_matches data (a, e) = true ->
  dispatch_scan kzalloc (pre ++ (a, e) :: post) data len
  = (pre ++ (a, call_dispatchee kzalloc (dispatchee (disp e)) data (len - 2) e)
         :: post,
     [Dispatch a (firstn (Z.to_nat (len - 2)) data)]).
Proof.
  intros Hpre He. induction pre as [| [b d] pre IH]; simpl.
  - unfold entry_matches in He. simpl in He. rewrite He. reflexivity.
  - simpl in Hpre. apply andb_prop in Hpre. destruct Hpre as [Hb Hpre].
    unfold entry_matches in Hb. simpl in Hb.
    apply negb_true_iff in Hb. rewrite Hb.
    rewrite (IH Hpre). reflexivity.
Qed.

Lemma dispatch_scan_none (es : list dispatcher_entry) (data : list Z) (len : Z) :
  forallb (fun x => negb (entry_matches data x)) es = true ->
  dispatch_scan kzalloc es data len = (es, []).
Proof.
  induction es as [| [b d] es IH]; simpl; intros H.
  - reflexivity.
  - apply andb_prop in H. destruct H as [Hb H].
    unfold entry_matches in Hb. simpl in Hb.
    apply negb_true_iff in Hb. rewrite Hb, (IH H). reflexivity.
Qed.

Lemma dispatch_scan_at_most_one (es : list dispatcher_entry) (data : list Z) (len : Z) :
  (length (snd (dispatch_scan kzalloc es data len)) <= 1)%nat.
Proof.
  induction es as [| [b d] es IH]; simpl.
  - lia.
  - destruct ((dst_id (disp d) =? nth 0 data 0) && (msg_id (disp d) =? nth 1 data 0)).
    + simpl. lia.
    + destruct (dispatch_scan kzalloc es data len). simpl in *. exact IH.
Qed.

Lemma set_packet_dispatchers_same (w : wimod_device) :
  set_packet_dispatchers (packet_dispatchers w) w = w.
Proof. destruct w. reflexivity. Qed.

End DispatchProofs.

(** C2. Checksum fixed residual.  For a frame made of bytes, with the
    checksum [wimod_hci_send] appends: the complemented CRC over the whole
    frame, checksum included, is 0x0f47 (3911); with any single bit of the
    frame inverted it is not; and [wimod_process_packet] accepts a byte
    sequence of frame length (at least 4) exactly when it is 0x0f47. *)
Theorem checksum_fixed_residual (kzalloc : Z -> bool) (dst msg : Z)
    (payload : list Z) :
  is_u8 dst -> is_u8 msg -> Forall is_u8 payload ->
  CRCFacts.residual (hci_frame dst msg payload) = 3911 /\
  (forall (i : nat) (k : Z),
      (i < length (hci_frame dst msg payload))%nat -> 0 <= k < 8 ->
      CRCFacts.residual (CRCFacts.flip_bit (hci_frame dst msg payload) i k) <> 3911) /\
  (forall (wmdev : wimod_device) (data : list Z) (len : Z),
      4 <= len ->
      accepted (snd (wimod_process_packet kzalloc wmdev data len)) = true
      <-> CRCFacts.residual (firstn (Z.to_nat len) data) = 3911).
Proof.
  intros Hd Hm Hp. split; [| split].
  - apply CRCProofs.residual_hci_frame.
  - intros i k Hi Hk.
    rewrite <- (CRCProofs.residual_hci_frame dst msg payload).
    apply CRCProofs.residual_flip; auto using CRCProofs.hci_frame_u8.
  - intros wmdev data len Hlen. apply process_packet_accepted_iff, Hlen.
Qed.

Lemma checksum_fixed_residual_witness :
  CRCFacts.residual (hci_frame 1 2 [0; 192; 219]) = 3911.
Proof.
  apply (checksum_fixed_residual (fun _ => true) 1 2 [0; 192; 219]).
  - unfold is_u8; lia.
  - unfold is_u8; lia.
  - repeat (constructor; [unfold is_u8; lia |]). constructor.
Defined.

(** C5. First-match dispatch.  Registration puts an entry at the end of
    the list.  For a packet that passes both checks,
    [wimod_process_packet] calls at most one handler.  When the list is
    [pre ++ (a, e) :: post] with no entry of [pre] matching the packet's
    first two bytes and [(a, e)] matching them, the one call is to entry
    [a], and every other entry, in particular a later one with the same
    key, is left as it was.  When no entry matches, no handler is called and
    the device is unchanged. *)
Theorem first_match_dispatch (kzalloc : Z -> bool) (wmdev : wimod_device)
    (data : list Z) (len : Z) :
  4 <= len -> CRCFacts.residual (firstn (Z.to_nat len) data) = 3911 ->
  (forall entry,
      packet_dispatchers (wimod_hci_add_dispatcher wmdev entry)
      = packet_dispatchers wmdev ++ [entry]) /\
  (length (dispatches (snd (wimod_process_packet kzalloc wmdev data len))) <= 1)%nat /\
  (forall pre a e post,
      packet_dispatchers wmdev = pre ++ (a, e) :: post ->
      forallb (fun x => negb (entry_matches data x)) pre = true ->
      entry_matches data (a, e) = true ->
      dispatches (snd (wimod_process_packet kzalloc wmdev data len))
      = [Dispatch a (firstn (Z.to_nat (len - 2)) data)] /\
      packet_dispatchers (fst (wimod_process_packet kzalloc wmdev data len))
      = pre ++ (a, call_dispatchee kzalloc (dispatchee (disp e)) data (len - 2) e)
            :: post) /\
  (forallb (fun x => negb (entry_matches data x)) (packet_dispatchers wmdev) = true ->
   dispatches (snd (wimod_process_packet kzalloc wmdev data len)) = [] /\
   fst (wimod_process_packet kzalloc wmdev data len) = wmdev).
Proof.
  intros Hlen Hres. split; [intros entry; reflexivity |].
  rewrite process_packet_valid by assumption. simpl.
  split; [| split].
  - unfold dispatches.
    eapply Nat.le_trans; [apply filter_length_le |].
    apply dispatch_scan_at_most_one.
  - intros pre a e post Hreg Hpre He.
    rewrite Hreg, (dispatch_scan_first kzalloc pre post a e data len Hpre He).
    simpl. split; reflexivity.
  - intros Hnone. rewrite (dispatch_scan_none kzalloc _ data len Hnone). simpl.
    split; [reflexivity | apply set_packet_dispatchers_same].
Qed.

Lemma first_match_dispatch_witness :
  let first := new_packet 1 2 in
  let second := new_packet 1 2 in
  let wmdev :=
    wimod_hci_add_dispatcher
      (wimod_hci_add_dispatcher (wimod_device_init (mk_serdev [] []))
         (1%nat, first)) (2%nat, second) in
  let data := hci_frame 1 2 [0] in
  dispatches (snd (wimod_process_packet (fun _ => true) wmdev data 5))
  = [Dispatch 1 [1; 2; 0]] /\
  packet_dispatchers (fst (wimod_process_packet (fun _ => true) wmdev data 5))
  = [(1%nat, call_dispatchee (fun _ => true)
               fn_wimod_hci_packet_dispatch_completion data 3 first);
     (2%nat, second)].
Proof.
  intros first second wmdev data.
  assert (Hlen : 4 <= 5) by lia.
  assert (Hres : CRCFacts.residual (firstn (Z.to_nat 5) data) = 3911)
    by (vm_compute; reflexivity).
  destruct (first_match_dispatch (fun _ => true) wmdev data 5 Hlen Hres)
    as (_ & _ & Hfirst & _).
  apply (Hfirst [] 1%nat first [(2%nat, second)]); reflexivity.
Defined.

(** The reach of the guard of the handler.  While a waiter's completion has
    fired and has not been consumed, the handler returns the waiter as it
    is; so over any sequence of packets dispatched back to back to a waiter
    that starts with its completion not fired, the completion fires once
    and the waiter ends as the first packet left it. *)
Lemma guard_while_fired (kzalloc : Z -> bool)
    (d : wimod_hci_packet_completion) :
  (forall data len,
      completion_done (comp d) = true ->
      wimod_hci_packet_dispatch_completion kzalloc data len d = d) /\
  (forall (packets : list (list Z * Z)),
      done (comp d) = 0 ->
      let handle w p := wimod_hci_packet_dispatch_completion kzalloc (fst p) (snd p) w in
      done (comp (fold_left handle packets d)) <= 1 /\
      forall p ps, packets = p :: ps ->
        fold_left handle packets d = handle d p /\
        done (comp (handle d p)) = 1 /\
        handle (handle d p) p = handle d p).
Proof.
  assert (Hnoop : forall w data len,
             completion_done (comp w) = true ->
             wimod_hci_packet_dispatch_completion kzalloc data len w = w).
  { intros w data len H. unfold wimod_hci_packet_dispatch_completion.
    rewrite H. reflexivity. }
  assert (Hfires : forall w data len,
             done (comp w) = 0 ->
             done (comp (wimod_hci_packet_dispatch_completion kzalloc data len w)) = 1).
  { intros w data len H. unfold wimod_hci_packet_dispatch_completion,
      completion_done, complete. rewrite H. reflexivity. }
  assert (Hstays : forall ps w,
             completion_done (comp w) = true ->
             fold_left (fun w p => wimod_hci_packet_dispatch_completion kzalloc
                                     (fst p) (snd p) w) ps w = w).
  { induction ps as [| p ps IH]; intros w H; simpl.
    - reflexivity.
    - rewrite Hnoop by exact H. apply IH, H. }
  split.
  - intros data len. apply Hnoop.
  - intros packets H0 handle. subst handle.
    assert (Hdone : forall p,
               completion_done (comp (wimod_hci_packet_dispatch_completion kzalloc
                                        (fst p) (snd p) d)) = true).
    { intros p. unfold completion_done. rewrite Hfires by exact H0. reflexivity. }
    split.
    + destruct packets as [| p ps]; simpl.
      * lia.
      * rewrite Hstays by apply Hdone. rewrite Hfires by exact H0. lia.
    + intros p ps ->. simpl. split; [| split].
      * apply Hstays, Hdone.
      * apply Hfires, H0.
      * apply Hnoop, Hdone.
Qed.

(** C4. The completion can fire twice.  The guard of the handler looks at
    the counter of the completion, which the waiting caller takes back to 0
    when it wakes (line 238), before it takes its waiter off the list (line
    239).  A ping is answered with status 0 and its caller woken; a second
    answer processed while the waiter is still on the list passes the
    guard.  When it is a byte-identical duplicate, the completion fires a
    second time; when it carries another payload, the payload slot and the
    payload length are written again. *)
Theorem completion_fires_again_after_wake :
  let armed :=
    wimod_hci_add_dispatcher Vectors.fresh
      (1%nat, new_packet DEVMGMT_ID DEVMGMT_MSG_PING_RSP) in
  let answered (w : wimod_device) (p : list Z) :=
    match wimod_receive_buf Vectors.always w
            (Vectors.wire DEVMGMT_ID DEVMGMT_MSG_PING_RSP p) with
    | Some (_, w', tr) =>
        option_map (fun d => (done (comp d), payload d, payload_len d, dispatches tr))
          (find_entry w' 1)
    | None => None
    end in
  exists woken tr,
    wait_for_completion_timeout Vectors.always armed 1
      (mk_env [Vectors.wire DEVMGMT_ID DEVMGMT_MSG_PING_RSP [0]] 3)
    = Some (3, woken, tr) /\
    option_map (fun d => (done (comp d), payload d, payload_len d))
      (find_entry woken 1)
    = Some (0, Some [0], 1) /\
    answered woken [0]
    = Some (1, Some [0], 1, [Dispatch 1 [DEVMGMT_ID; DEVMGMT_MSG_PING_RSP; 0]]) /\
    answered woken [5; 6]
    = Some (1, Some [5; 6], 2, [Dispatch 1 [DEVMGMT_ID; DEVMGMT_MSG_PING_RSP; 5; 6]]).
Proof.
  intros armed answered.
  destruct (wait_for_completion_timeout Vectors.always armed 1
              (mk_env [Vectors.wire DEVMGMT_ID DEVMGMT_MSG_PING_RSP [0]] 3))
    as [[[t woken] tr] |] eqn:Hwait; [| vm_compute in Hwait; discriminate Hwait].
  exists woken, tr.
  vm_compute in Hwait. injection Hwait as Ht Hw Htr.
  subst t woken tr. vm_compute. repeat split.
Qed.

(** C8 as stated fails when the kernel cannot allocate the payload slot:
    the waiter completes with its length set and a NULL payload. *)
Lemma payload_stripping_counterexample :
  let wmdev :=
    wimod_hci_add_dispatcher (wimod_device_init (mk_serdev [] []))
      (1%nat, new_packet 1 2) in
  let data := hci_frame 1 2 [0; 192; 219] in
  CRCFacts.residual data = 3911 /\
  entry_matches data (1%nat, new_packet 1 2) = true /\
  exists p,
    find_entry (fst (wimod_process_packet (fun _ => false) wmdev data 7)) 1
    = Some p /\
    completion_done (comp p) = true /\
    payload_len p = 7 - 4 /\
    payload p <> Some [0; 192; 219].
Proof.
  split; [vm_compute; reflexivity |]. split; [reflexivity |].
  eexists. split; [vm_compute; reflexivity |].
  split; [reflexivity |]. split; [reflexivity |]. discriminate.
Qed.

(** C8, amended.  When a packet of length [len >= 4] that passes the
    checksum test reaches a waiter whose completion has not fired, the
    waiter completes with [payload_len = len - 4]; its payload slot holds
    exactly the bytes 2 .. len-3 of the packet when the allocation of the
    slot succeeds, and is NULL when it fails. *)
Theorem payload_stripping (kzalloc : Z -> bool) (wmdev : wimod_device)
    (data : list Z) (len : Z) (pre post : list dispatcher_entry) (a : nat)
    (e : wimod_hci_packet_completion) :
  4 <= len -> CRCFacts.residual (firstn (Z.to_nat len) data) = 3911 ->
  packet_dispatchers wmdev = pre ++ (a, e) :: post ->
  forallb (fun x => negb (entry_matches data x)) pre = true ->
  entry_matches data (a, e) = true ->
  done (comp e) = 0 ->
  exists e',
    packet_dispatchers (fst (wimod_process_packet kzalloc wmdev data len))
    = pre ++ (a, e') :: post /\
    disp e' = disp e /\
    done (comp e') = 1 /\
    payload_len e' = len - 4 /\
    payload e' = if kzalloc (len - 4)
                 then Some (firstn (Z.to_nat (len - 4)) (skipn 2 data))
                 else None.
Proof.
  intros Hlen Hres Hreg Hpre He Hdone.
  rewrite process_packet_valid by assumption. simpl.
  rewrite Hreg, (dispatch_scan_first kzalloc pre post a e data len Hpre He).
  simpl. eexists. split; [reflexivity |].
  destruct (dispatchee (disp e)). simpl.
  unfold wimod_hci_packet_dispatch_completion, completion_done, complete.
  rewrite Hdone. simpl.
  replace (len - 2 - 2) with (len - 4) by lia.
  repeat split.
Qed.

Lemma payload_stripping_witness :
  let wmdev :=
    wimod_hci_add_dispatcher (wimod_device_init (mk_serdev [] []))
      (1%nat, new_packet 1 2) in
  let data := hci_frame 1 2 [0; 192; 219] in
  exists e',
    packet_dispatchers (fst (wimod_process_packet (fun _ => true) wmdev data 7))
    = [(1%nat, e')] /\
    payload_len e' = 3 /\ payload e' = Some [0; 192; 219].
Proof.
  intros wmdev data.
  destruct (payload_stripping (fun _ => true) wmdev data 7 [] [] 1%nat
              (new_packet 1 2)) as (e' & Hreg & _ & _ & Hlen & Hp);
    try reflexivity; try lia.
  exists e'. split; [exact Hreg |]. split; [exact Hlen | exact Hp].
Defined.

(** ** The receive loop *)

Section ReceiveProofs.
Variable kzalloc : Z -> bool.

Lemma emit_nil (r : option receive_exit) : emit [] r = r.
Proof. destruct r as [[? ? ? ?] |]; reflexivity. Qed.

Lemma emit_emit (tr tr' : list event) (r : option receive_exit) :
  emit tr (emit tr' r) = emit (tr ++ tr') r.
Proof. destruct r as [x |]; simpl; [rewrite app_assoc |]; reflexivity. Qed.

(** The loop, one turn at a time. *)
Lemma receive_loop_step (w : wimod_device) (lit rest : list Z) (c len : Z) :
  receive_loop kzalloc w lit (c :: rest) len =
  match loop_step kzalloc w lit c with
  | Halt => Some (mk_exit len (lit ++ c :: rest) w [])
  | Scan => receive_loop kzalloc w (lit ++ [c]) rest len
  | Consume w' tr =>
      emit tr (receive_loop kzalloc w' [] rest (len + (Z.of_nat (length lit) + 1)))
  | Fault => None
  end.
Proof.
  cbn [receive_loop]. unfold loop_step.
  assert (Hmin : forall cap,
    (Z.of_nat (length lit) <? Z.min (Z.of_nat (length lit + length (c :: rest))) cap)
    = (Z.of_nat (length lit) <? cap)).
  { intros cap. simpl length.
    destruct (Z.ltb_spec (Z.of_nat (length lit)) cap);
      destruct (Z.ltb_spec (Z.of_nat (length lit))
                  (Z.min (Z.of_nat (length lit + S (length rest))) cap)); lia. }
  rewrite Hmin.
  destruct (Z.of_nat (length lit) <? to_size_t (WIMOD_HCI_PACKET_MAX - rx_len w));
    [| reflexivity].
  destruct (rx_esc w).
  - destruct (c =? SLIP_ESC_END).
    + destruct (rx_push (set_rx_esc false w) SLIP_END); reflexivity.
    + destruct (c =? SLIP_ESC_ESC).
      * destruct (rx_push (set_rx_esc false w) SLIP_ESC); reflexivity.
      * reflexivity.
  - unfold literal.
    destruct (negb (c =? SLIP_END) && negb (c =? SLIP_ESC)); [reflexivity |].
    destruct (if 0 <? Z.of_nat (length lit) then rx_memcpy w lit else Some w)
      as [w1 |]; [| reflexivity].
    destruct ((c =? SLIP_END) && (0 <? rx_len w1)).
    + destruct (wimod_process_packet kzalloc w1 (rx_buf w1) (rx_len w1)).
      reflexivity.
    + destruct (c =? SLIP_ESC); reflexivity.
Qed.

(** *** The buffer *)

Lemma packet_max : WIMOD_HCI_PACKET_MAX = 610.
Proof. reflexivity. Qed.

Lemma rx_wf_init (sdev : serdev_device) : rx_wf (wimod_device_init sdev).
Proof.
  unfold rx_wf, wimod_device_init. cbn [rx_buf rx_len].
  rewrite repeat_length, packet_max. lia.
Qed.

Lemma content_length (w : wimod_device) :
  rx_wf w -> length (content w) = Z.to_nat (rx_len w).
Proof.
  intros [Hb Hl]. unfold content. rewrite length_firstn, Hb. lia.
Qed.

Lemma rx_load_content (w : wimod_device) : rx_wf w -> rx_load w (content w) = w.
Proof.
  intros H. pose proof (content_length w H) as Hc. destruct H as [Hb Hl].
  unfold rx_load, set_rx. rewrite Hc. unfold content.
  rewrite firstn_skipn, Z2Nat.id by lia. destruct w; reflexivity.
Qed.

Lemma rx_load_wf (w : wimod_device) (pkt : list Z) :
  rx_wf w -> Z.of_nat (length pkt) <= WIMOD_HCI_PACKET_MAX -> rx_wf (rx_load w pkt).
Proof.
  intros [Hb Hl] Hp. unfold rx_wf, rx_load. cbn [set_rx rx_buf rx_len].
  rewrite length_app, length_skipn, Hb. lia.
Qed.

Lemma rx_load_len (w : wimod_device) (pkt : list Z) :
  rx_len (rx_load w pkt) = Z.of_nat (length pkt).
Proof. reflexivity. Qed.

Lemma content_rx_load (w : wimod_device) (pkt : list Z) :
  content (rx_load w pkt) = pkt.
Proof.
  unfold content, rx_load. cbn [set_rx rx_buf rx_len]. rewrite Nat2Z.id.
  rewrite firstn_app, Nat.sub_diag, firstn_all. simpl. apply app_nil_r.
Qed.

Lemma rx_load_load (w : wimod_device) (p q : list Z) :
  (length p <= length q)%nat -> rx_wf w ->
  Z.of_nat (length p) <= WIMOD_HCI_PACKET_MAX ->
  rx_load (rx_load w p) q = rx_load w q.
Proof.
  intros Hpq [Hb Hl] Hp. unfold rx_load, set_rx. cbn [rx_buf rx_len serdev rx_esc packet_dispatchers].
  f_equal. f_equal.
  rewrite skipn_app, skipn_skipn.
  rewrite (skipn_all2 p) by lia. simpl. f_equal. lia.
Qed.

Lemma store_at (buf src : list Z) (idx : Z) :
  0 <= idx -> idx + Z.of_nat (length src) <= Z.of_nat (length buf) ->
  store buf idx src
  = Some (firstn (Z.to_nat idx) buf ++ src ++ skipn (Z.to_nat idx + length src) buf).
Proof.
  intros H0 H1. unfold store.
  destruct (Z.leb_spec 0 idx); [| lia].
  destruct (Z.leb_spec (idx + Z.of_nat (length src)) (Z.of_nat (length buf))); [| lia].
  reflexivity.
Qed.

(** A store succeeds exactly when it stays inside the array. *)
Lemma store_in_bounds (buf src : list Z) (idx : Z) :
  store buf idx src <> None
  <-> 0 <= idx /\ idx + Z.of_nat (length src) <= Z.of_nat (length buf).
Proof.
  unfold store.
  destruct (Z.leb_spec 0 idx);
    destruct (Z.leb_spec (idx + Z.of_nat (length src)) (Z.of_nat (length buf)));
    simpl; split; intros Hs; try lia; try discriminate; try contradiction.
Qed.

Lemma rx_memcpy_load (w : wimod_device) (src : list Z) :
  rx_wf w -> rx_len w + Z.of_nat (length src) <= WIMOD_HCI_PACKET_MAX ->
  rx_memcpy w src = Some (rx_load w (content w ++ src)).
Proof.
  intros H Hs. pose proof (content_length w H) as Hc. destruct H as [Hb Hl].
  unfold rx_memcpy. rewrite store_at by lia.
  unfold rx_load. rewrite length_app, Hc. unfold content.
  f_equal. f_equal.
  - rewrite <- app_assoc. reflexivity.
  - lia.
Qed.

Lemma rx_push_load (w : wimod_device) (c : Z) :
  rx_wf w -> rx_len w < WIMOD_HCI_PACKET_MAX ->
  rx_push w c = Some (rx_load w (content w ++ [c])).
Proof.
  intros H Hs. pose proof (rx_memcpy_load w [c] H) as Hm.
  unfold rx_memcpy in Hm. unfold rx_push. simpl length in Hm.
  change (Z.of_nat 1) with 1 in Hm. apply Hm. lia.
Qed.

Lemma to_size_t_room (w : wimod_device) :
  rx_wf w ->
  to_size_t (WIMOD_HCI_PACKET_MAX - rx_len w) = WIMOD_HCI_PACKET_MAX - rx_len w.
Proof.
  intros [_ Hl]. unfold to_size_t. apply Z.mod_small.
  rewrite packet_max in *. split; [lia |].
  assert (611 <= 2 ^ 64) by (vm_compute; discriminate). lia.
Qed.

(** *** One turn of the loop *)

Lemma set_rx_esc_load (b : bool) (w : wimod_device) (pkt : list Z) :
  rx_load (set_rx_esc b w) pkt = set_rx_esc b (rx_load w pkt).
Proof. reflexivity. Qed.

Lemma content_set_rx_esc (b : bool) (w : wimod_device) :
  content (set_rx_esc b w) = content w.
Proof. reflexivity. Qed.

Lemma rx_wf_set_rx_esc (b : bool) (w : wimod_device) :
  rx_wf w -> rx_wf (set_rx_esc b w).
Proof. intros H. exact H. Qed.

Lemma process_packet_rx (w : wimod_device) (data : list Z) (len : Z) :
  let w' := fst (wimod_process_packet kzalloc w data len) in
  serdev w' = serdev w /\ rx_buf w' = rx_buf w /\ rx_len w' = rx_len w /\
  rx_esc w' = rx_esc w.
Proof.
  unfold wimod_process_packet.
  destruct (len <? 4); [simpl; auto |].
  destruct (negb _); [simpl; auto |].
  destruct (dispatch_scan kzalloc (packet_dispatchers w) data len).
  simpl. auto.
Qed.

Lemma step_halt (w : wimod_device) (lit : list Z) (c : Z) :
  rx_wf w -> WIMOD_HCI_PACKET_MAX - rx_len w <= Z.of_nat (length lit) ->
  loop_step kzalloc w lit c = Halt.
Proof.
  intros H Hfull. unfold loop_step. rewrite to_size_t_room by exact H.
  destruct (Z.ltb_spec (Z.of_nat (length lit)) (WIMOD_HCI_PACKET_MAX - rx_len w));
    [lia | reflexivity].
Qed.

Lemma step_scan (w : wimod_device) (lit : list Z) (c : Z) :
  rx_wf w -> rx_esc w = false -> literal c = true ->
  Z.of_nat (length lit) < WIMOD_HCI_PACKET_MAX - rx_len w ->
  loop_step kzalloc w lit c = Scan.
Proof.
  intros H He Hc Hroom. unfold loop_step. rewrite to_size_t_room by exact H.
  destruct (Z.ltb_spec (Z.of_nat (length lit)) (WIMOD_HCI_PACKET_MAX - rx_len w));
    [| lia].
  rewrite He, Hc. reflexivity.
Qed.

Lemma step_escaped (w : wimod_device) (c : Z) :
  rx_wf w -> rx_esc w = true -> rx_len w < WIMOD_HCI_PACKET_MAX ->
  loop_step kzalloc w [] c = Consume (unescaped w c) (unescaped_trace c).
Proof.
  intros H He Hroom. unfold loop_step, unescaped, unescaped_trace.
  rewrite to_size_t_room by exact H. simpl length.
  destruct (Z.ltb_spec (Z.of_nat 0) (WIMOD_HCI_PACKET_MAX - rx_len w));
    [| lia].
  rewrite He.
  destruct (c =? SLIP_ESC_END).
  - rewrite rx_push_load by (try apply rx_wf_set_rx_esc; assumption).
    reflexivity.
  - destruct (c =? SLIP_ESC_ESC); [| reflexivity].
    rewrite rx_push_load by (try apply rx_wf_set_rx_esc; assumption).
    reflexivity.
Qed.

Lemma step_delim (w : wimod_device) (lit : list Z) (c : Z) :
  rx_wf w -> rx_esc w = false -> literal c = false ->
  Z.of_nat (length lit) < WIMOD_HCI_PACKET_MAX - rx_len w ->
  loop_step kzalloc w lit c
  = Consume (fst (delimited kzalloc (rx_load w (content w ++ lit)) c))
            (snd (delimited kzalloc (rx_load w (content w ++ lit)) c)).
Proof.
  intros H He Hc Hroom. unfold loop_step. rewrite to_size_t_room by exact H.
  destruct (Z.ltb_spec (Z.of_nat (length lit)) (WIMOD_HCI_PACKET_MAX - rx_len w));
    [| lia].
  rewrite He, Hc.
  assert (Hcopy : (if 0 <? Z.of_nat (length lit) then rx_memcpy w lit else Some w)
                  = Some (rx_load w (content w ++ lit))).
  { destruct (Z.ltb_spec 0 (Z.of_nat (length lit))).
    - apply rx_memcpy_load; [exact H | lia].
    - destruct lit; [| simpl length in *; lia].
      rewrite app_nil_r, rx_load_content by exact H. reflexivity. }
  rewrite Hcopy. unfold delimited.
  set (w1 := rx_load w (content w ++ lit)).
  destruct ((c =? SLIP_END) && (0 <? rx_len w1)).
  - destruct (wimod_process_packet kzalloc w1 (rx_buf w1) (rx_len w1)). reflexivity.
  - destruct (c =? SLIP_ESC); reflexivity.
Qed.

Lemma rx_wf_unescaped (w : wimod_device) (c : Z) :
  rx_wf w -> rx_len w < WIMOD_HCI_PACKET_MAX -> rx_wf (unescaped w c).
Proof.
  intros H Hroom. pose proof (content_length w H) as Hc.
  pose proof (proj2 H) as Hl.
  unfold unescaped. apply rx_wf_set_rx_esc.
  destruct (c =? SLIP_ESC_END); [| destruct (c =? SLIP_ESC_ESC)]; auto;
    apply rx_load_wf; auto; rewrite length_app, Hc; simpl length; lia.
Qed.

Lemma rx_wf_delimited (w1 : wimod_device) (c : Z) :
  rx_wf w1 -> rx_wf (fst (delimited kzalloc w1 c)).
Proof.
  intros H. unfold delimited.
  destruct ((c =? SLIP_END) && (0 <? rx_len w1)).
  - simpl. destruct (process_packet_rx w1 (rx_buf w1) (rx_len w1)) as (_ & Hb & _).
    destruct H as [Hlen Hl]. unfold rx_wf. cbn [set_rx_len rx_buf rx_len].
    rewrite Hb. split; [exact Hlen | lia].
  - destruct (c =? SLIP_ESC); exact H.
Qed.

Lemma loop_inv_start (w : wimod_device) : rx_wf w -> loop_inv w [].
Proof.
  intros H. unfold loop_inv. split; [exact H |]. split; [constructor |].
  split; [destruct H; simpl length; lia | reflexivity].
Qed.

(** The invariant is kept by every turn, and no turn stores outside the
    buffer. *)
Lemma step_inv (w : wimod_device) (lit : list Z) (c : Z) :
  loop_inv w lit ->
  match loop_step kzalloc w lit c with
  | Halt => WIMOD_HCI_PACKET_MAX - rx_len w <= Z.of_nat (length lit)
  | Scan => loop_inv w (lit ++ [c])
  | Consume w' _ => rx_wf w'
  | Fault => False
  end.
Proof.
  intros (Hwf & Hlit & Hroom & Hesc).
  destruct (Z.lt_ge_cases (Z.of_nat (length lit)) (WIMOD_HCI_PACKET_MAX - rx_len w))
    as [Hlt | Hge].
  - destruct (rx_esc w) eqn:He.
    + rewrite (Hesc eq_refl) in *. simpl length in *.
      rewrite step_escaped by (auto; lia).
      apply rx_wf_unescaped; auto; lia.
    + destruct (literal c) eqn:Hc.
      * rewrite step_scan by auto. unfold loop_inv.
        split; [exact Hwf |]. split; [apply Forall_app; auto |].
        rewrite length_app. simpl length. split; [lia |]. congruence.
      * rewrite step_delim by auto. apply rx_wf_delimited, rx_load_wf; [exact Hwf |].
        rewrite length_app, content_length by exact Hwf. destruct Hwf. lia.
  - rewrite step_halt by auto. exact Hge.
Qed.

(** From a well-formed device the loop always comes to its exit, with the
    device still well-formed. *)
Lemma receive_loop_safe (rest lit : list Z) (w : wimod_device) (len : Z) :
  loop_inv w lit ->
  exists x, receive_loop kzalloc w lit rest len = Some x /\ rx_wf (exit_dev x).
Proof.
  revert lit w len. induction rest as [| c rest IH]; intros lit w len Hinv.
  - eexists. split; [reflexivity |]. apply Hinv.
  - rewrite receive_loop_step. pose proof (step_inv w lit c Hinv) as Hs.
    destruct (loop_step kzalloc w lit c) as [| | w' tr |].
    + eexists. split; [reflexivity |]. apply Hinv.
    + apply IH, Hs.
    + destruct (IH [] w' (len + (Z.of_nat (length lit) + 1)) (loop_inv_start w' Hs))
        as (x & Hx & Hwf).
      rewrite Hx. eexists. split; [reflexivity |]. exact Hwf.
    + contradiction.
Qed.

(** *** Literal bytes passed over are passed over again alike *)

Lemma rescan (lit2 lit1 more : list Z) (w : wimod_device) (len : Z) :
  loop_inv w (lit1 ++ lit2) ->
  receive_loop kzalloc w lit1 (lit2 ++ more) len
  = receive_loop kzalloc w (lit1 ++ lit2) more len.
Proof.
  revert lit1. induction lit2 as [| c l IH]; intros lit1 Hinv.
  - rewrite app_nil_r. reflexivity.
  - destruct Hinv as (Hwf & Hlit & Hroom & Hesc).
    simpl app. rewrite receive_loop_step, step_scan.
    + replace (lit1 ++ c :: l) with ((lit1 ++ [c]) ++ l)
        by (rewrite <- app_assoc; reflexivity).
      apply IH. rewrite <- app_assoc. simpl. unfold loop_inv. auto.
    + exact Hwf.
    + destruct (rx_esc w); [| reflexivity].
      specialize (Hesc eq_refl). destruct lit1; discriminate.
    + apply Forall_app in Hlit. destruct Hlit as [_ Hl].
      inversion Hl; assumption.
    + rewrite length_app in Hroom. simpl length in Hroom. lia.
Qed.

(** *** The count returned and the bytes left *)

Lemma exit_len_data (rest lit : list Z) (w : wimod_device) (len : Z)
    (x : receive_exit) :
  receive_loop kzalloc w lit rest len = Some x ->
  exists consumed,
    lit ++ rest = consumed ++ exit_data x /\
    exit_len x = len + Z.of_nat (length consumed).
Proof.
  revert lit w len x. induction rest as [| c rest IH]; intros lit w len x Hx.
  - simpl in Hx. inversion Hx; subst. exists []. simpl. split; [reflexivity | lia].
  - rewrite receive_loop_step in Hx.
    destruct (loop_step kzalloc w lit c) as [| | w' tr |].
    + inversion Hx; subst. exists []. simpl. split; [reflexivity | lia].
    + apply IH in Hx. destruct Hx as (consumed & Hd & Hl).
      exists consumed. rewrite <- app_assoc in Hd. auto.
    + destruct (receive_loop kzalloc w' [] rest (len + (Z.of_nat (length lit) + 1)))
        as [y |] eqn:Hy; [| discriminate].
      simpl in Hx. inversion Hx; subst. simpl.
      apply IH in Hy. destruct Hy as (consumed & Hd & Hl). simpl in Hd.
      exists (lit ++ c :: consumed). split.
      * rewrite Hd, <- app_assoc. reflexivity.
      * rewrite Hl, length_app. simpl length. lia.
    + discriminate.
Qed.

Lemma exit_data_skipn (data : list Z) (w : wimod_device) (x : receive_exit) :
  receive_loop kzalloc w [] data 0 = Some x ->
  skipn (Z.to_nat (exit_len x)) data = exit_data x /\
  0 <= exit_len x <= Z.of_nat (length data).
Proof.
  intros Hx. apply exit_len_data in Hx. destruct Hx as (consumed & Hd & Hl).
  simpl in Hd. rewrite Hl, Hd. simpl. rewrite Nat2Z.id, length_app. split.
  - rewrite skipn_app, Nat.sub_diag, skipn_all. reflexivity.
  - lia.
Qed.

(** The starting value of [len] only shifts the count returned. *)
Lemma outcome_len (rest lit : list Z) (w : wimod_device) (len len' : Z) :
  outcome (receive_loop kzalloc w lit rest len)
  = outcome (receive_loop kzalloc w lit rest len').
Proof.
  revert lit w len len'. induction rest as [| c rest IH]; intros lit w len len'.
  - reflexivity.
  - rewrite !receive_loop_step.
    destruct (loop_step kzalloc w lit c) as [| | w' tr |].
    + reflexivity.
    + apply IH.
    + specialize (IH [] w' (len + (Z.of_nat (length lit) + 1))
                       (len' + (Z.of_nat (length lit) + 1))).
      destruct (receive_loop kzalloc w' [] rest (len + (Z.of_nat (length lit) + 1)));
        destruct (receive_loop kzalloc w' [] rest (len' + (Z.of_nat (length lit) + 1)));
        simpl in *; congruence.
    + reflexivity.
Qed.

Lemma outcome_emit (tr : list event) (r : option receive_exit) :
  outcome (emit tr r)
  = match outcome r with
    | Some (w, p, tr') => Some (w, p, tr ++ tr')
    | None => None
    end.
Proof. destruct r; reflexivity. Qed.

(** *** Splitting the input *)

Lemma resume_emit (more : list Z) (tr : list event) (r : option receive_exit) :
  resume kzalloc more (emit tr r) = emit tr (resume kzalloc more r).
Proof.
  destruct r as [x |]; simpl; [| reflexivity].
  rewrite emit_emit. reflexivity.
Qed.

(** Running the loop on [d1 ++ d2] is running it on [d1] and then again on
    what that left, followed by [d2]. *)
Lemma receive_loop_split (d1 d2 lit : list Z) (w : wimod_device) (len : Z) :
  loop_inv w lit ->
  receive_loop kzalloc w lit (d1 ++ d2) len
  = resume kzalloc d2 (receive_loop kzalloc w lit d1 len).
Proof.
  revert lit w len. induction d1 as [| c d1 IH]; intros lit w len Hinv.
  - simpl. rewrite emit_nil, app_nil_r.
    rewrite (rescan lit [] d2 w len) by exact Hinv. reflexivity.
  - simpl app. rewrite !receive_loop_step.
    pose proof (step_inv w lit c Hinv) as Hs.
    destruct (loop_step kzalloc w lit c) as [| | w' tr |] eqn:Hstep.
    + simpl. rewrite emit_nil, <- app_assoc. simpl app.
      rewrite (rescan lit [] (c :: d1 ++ d2) w len) by exact Hinv.
      simpl app. rewrite receive_loop_step, Hstep. reflexivity.
    + apply IH, Hs.
    + rewrite resume_emit. f_equal. apply IH, loop_inv_start, Hs.
    + reflexivity.
Qed.

(** What a call leaves unconsumed, a second call leaves unconsumed too. *)
Lemma exit_stuck (rest lit : list Z) (w : wimod_device) (len len0 : Z)
    (x : receive_exit) :
  loop_inv w lit ->
  receive_loop kzalloc w lit rest len = Some x ->
  receive_loop kzalloc (exit_dev x) [] (exit_data x) len0
  = Some (mk_exit len0 (exit_data x) (exit_dev x) []).
Proof.
  revert lit w len x. induction rest as [| c rest IH]; intros lit w len x Hinv Hx.
  - simpl in Hx. inversion Hx; subst. simpl.
    rewrite (rescan lit [] [] w len0) by exact Hinv. reflexivity.
  - rewrite receive_loop_step in Hx.
    pose proof (step_inv w lit c Hinv) as Hs.
    destruct (loop_step kzalloc w lit c) as [| | w' tr |] eqn:Hstep.
    + inversion Hx; subst. simpl.
      rewrite (rescan lit [] (c :: rest) w len0) by exact Hinv.
      simpl app. rewrite receive_loop_step, Hstep. reflexivity.
    + eapply IH; eauto.
    + destruct (receive_loop kzalloc w' [] rest (len + (Z.of_nat (length lit) + 1)))
        as [y |] eqn:Hy; [| discriminate].
      simpl in Hx. inversion Hx; subst. simpl.
      eapply IH; [apply loop_inv_start, Hs | exact Hy].
    + discriminate.
Qed.

(** *** Chunks *)

(** With the unconsumed tail handed over again, the chunks of a stream do
    what the stream does handed over whole. *)
Lemma receive_chunks_whole (chunks : list (list Z)) (w : wimod_device)
    (pending : list Z) :
  rx_wf w ->
  receive_loop kzalloc w [] pending 0 = Some (mk_exit 0 pending w []) ->
  receive_chunks kzalloc w pending chunks
  = outcome (receive_loop kzalloc w [] (pending ++ concat chunks) 0).
Proof.
  revert w pending. induction chunks as [| c cs IH]; intros w pending Hwf Hstuck.
  - simpl. rewrite app_nil_r, Hstuck. reflexivity.
  - simpl. rewrite app_assoc.
    rewrite receive_loop_split by (apply loop_inv_start, Hwf).
    unfold wimod_receive_buf.
    destruct (receive_loop_safe (pending ++ c) [] w 0 (loop_inv_start w Hwf))
      as (x & Hx & Hwfx).
    rewrite Hx. simpl resume.
    destruct (exit_data_skipn _ _ _ Hx) as [Hskip _]. rewrite Hskip.
    rewrite IH.
    + rewrite outcome_emit.
      rewrite (outcome_len (exit_data x ++ concat cs) [] (exit_dev x) (exit_len x) 0).
      reflexivity.
    + exact Hwfx.
    + eapply exit_stuck; [apply loop_inv_start, Hwf | exact Hx].
Qed.

End ReceiveProofs.

(** ** The byte-stuffing codec *)

Section CodecProofs.
Variable kzalloc : Z -> bool.

(** *** Sending *)

Lemma serdev_device_write_ok (sdev : serdev_device) (buf : list Z) :
  writes_succeed sdev ->
  exists sdev',
    serdev_device_write sdev buf = (0, sdev') /\
    tx sdev' = tx sdev ++ buf /\ writes_succeed sdev'.
Proof.
  unfold writes_succeed, serdev_device_write. intros H.
  destruct (write_ret sdev) as [| r rs].
  - eexists. split; [reflexivity |]. simpl. auto.
  - inversion H as [| ? ? Hr Hrs]; subst. simpl.
    eexists. split; [reflexivity |]. simpl. auto.
Qed.

Lemma slip_send_data_loop_ok (rest run : list Z) (sdev : serdev_device) (esc1 : Z) :
  writes_succeed sdev ->
  exists sdev',
    slip_send_data_loop sdev esc1 run rest = (0, sdev') /\
    tx sdev' = tx sdev ++ run ++ slip_encode rest /\ writes_succeed sdev'.
Proof.
  revert run sdev esc1. induction rest as [| c rest IH]; intros run sdev esc1 H.
  - simpl. destruct (serdev_device_write_ok sdev run H) as (s & Hs & Htx & Hok).
    exists s. rewrite app_nil_r. auto.
  - simpl slip_send_data_loop. unfold slip_encode. simpl flat_map.
    fold (slip_encode rest). unfold slip_escape.
    destruct (c =? SLIP_END) eqn:Eend; simpl negb; simpl andb.
    + destruct (serdev_device_write_ok sdev run H) as (s1 & Hs1 & Htx1 & Hok1).
      rewrite Hs1. simpl.
      destruct (serdev_device_write_ok s1 [SLIP_ESC; SLIP_ESC_END] Hok1)
        as (s2 & Hs2 & Htx2 & Hok2).
      rewrite Hs2. simpl.
      destruct (IH [] s2 SLIP_ESC_END Hok2) as (s3 & Hs3 & Htx3 & Hok3).
      exists s3. split; [exact Hs3 |]. split; [| exact Hok3].
      rewrite Htx3, Htx2, Htx1. rewrite <- !app_assoc. reflexivity.
    + destruct (c =? SLIP_ESC) eqn:Eesc; simpl negb.
      * destruct (serdev_device_write_ok sdev run H) as (s1 & Hs1 & Htx1 & Hok1).
        rewrite Hs1. simpl.
        destruct (serdev_device_write_ok s1 [SLIP_ESC; SLIP_ESC_ESC] Hok1)
          as (s2 & Hs2 & Htx2 & Hok2).
        rewrite Hs2. simpl.
        destruct (IH [] s2 SLIP_ESC_ESC Hok2) as (s3 & Hs3 & Htx3 & Hok3).
        exists s3. split; [exact Hs3 |]. split; [| exact Hok3].
        rewrite Htx3, Htx2, Htx1. rewrite <- !app_assoc. reflexivity.
      * destruct (IH (run ++ [c]) sdev esc1 H) as (s & Hs & Htx & Hok).
        exists s. split; [exact Hs |]. split; [| exact Hok].
        rewrite Htx, <- !app_assoc. reflexivity.
Qed.

Lemma slip_send_data_ok (sdev : serdev_device) (buf : list Z) :
  writes_succeed sdev ->
  exists sdev',
    slip_send_data sdev buf (Z.of_nat (length buf)) = (0, sdev') /\
    tx sdev' = tx sdev ++ slip_encode buf /\ writes_succeed sdev'.
Proof.
  intros H. unfold slip_send_data. rewrite Nat2Z.id, firstn_all.
  apply (slip_send_data_loop_ok buf [] sdev 0 H).
Qed.

Lemma slip_encode_app (a b : list Z) :
  slip_encode (a ++ b) = slip_encode a ++ slip_encode b.
Proof. apply flat_map_app. Qed.

(** With every write succeeding, [wimod_hci_send] puts on the wire an END,
    the escaped frame with its checksum, and an END. *)
Lemma wimod_hci_send_ok (sdev : serdev_device) (dst msg : Z) (payload : list Z) :
  writes_succeed sdev ->
  exists sdev',
    wimod_hci_send sdev dst msg payload (Z.of_nat (length payload)) = (0, sdev') /\
    tx sdev' = tx sdev ++ SLIP_END :: slip_encode (hci_frame dst msg payload)
                 ++ [SLIP_END] /\
    writes_succeed sdev'.
Proof.
  intros H. unfold wimod_hci_send, slip_send_end.
  destruct (serdev_device_write_ok sdev [SLIP_END] H) as (s1 & E1 & T1 & H1).
  rewrite E1. simpl negb. cbv iota.
  destruct (slip_send_data_ok s1 [dst] H1) as (s2 & E2 & T2 & H2).
  simpl length in E2. change (Z.of_nat 1) with 1 in E2. rewrite E2. simpl negb. cbv iota.
  destruct (slip_send_data_ok s2 [msg] H2) as (s3 & E3 & T3 & H3).
  simpl length in E3. change (Z.of_nat 1) with 1 in E3. rewrite E3. simpl negb. cbv iota.
  assert (Hp : exists s4,
    (if 0 <? Z.of_nat (length payload)
     then slip_send_data s3 payload (Z.of_nat (length payload))
     else (0, s3)) = (0, s4) /\
    tx s4 = tx s3 ++ slip_encode payload /\ writes_succeed s4).
  { destruct (Z.ltb_spec 0 (Z.of_nat (length payload))).
    - apply slip_send_data_ok, H3.
    - destruct payload; [| simpl length in *; lia].
      exists s3. simpl. rewrite app_nil_r. auto. }
  destruct Hp as (s4 & E4 & T4 & H4). rewrite E4. simpl negb. cbv iota.
  destruct (slip_send_data_ok s4
              (le16_bytes (hci_fcs dst msg payload (Z.of_nat (length payload)))) H4)
    as (s5 & E5 & T5 & H5).
  simpl length in E5. change (Z.of_nat 2) with 2 in E5. rewrite E5. simpl negb. cbv iota.
  destruct (serdev_device_write_ok s5 [SLIP_END] H5) as (s6 & E6 & T6 & H6).
  rewrite E6. simpl negb. cbv iota.
  exists s6. split; [reflexivity |]. split; [| exact H6].
  rewrite T6, T5, T4, T3, T2, T1. unfold hci_frame.
  change (dst :: msg :: payload ++ ?x) with ([dst] ++ [msg] ++ payload ++ x).
  rewrite !slip_encode_app, <- !app_assoc. reflexivity.
Qed.

(** *** Receiving what was sent *)

Lemma literal_false_cases (c : Z) : literal c = false -> c = SLIP_END \/ c = SLIP_ESC.
Proof.
  unfold literal. destruct (Z.eqb_spec c SLIP_END); [auto |].
  destruct (Z.eqb_spec c SLIP_ESC); [auto | discriminate].
Qed.

Lemma rx_esc_rx_load (w : wimod_device) (pkt : list Z) :
  rx_esc (rx_load w pkt) = rx_esc w.
Proof. reflexivity. Qed.

Lemma set_rx_esc_same (w : wimod_device) (b : bool) :
  rx_esc w = b -> set_rx_esc b w = w.
Proof. intros <-. destruct w; reflexivity. Qed.

(** An escaped byte, met outside an escape, ends up in the buffer after the
    literal run before it. *)
Lemma receive_escaped (w : wimod_device) (lit rest : list Z) (c len : Z) :
  rx_wf w -> rx_esc w = false -> literal c = false ->
  rx_len w + Z.of_nat (length lit) < WIMOD_HCI_PACKET_MAX ->
  receive_loop kzalloc w lit (slip_escape c ++ rest) len
  = receive_loop kzalloc (rx_load w (content w ++ lit ++ [c])) [] rest
      (len + (Z.of_nat (length lit) + 2)).
Proof.
  intros Hwf Hesc Hc Hroom.
  pose proof (content_length w Hwf) as Hcl. pose proof (proj2 Hwf) as Hl.
  set (w1 := rx_load w (content w ++ lit)).
  assert (Hwf1 : rx_wf w1).
  { apply rx_load_wf; [exact Hwf |]. rewrite length_app, Hcl. lia. }
  assert (Hlen1 : rx_len w1 = rx_len w + Z.of_nat (length lit)).
  { unfold w1. rewrite rx_load_len, length_app, Hcl. lia. }
  assert (Hstart : receive_loop kzalloc w lit (SLIP_ESC :: slip_escape_code c :: rest) len
                   = receive_loop kzalloc (unescaped (set_rx_esc true w1) (slip_escape_code c))
                       [] rest (len + (Z.of_nat (length lit) + 2))).
  { rewrite receive_loop_step, step_delim by (auto; lia).
    fold w1. unfold delimited. change (SLIP_ESC =? SLIP_END) with false.
    change (SLIP_ESC =? SLIP_ESC) with true. cbn [andb fst snd].
    rewrite emit_nil, receive_loop_step, step_escaped.
    - assert (Ht : unescaped_trace (slip_escape_code c) = []).
      { unfold slip_escape_code, unescaped_trace.
        destruct (c =? SLIP_END); reflexivity. }
      rewrite Ht, emit_nil. f_equal. simpl length. lia.
    - apply rx_wf_set_rx_esc, Hwf1.
    - reflexivity.
    - change (rx_len (set_rx_esc true w1)) with (rx_len w1). lia. }
  assert (Hun : unescaped (set_rx_esc true w1) (slip_escape_code c)
                = rx_load w (content w ++ lit ++ [c])).
  { assert (Hbyte : (if slip_escape_code c =? SLIP_ESC_END
                     then rx_load (set_rx_esc true w1)
                            (content (set_rx_esc true w1) ++ [SLIP_END])
                     else if slip_escape_code c =? SLIP_ESC_ESC
                     then rx_load (set_rx_esc true w1)
                            (content (set_rx_esc true w1) ++ [SLIP_ESC])
                     else set_rx_esc true w1)
                    = rx_load (set_rx_esc true w1) (content w1 ++ [c])).
    { unfold slip_escape_code.
      destruct (literal_false_cases c Hc) as [-> | ->]; reflexivity. }
    unfold unescaped. rewrite Hbyte.
    rewrite set_rx_esc_load. change (set_rx_esc false (set_rx_esc true ?x))
      with (set_rx_esc false x).
    rewrite set_rx_esc_same by (rewrite !rx_esc_rx_load; exact Hesc).
    unfold w1. rewrite content_rx_load, rx_load_load.
    - rewrite <- app_assoc. reflexivity.
    - rewrite !length_app. lia.
    - exact Hwf.
    - rewrite length_app, Hcl. lia. }
  rewrite <- Hun, <- Hstart. unfold slip_escape, slip_escape_code.
  destruct (literal_false_cases c Hc) as [-> | ->]; reflexivity.
Qed.

(** A frame body in escaped form followed by an END: the END finds the
    accumulated bytes, the literal run and the body in the buffer. *)
Lemma receive_body (body lit more : list Z) (w : wimod_device) (len : Z) :
  rx_wf w -> rx_esc w = false ->
  rx_len w + Z.of_nat (length lit) + Z.of_nat (length body) < WIMOD_HCI_PACKET_MAX ->
  receive_loop kzalloc w lit (slip_encode body ++ SLIP_END :: more) len
  = emit (snd (delimited kzalloc (rx_load w (content w ++ lit ++ body)) SLIP_END))
      (receive_loop kzalloc
         (fst (delimited kzalloc (rx_load w (content w ++ lit ++ body)) SLIP_END))
         [] more
         (len + (Z.of_nat (length lit) + Z.of_nat (length (slip_encode body)) + 1))).
Proof.
  revert lit w len. induction body as [| c body IH]; intros lit w len Hwf Hesc Hroom.
  - simpl app. rewrite app_nil_r.
    rewrite receive_loop_step, step_delim by (auto; simpl length in *; lia).
    f_equal. f_equal. simpl length. lia.
  - pose proof (content_length w Hwf) as Hcl. pose proof (proj2 Hwf) as Hl.
    simpl length in Hroom.
    unfold slip_encode. simpl flat_map. fold (slip_encode body).
    rewrite <- app_assoc, length_app.
    destruct (literal c) eqn:Hc.
    + assert (He : slip_escape c = [c]).
      { unfold slip_escape, literal in *.
        destruct (c =? SLIP_END); [discriminate |].
        destruct (c =? SLIP_ESC); [discriminate | reflexivity]. }
      rewrite He. simpl app.
      rewrite receive_loop_step, step_scan by (auto; lia).
      rewrite IH by (auto; rewrite length_app; simpl length; lia).
      rewrite <- !app_assoc. simpl app.
      f_equal. f_equal. rewrite length_app. simpl length. lia.
    + rewrite receive_escaped by (auto; lia).
      assert (Hlen2 : length (content w ++ lit ++ [c])
                      = (Z.to_nat (rx_len w) + length lit + 1)%nat).
      { rewrite !length_app, Hcl. simpl length. lia. }
      rewrite IH.
      * rewrite content_rx_load. simpl app. rewrite rx_load_load.
        -- rewrite <- !app_assoc. simpl app. f_equal. f_equal.
           assert (Hel : length (slip_escape c) = 2%nat).
           { unfold slip_escape.
             destruct (literal_false_cases c Hc) as [-> | ->]; reflexivity. }
           rewrite Hel. simpl length. lia.
        -- rewrite !length_app. simpl length. lia.
        -- exact Hwf.
        -- rewrite Hlen2. lia.
      * apply rx_load_wf; [exact Hwf |]. rewrite Hlen2. lia.
      * rewrite rx_esc_rx_load. exact Hesc.
      * rewrite rx_load_len, Hlen2. simpl length. lia.
Qed.

Lemma content_empty (w : wimod_device) : rx_len w = 0 -> content w = [].
Proof. intros H. unfold content. rewrite H. reflexivity. Qed.

(** One frame between two ENDs, met with the buffer empty: the whole input
    is consumed and [wimod_process_packet] is entered once, on the frame. *)
Lemma receive_frame (frame : list Z) (w : wimod_device) :
  rx_wf w -> rx_len w = 0 -> rx_esc w = false ->
  frame <> [] -> Z.of_nat (length frame) < WIMOD_HCI_PACKET_MAX ->
  receive_loop kzalloc w [] (SLIP_END :: slip_encode frame ++ [SLIP_END]) 0
  = Some (mk_exit
            (Z.of_nat (length (SLIP_END :: slip_encode frame ++ [SLIP_END])))
            []
            (set_rx_len 0
               (fst (wimod_process_packet kzalloc (rx_load w frame)
                       (rx_buf (rx_load w frame)) (Z.of_nat (length frame)))))
            (snd (wimod_process_packet kzalloc (rx_load w frame)
                    (rx_buf (rx_load w frame)) (Z.of_nat (length frame))))).
Proof.
  intros Hwf Hlen Hesc Hne Hfit.
  pose proof (content_empty w Hlen) as Hc.
  rewrite receive_loop_step, step_delim; try assumption; try reflexivity.
  - rewrite app_nil_r, rx_load_content by exact Hwf.
    unfold delimited at 1 2. rewrite Hlen.
    change (SLIP_END =? SLIP_END) with true. change (0 <? 0) with false.
    change (SLIP_END =? SLIP_ESC) with false. cbn [andb fst snd].
    rewrite emit_nil.
    rewrite receive_body by (try assumption; rewrite Hlen; simpl length; lia).
    rewrite Hc. simpl app. unfold delimited.
    change (SLIP_END =? SLIP_END) with true. rewrite rx_load_len.
    assert (Hpos : (0 <? Z.of_nat (length frame)) = true).
    { apply Z.ltb_lt. destruct frame; [contradiction | simpl length; lia]. }
    rewrite Hpos.
    cbn [andb fst snd receive_loop emit exit_len exit_data exit_dev exit_trace app].
    rewrite app_nil_r. f_equal. f_equal.
    cbn [length]. rewrite length_app. cbn [length]. lia.
  - rewrite Hlen, packet_max. simpl length. lia.
Qed.

Lemma processed_dispatch_scan (es : list dispatcher_entry) (data : list Z) (len : Z) :
  processed (snd (dispatch_scan kzalloc es data len)) = [].
Proof.
  induction es as [| [a d] es IH]; simpl.
  - reflexivity.
  - destruct ((dst_id (disp d) =? nth 0 data 0) && (msg_id (disp d) =? nth 1 data 0)).
    + reflexivity.
    + destruct (dispatch_scan kzalloc es data len). simpl in *. exact IH.
Qed.

Lemma rx_load_buf_firstn (w : wimod_device) (frame : list Z) :
  firstn (length frame) (rx_buf (rx_load w frame)) = frame.
Proof.
  unfold rx_load. cbn [set_rx rx_buf].
  rewrite firstn_app, Nat.sub_diag, firstn_all. simpl. apply app_nil_r.
Qed.

Lemma hci_frame_length (dst msg : Z) (payload : list Z) :
  length (hci_frame dst msg payload) = (length payload + 4)%nat.
Proof. unfold hci_frame. simpl length. rewrite length_app. simpl length. lia. Qed.

(** The frame [wimod_hci_send] builds, received from an empty buffer. *)
Lemma receive_hci_frame (w : wimod_device) (dst msg : Z) (payload : list Z) :
  rx_wf w -> rx_len w = 0 -> rx_esc w = false ->
  Z.of_nat (length payload) <= WIMOD_HCI_PAYLOAD_MAX ->
  let frame := hci_frame dst msg payload in
  let stream := SLIP_END :: slip_encode frame ++ [SLIP_END] in
  exists w' tr,
    receive_loop kzalloc w [] stream 0
    = Some (mk_exit (Z.of_nat (length stream)) [] w' tr) /\
    processed tr = [frame] /\
    rx_len w' = 0 /\ rx_esc w' = false /\
    firstn (length frame) (rx_buf w') = frame /\
    serdev w' = serdev w /\
    (w', tr) =
      (set_rx_len 0
         (set_packet_dispatchers
            (fst (dispatch_scan kzalloc (packet_dispatchers w)
                    (rx_buf (rx_load w frame)) (Z.of_nat (length frame))))
            (rx_load w frame)),
       Processing frame
         :: snd (dispatch_scan kzalloc (packet_dispatchers w)
                   (rx_buf (rx_load w frame)) (Z.of_nat (length frame)))).
Proof.
  intros Hwf Hlen Hesc Hmax frame stream.
  assert (Hfl : length frame = (length payload + 4)%nat)
    by apply hci_frame_length.
  assert (Hne : frame <> []).
  { intros E. rewrite E in Hfl. simpl in Hfl. lia. }
  assert (Hfit : Z.of_nat (length frame) < WIMOD_HCI_PACKET_MAX).
  { rewrite Hfl, packet_max. unfold WIMOD_HCI_PAYLOAD_MAX in Hmax. lia. }
  assert (Hfirst : firstn (Z.to_nat (Z.of_nat (length frame)))
                      (rx_buf (rx_load w frame)) = frame).
  { rewrite Nat2Z.id. apply rx_load_buf_firstn. }
  assert (Hres : CRCFacts.residual
                   (firstn (Z.to_nat (Z.of_nat (length frame)))
                      (rx_buf (rx_load w frame))) = 3911).
  { rewrite Hfirst. apply CRCProofs.residual_hci_frame. }
  pose proof (receive_frame frame w Hwf Hlen Hesc Hne Hfit) as Hrx.
  rewrite process_packet_valid in Hrx by (try exact Hres; rewrite Hfl; lia).
  cbn [fst snd] in Hrx. rewrite Hfirst in Hrx.
  eexists. eexists. split; [exact Hrx |].
  split; [simpl; rewrite processed_dispatch_scan; reflexivity |].
  split; [reflexivity |]. split; [exact Hesc |].
  split; [apply rx_load_buf_firstn |]. split; reflexivity.
Qed.

End CodecProofs.

(** C1. Round trip.  A frame with a payload of at most 300 bytes, sent by
    [wimod_hci_send] over a transport whose writes all succeed, and the bytes
    it put on the wire handed to [wimod_receive_buf] with the receive buffer
    empty and no escape pending: all of them are consumed,
    [wimod_process_packet] is entered exactly once, on the bytes of the
    frame (header, payload, checksum), which are also what the buffer then
    starts with, and the buffer is empty again.  Payload bytes equal to END
    or ESC are not special-cased. *)
Theorem round_trip (kzalloc : Z -> bool) (sdev : serdev_device)
    (wmdev : wimod_device) (dst msg : Z) (payload : list Z) :
  writes_succeed sdev ->
  rx_wf wmdev -> rx_len wmdev = 0 -> rx_esc wmdev = false ->
  Z.of_nat (length payload) <= WIMOD_HCI_PAYLOAD_MAX ->
  exists sdev' stream wmdev' tr,
    wimod_hci_send sdev dst msg payload (Z.of_nat (length payload)) = (0, sdev') /\
    tx sdev' = tx sdev ++ stream /\
    wimod_receive_buf kzalloc wmdev stream
    = Some (Z.of_nat (length stream), wmdev', tr) /\
    processed tr = [hci_frame dst msg payload] /\
    firstn (length (hci_frame dst msg payload)) (rx_buf wmdev')
    = hci_frame dst msg payload /\
    rx_len wmdev' = 0 /\ rx_esc wmdev' = false.
Proof.
  intros Hw Hwf Hlen Hesc Hmax.
  destruct (wimod_hci_send_ok sdev dst msg payload Hw) as (sdev' & Hs & Htx & _).
  destruct (receive_hci_frame kzalloc wmdev dst msg payload Hwf Hlen Hesc Hmax)
    as (w' & tr & Hrx & Hp & Hl & He & Hb & _).
  exists sdev', (SLIP_END :: slip_encode (hci_frame dst msg payload) ++ [SLIP_END]),
    w', tr.
  split; [exact Hs |]. split; [exact Htx |].
  split; [unfold wimod_receive_buf; rewrite Hrx; reflexivity |].
  auto.
Qed.

Lemma round_trip_witness :
  exists sdev' stream wmdev' tr,
    wimod_hci_send (mk_serdev [] []) 1 2 [0; 192; 219] 3 = (0, sdev') /\
    tx sdev' = [] ++ stream /\
    wimod_receive_buf (fun _ => true) (wimod_device_init (mk_serdev [] [])) stream
    = Some (Z.of_nat (length stream), wmdev', tr) /\
    processed tr = [hci_frame 1 2 [0; 192; 219]] /\
    firstn (length (hci_frame 1 2 [0; 192; 219])) (rx_buf wmdev')
    = hci_frame 1 2 [0; 192; 219] /\
    rx_len wmdev' = 0 /\ rx_esc wmdev' = false.
Proof.
  apply (round_trip (fun _ => true) (mk_serdev [] [])
           (wimod_device_init (mk_serdev [] [])) 1 2 [0; 192; 219]).
  - constructor.
  - split; [reflexivity | vm_compute; split; discriminate].
  - reflexivity.
  - reflexivity.
  - vm_compute. discriminate.
Defined.

(** C3 as stated fails: a literal run that reaches the end of a chunk is
    not consumed by that call, so with each chunk handed over once the bytes
    of the run are lost.  Here the ping request is cut after its second
    byte. *)
Lemma chunk_boundary_independence_counterexample :
  let wmdev := wimod_device_init (mk_serdev [] []) in
  let stream := tx (snd (wimod_hci_send (mk_serdev [] []) 1 1 [] 0)) in
  let chunks := [[192; 1]; [1; 22; 7; 192]] in
  concat chunks = stream /\
  option_map (fun r => processed (snd r))
    (wimod_receive_buf (fun _ => true) wmdev stream)
  = Some [hci_frame 1 1 []] /\
  option_map (fun r => processed (snd r))
    (receive_each_once (fun _ => true) wmdev chunks)
  = Some [[1; 22; 7]].
Proof. vm_compute. repeat split. Qed.

(** C3, amended.  The bytes [wimod_hci_send] puts on the wire for a frame,
    cut into chunks in any way and handed to [wimod_receive_buf] in order,
    each call being given again, in front of its chunk, the bytes the call
    before it did not consume (its return value says how many it did): the
    device ends as it does when the stream is handed over whole, with the
    same trace, in which [wimod_process_packet] is entered once, on the
    frame, and no byte is left unconsumed. *)
Theorem chunk_boundary_independence (kzalloc : Z -> bool) (sdev : serdev_device)
    (wmdev : wimod_device) (dst msg : Z) (payload : list Z)
    (chunks : list (list Z)) :
  writes_succeed sdev -> tx sdev = [] ->
  rx_wf wmdev -> rx_len wmdev = 0 -> rx_esc wmdev = false ->
  Z.of_nat (length payload) <= WIMOD_HCI_PAYLOAD_MAX ->
  concat chunks
  = tx (snd (wimod_hci_send sdev dst msg payload (Z.of_nat (length payload)))) ->
  exists wmdev' tr,
    wimod_receive_buf kzalloc wmdev (concat chunks)
    = Some (Z.of_nat (length (concat chunks)), wmdev', tr) /\
    receive_chunks kzalloc wmdev [] chunks = Some (wmdev', [], tr) /\
    processed tr = [hci_frame dst msg payload].
Proof.
  intros Hw Htx0 Hwf Hlen Hesc Hmax Hcat.
  destruct (wimod_hci_send_ok sdev dst msg payload Hw) as (sdev' & Hs & Htx & _).
  rewrite Hs in Hcat. cbn [snd] in Hcat. rewrite Htx, Htx0 in Hcat.
  change ([] ++ ?x) with x in Hcat.
  destruct (receive_hci_frame kzalloc wmdev dst msg payload Hwf Hlen Hesc Hmax)
    as (w' & tr & Hrx & Hp & _).
  exists w', tr. rewrite Hcat.
  split; [unfold wimod_receive_buf; rewrite Hrx; reflexivity |].
  split; [| exact Hp].
  rewrite receive_chunks_whole by (auto; reflexivity).
  change ([] ++ concat chunks) with (concat chunks).
  rewrite Hcat, Hrx. reflexivity.
Qed.

Lemma chunk_boundary_independence_witness :
  exists wmdev' tr,
    receive_chunks (fun _ => true) (wimod_device_init (mk_serdev [] [])) []
      [[192; 1]; [1; 22; 7; 192]] = Some (wmdev', [], tr) /\
    processed tr = [hci_frame 1 1 []].
Proof.
  destruct (chunk_boundary_independence (fun _ => true) (mk_serdev [] [])
              (wimod_device_init (mk_serdev [] [])) 1 1 []
              [[192; 1]; [1; 22; 7; 192]])
    as (w & tr & _ & Hchunks & Hp).
  - constructor.
  - reflexivity.
  - split; [reflexivity | vm_compute; split; discriminate].
  - reflexivity.
  - reflexivity.
  - vm_compute. discriminate.
  - vm_compute. reflexivity.
  - exists w, tr. split; [exact Hchunks | exact Hp].
Defined.

(** ** Buffer bounds and discarded packets *)

Section BoundsProofs.
Variable kzalloc : Z -> bool.

Lemma receive_each_once_safe (chunks : list (list Z)) (w : wimod_device) :
  rx_wf w ->
  exists w' tr, receive_each_once kzalloc w chunks = Some (w', tr) /\ rx_wf w'.
Proof.
  revert w. induction chunks as [| c cs IH]; intros w Hwf.
  - exists w, []. split; [reflexivity | exact Hwf].
  - simpl. unfold wimod_receive_buf.
    destruct (receive_loop_safe kzalloc c [] w 0 (loop_inv_start w Hwf))
      as (x & Hx & Hwfx).
    rewrite Hx. destruct (IH (exit_dev x) Hwfx) as (w' & tr & Hr & Hwf').
    rewrite Hr. eexists. eexists. split; [reflexivity | exact Hwf'].
Qed.

Lemma processed_app (tr tr' : list event) :
  processed (tr ++ tr') = processed tr ++ processed tr'.
Proof.
  induction tr as [| e tr IH]; simpl; [reflexivity |].
  destruct e; simpl; rewrite IH; reflexivity.
Qed.

Lemma processed_process_packet (w : wimod_device) (data : list Z) (len : Z) :
  processed (snd (wimod_process_packet kzalloc w data len))
  = [firstn (Z.to_nat len) data].
Proof.
  unfold wimod_process_packet.
  destruct (len <? 4); [reflexivity |].
  destruct (negb _); [reflexivity |].
  pose proof (processed_dispatch_scan kzalloc (packet_dispatchers w) data len) as H.
  destruct (dispatch_scan kzalloc (packet_dispatchers w) data len).
  simpl in *. rewrite H. reflexivity.
Qed.

(** [wimod_process_packet] is never entered on an empty packet. *)
Lemma processed_nonempty (rest lit : list Z) (w : wimod_device) (len : Z)
    (x : receive_exit) :
  loop_inv w lit ->
  receive_loop kzalloc w lit rest len = Some x ->
  ~ In [] (processed (exit_trace x)).
Proof.
  revert lit w len x. induction rest as [| c rest IH]; intros lit w len x Hinv Hx.
  - simpl in Hx. inversion Hx; subst. simpl. auto.
  - rewrite receive_loop_step in Hx.
    pose proof (step_inv kzalloc w lit c Hinv) as Hs.
    destruct (loop_step kzalloc w lit c) as [| | w' tr |] eqn:Hstep.
    + inversion Hx; subst. simpl. auto.
    + eapply IH; eauto.
    + destruct (receive_loop kzalloc w' [] rest (len + (Z.of_nat (length lit) + 1)))
        as [y |] eqn:Hy; [| discriminate].
      simpl in Hx. inversion Hx; subst. cbn [exit_trace].
      rewrite processed_app. intros Hin. apply in_app_or in Hin.
      destruct Hin as [Hin | Hin].
      * destruct Hinv as (Hwf & Hlit & Hroom & Hesc).
        destruct (Z.lt_ge_cases (Z.of_nat (length lit))
                    (WIMOD_HCI_PACKET_MAX - rx_len w)) as [Hlt | Hge];
          [| rewrite step_halt in Hstep by auto; discriminate].
        destruct (rx_esc w) eqn:He.
        -- rewrite (Hesc eq_refl) in *.
           rewrite step_escaped in Hstep by (auto; simpl length in *; lia).
           inversion Hstep; subst. unfold unescaped_trace in Hin.
           destruct (c =? SLIP_ESC_END); [contradiction |].
           destruct (c =? SLIP_ESC_ESC); contradiction.
        -- destruct (literal c) eqn:Hc;
             [rewrite step_scan in Hstep by auto; discriminate |].
           rewrite step_delim in Hstep by auto. inversion Hstep; subst.
           unfold delimited in Hin.
           set (w1 := rx_load w (content w ++ lit)) in *.
           assert (Hwf1 : rx_wf w1).
           { apply rx_load_wf; [exact Hwf |].
             rewrite length_app, content_length by exact Hwf.
             destruct Hwf. lia. }
           destruct ((c =? SLIP_END) && (0 <? rx_len w1)) eqn:Hend.
           ++ cbn [snd] in Hin. rewrite processed_process_packet in Hin.
              destruct Hin as [Hin | []].
              apply andb_prop in Hend. destruct Hend as [_ Hpos].
              apply Z.ltb_lt in Hpos.
              apply (f_equal (@length Z)) in Hin.
              fold (content w1) in Hin.
              rewrite content_length in Hin by exact Hwf1. cbn [length] in Hin. lia.
           ++ destruct (c =? SLIP_ESC); contradiction.
      * revert Hin. eapply IH; [apply loop_inv_start, Hs | exact Hy].
    + discriminate.
Qed.

End BoundsProofs.

(** C10 as stated fails on the figure: the buffer holds 610 bytes, not 608,
    and the loop fills it to the last one.  After 609 literal bytes and an
    escaped END the fill length is 610 and the END sits at index 609. *)
Lemma receive_buffer_bounds_counterexample :
  let data := repeat 0 609 ++ [SLIP_ESC; SLIP_ESC_END] in
  exists n wmdev tr,
    wimod_receive_buf (fun _ => true) (wimod_device_init (mk_serdev [] [])) data
    = Some (n, wmdev, tr) /\
    rx_len wmdev = 610 /\ 608 < rx_len wmdev /\
    nth 609 (rx_buf wmdev) 0 = SLIP_END.
Proof.
  eexists. eexists. eexists. split; [vm_compute; reflexivity |].
  split; [reflexivity |]. split; [reflexivity | reflexivity].
Qed.

(** C10, amended.  [WIMOD_HCI_PACKET_MAX] is 610.  From the device as
    [wimod_probe] sets it up, whatever the dispatcher list and whatever
    the chunks handed to [wimod_receive_buf] one call after the other, no
    call stores outside [rx_buf] (a store succeeds exactly when all of it
    lies inside the array, and every call comes back with a result), the
    buffer keeps its 610 bytes and the fill length stays within 0 .. 610. *)
Theorem receive_buffer_bounds (kzalloc : Z -> bool) (sdev : serdev_device)
    (es : list dispatcher_entry) (chunks : list (list Z)) :
  WIMOD_HCI_PACKET_MAX = 610 /\
  (forall buf idx src,
      store buf idx src <> None
      <-> 0 <= idx /\ idx + Z.of_nat (length src) <= Z.of_nat (length buf)) /\
  exists wmdev tr,
    receive_each_once kzalloc
      (set_packet_dispatchers es (wimod_device_init sdev)) chunks
    = Some (wmdev, tr) /\
    length (rx_buf wmdev) = Z.to_nat WIMOD_HCI_PACKET_MAX /\
    0 <= rx_len wmdev <= WIMOD_HCI_PACKET_MAX.
Proof.
  split; [reflexivity |]. split; [intros; apply store_in_bounds |].
  destruct (receive_each_once_safe kzalloc chunks
              (set_packet_dispatchers es (wimod_device_init sdev)))
    as (w & tr & Hr & Hb & Hl).
  - exact (rx_wf_init sdev).
  - exists w, tr. auto.
Qed.

Lemma receive_buffer_bounds_witness :
  exists wmdev tr,
    receive_each_once (fun _ => true)
      (set_packet_dispatchers [] (wimod_device_init (mk_serdev [] [])))
      [repeat 0 609 ++ [SLIP_ESC; SLIP_ESC_END]; [1; 2; SLIP_END]]
    = Some (wmdev, tr) /\
    length (rx_buf wmdev) = Z.to_nat WIMOD_HCI_PACKET_MAX /\
    0 <= rx_len wmdev <= WIMOD_HCI_PACKET_MAX.
Proof.
  exact (proj2 (proj2 (receive_buffer_bounds (fun _ => true) (mk_serdev [] []) []
           [repeat 0 609 ++ [SLIP_ESC; SLIP_ESC_END]; [1; 2; SLIP_END]]))).
Defined.

(** C7. Invalid packets are dropped without a trace outside the log.  An
    END met with nothing accumulated is consumed and nothing else happens,
    so [wimod_process_packet] is never entered on an empty packet.  A packet
    shorter than 4 bytes, or one whose complemented CRC is not 0x0f47,
    leaves the device as it was and calls no handler.  Received between two
    ENDs, such a packet is consumed like any other: the call returns the
    count of bytes, the fill length is back to 0 and the dispatcher list
    and the transport are untouched. *)
Theorem invalid_frames_discarded (kzalloc : Z -> bool) :
  (forall wmdev rest len,
      rx_wf wmdev -> rx_len wmdev = 0 -> rx_esc wmdev = false ->
      receive_loop kzalloc wmdev [] (SLIP_END :: rest) len
      = receive_loop kzalloc wmdev [] rest (len + 1)) /\
  (forall wmdev data n wmdev' tr,
      rx_wf wmdev ->
      wimod_receive_buf kzalloc wmdev data = Some (n, wmdev', tr) ->
      ~ In [] (processed tr)) /\
  (forall wmdev data len,
      len < 4 \/ CRCFacts.residual (firstn (Z.to_nat len) data) <> 3911 ->
      fst (wimod_process_packet kzalloc wmdev data len) = wmdev /\
      dispatches (snd (wimod_process_packet kzalloc wmdev data len)) = []) /\
  (forall wmdev pkt,
      rx_wf wmdev -> rx_len wmdev = 0 -> rx_esc wmdev = false ->
      pkt <> [] -> Z.of_nat (length pkt) < WIMOD_HCI_PACKET_MAX ->
      Z.of_nat (length pkt) < 4 \/ CRCFacts.residual pkt <> 3911 ->
      exists wmdev' tr,
        wimod_receive_buf kzalloc wmdev (SLIP_END :: slip_encode pkt ++ [SLIP_END])
        = Some (Z.of_nat (length (SLIP_END :: slip_encode pkt ++ [SLIP_END])),
                wmdev', tr) /\
        processed tr = [pkt] /\ dispatches tr = [] /\
        rx_len wmdev' = 0 /\ rx_esc wmdev' = false /\
        packet_dispatchers wmdev' = packet_dispatchers wmdev /\
        serdev wmdev' = serdev wmdev).
Proof.
  assert (Hdrop : forall wmdev data len,
             len < 4 \/ CRCFacts.residual (firstn (Z.to_nat len) data) <> 3911 ->
             wimod_process_packet kzalloc wmdev data len
             = (wmdev, [Processing (firstn (Z.to_nat len) data);
                        if len <? 4 then Discard_length len else Discard_checksum])).
  { intros w data len H. destruct (Z.ltb_spec len 4) as [Hlt | Hge].
    - apply process_packet_short, Hlt.
    - destruct H as [H | H]; [lia |]. apply process_packet_bad_checksum; assumption. }
  split; [| split; [| split]].
  - intros w rest len Hwf Hlen Hesc.
    rewrite receive_loop_step, step_delim; try assumption; try reflexivity.
    + rewrite app_nil_r, rx_load_content by exact Hwf.
      unfold delimited. rewrite Hlen.
      change (SLIP_END =? SLIP_END) with true. change (0 <? 0) with false.
      change (SLIP_END =? SLIP_ESC) with false. cbn [andb fst snd length].
      rewrite emit_nil. reflexivity.
    + rewrite Hlen, packet_max. cbn [length]. lia.
  - intros w data n w' tr Hwf Hrx. unfold wimod_receive_buf in Hrx.
    destruct (receive_loop kzalloc w [] data 0) as [x |] eqn:Hx; [| discriminate].
    inversion Hrx; subst.
    eapply processed_nonempty; [apply loop_inv_start, Hwf | exact Hx].
  - intros w data len H. rewrite (Hdrop w data len H). cbn [fst snd].
    split; [reflexivity |]. destruct (len <? 4); reflexivity.
  - intros w pkt Hwf Hlen Hesc Hne Hfit Hbad.
    pose proof (receive_frame kzalloc pkt w Hwf Hlen Hesc Hne Hfit) as Hrx.
    assert (Hfirst : firstn (Z.to_nat (Z.of_nat (length pkt)))
                        (rx_buf (rx_load w pkt)) = pkt).
    { rewrite Nat2Z.id. apply rx_load_buf_firstn. }
    rewrite Hdrop in Hrx by (rewrite Hfirst; exact Hbad).
    cbn [fst snd] in Hrx. rewrite Hfirst in Hrx.
    unfold wimod_receive_buf. rewrite Hrx. cbn [exit_len exit_dev exit_trace].
    eexists. eexists. split; [reflexivity |].
    split; [destruct (Z.of_nat (length pkt) <? 4); reflexivity |].
    split; [destruct (Z.of_nat (length pkt) <? 4); reflexivity |].
    split; [reflexivity |]. split; [exact Hesc |]. split; reflexivity.
Qed.

Lemma invalid_frames_discarded_witness :
  exists wmdev' tr,
    wimod_receive_buf (fun _ => true)
      (wimod_hci_add_dispatcher (wimod_device_init (mk_serdev [] []))
         (1%nat, new_packet 1 2))
      (SLIP_END :: slip_encode [1; 2; 0; 0; 0] ++ [SLIP_END])
    = Some (Z.of_nat (length (SLIP_END :: slip_encode [1; 2; 0; 0; 0] ++ [SLIP_END])),
            wmdev', tr) /\
    processed tr = [[1; 2; 0; 0; 0]] /\ dispatches tr = [] /\
    rx_len wmdev' = 0 /\ rx_esc wmdev' = false /\
    packet_dispatchers wmdev' = [(1%nat, new_packet 1 2)] /\
    serdev wmdev' = mk_serdev [] [].
Proof.
  apply (proj2 (proj2 (proj2 (invalid_frames_discarded (fun _ => true))))
           (wimod_hci_add_dispatcher (wimod_device_init (mk_serdev [] []))
              (1%nat, new_packet 1 2))
           [1; 2; 0; 0; 0]).
  - split; [reflexivity | vm_compute; split; discriminate].
  - reflexivity.
  - reflexivity.
  - discriminate.
  - vm_compute. reflexivity.
  - right. vm_compute. discriminate.
Defined.

(** ** Requests *)

Section RequestProofs.
Variable kzalloc : Z -> bool.

Lemma remove_not_registered (w : wimod_device) (self : nat) :
  ~ registered (wimod_hci_remove_dispatcher w self) self.
Proof.
  unfold registered, wimod_hci_remove_dispatcher. cbn [set_packet_dispatchers
    packet_dispatchers].
  intros H. apply in_map_iff in H. destruct H as ([a p] & Ha & Hin).
  apply filter_In in Hin. destruct Hin as [_ Hne]. simpl in *. subst a.
  rewrite Nat.eqb_refl in Hne. discriminate.
Qed.

Lemma wait_timed_out (w w' : wimod_device) (self : nat) (env : request_env)
    (tr : list event) :
  receive_while_waiting kzalloc w self [] (incoming env) = Some (w', tr) ->
  entry_done w' self = false ->
  wait_for_completion_timeout kzalloc w self env = Some (0, w', tr).
Proof.
  intros Hrx Hdone. unfold wait_for_completion_timeout. rewrite Hrx, Hdone.
  reflexivity.
Qed.

(** *** The receive path keeps the waiters in order *)

Lemma handler_slot_ok (data : list Z) (len : Z) (p : wimod_hci_packet_completion) :
  (forall n, kzalloc n = true) -> slot_ok p ->
  slot_ok (wimod_hci_packet_dispatch_completion kzalloc data len p).
Proof.
  intros Hk Hp. unfold wimod_hci_packet_dispatch_completion.
  destruct (completion_done (comp p)); [exact Hp |].
  unfold slot_ok. simpl. rewrite Hk. discriminate.
Qed.

Lemma dispatch_scan_waiters_ok (es : list dispatcher_entry) (data : list Z) (len : Z) :
  (forall n, kzalloc n = true) -> waiters_ok es ->
  waiters_ok (fst (dispatch_scan kzalloc es data len)).
Proof.
  intros Hk. unfold waiters_ok.
  induction es as [| [a p] es IH]; intros H; simpl.
  - constructor.
  - inversion H as [| ? ? Hp Hes]; subst.
    destruct ((dst_id (disp p) =? nth 0 data 0) && (msg_id (disp p) =? nth 1 data 0)).
    + simpl. constructor; [| exact Hes]. simpl.
      destruct (dispatchee (disp p)). apply handler_slot_ok; assumption.
    + specialize (IH Hes).
      destruct (dispatch_scan kzalloc es data len). simpl in *.
      constructor; assumption.
Qed.

Lemma process_packet_waiters_ok (w : wimod_device) (data : list Z) (len : Z) :
  (forall n, kzalloc n = true) -> waiters_ok (packet_dispatchers w) ->
  waiters_ok (packet_dispatchers (fst (wimod_process_packet kzalloc w data len))).
Proof.
  intros Hk H. unfold wimod_process_packet.
  destruct (len <? 4); [exact H |].
  destruct (negb _); [exact H |].
  pose proof (dispatch_scan_waiters_ok (packet_dispatchers w) data len Hk H) as Hs.
  destruct (dispatch_scan kzalloc (packet_dispatchers w) data len).
  exact Hs.
Qed.

Lemma step_waiters_ok (w : wimod_device) (lit : list Z) (c : Z) :
  (forall n, kzalloc n = true) -> loop_inv w lit ->
  waiters_ok (packet_dispatchers w) ->
  match loop_step kzalloc w lit c with
  | Consume w' _ => waiters_ok (packet_dispatchers w')
  | _ => True
  end.
Proof.
  intros Hk (Hwf & Hlit & Hroom & Hesc) Hok.
  destruct (Z.lt_ge_cases (Z.of_nat (length lit)) (WIMOD_HCI_PACKET_MAX - rx_len w))
    as [Hlt | Hge]; [| rewrite step_halt by auto; exact I].
  destruct (rx_esc w) eqn:He.
  - rewrite (Hesc eq_refl) in *. cbn [length] in *.
    rewrite step_escaped by (auto; lia).
    unfold unescaped.
    destruct (c =? SLIP_ESC_END); [exact Hok |].
    destruct (c =? SLIP_ESC_ESC); exact Hok.
  - destruct (literal c) eqn:Hc; [rewrite step_scan by auto; exact I |].
    rewrite step_delim by auto. unfold delimited.
    set (w1 := rx_load w (content w ++ lit)).
    assert (Hok1 : waiters_ok (packet_dispatchers w1)) by exact Hok.
    destruct ((c =? SLIP_END) && (0 <? rx_len w1)).
    + cbn [fst]. apply (process_packet_waiters_ok w1 _ _ Hk Hok1).
    + destruct (c =? SLIP_ESC); exact Hok1.
Qed.

Lemma receive_loop_waiters_ok (rest lit : list Z) (w : wimod_device) (len : Z) :
  (forall n, kzalloc n = true) -> loop_inv w lit ->
  waiters_ok (packet_dispatchers w) ->
  exists x,
    receive_loop kzalloc w lit rest len = Some x /\ rx_wf (exit_dev x) /\
    waiters_ok (packet_dispatchers (exit_dev x)).
Proof.
  intros Hk. revert lit w len.
  induction rest as [| c rest IH]; intros lit w len Hinv Hok.
  - eexists. split; [reflexivity |]. split; [apply Hinv | exact Hok].
  - rewrite receive_loop_step.
    pose proof (step_inv kzalloc w lit c Hinv) as Hs.
    pose proof (step_waiters_ok w lit c Hk Hinv Hok) as Hw.
    destruct (loop_step kzalloc w lit c) as [| | w' tr |].
    + eexists. split; [reflexivity |]. split; [apply Hinv | exact Hok].
    + apply IH; assumption.
    + destruct (IH [] w' (len + (Z.of_nat (length lit) + 1))
                  (loop_inv_start w' Hs) Hw) as (x & Hx & Hwf & Hokx).
      rewrite Hx. eexists. split; [reflexivity |]. split; assumption.
    + contradiction.
Qed.

Lemma receive_while_waiting_ok (chunks : list (list Z)) (w : wimod_device)
    (self : nat) (pending : list Z) :
  (forall n, kzalloc n = true) -> rx_wf w -> waiters_ok (packet_dispatchers w) ->
  exists w' tr,
    receive_while_waiting kzalloc w self pending chunks = Some (w', tr) /\
    rx_wf w' /\ waiters_ok (packet_dispatchers w').
Proof.
  intros Hk. revert w pending.
  induction chunks as [| c cs IH]; intros w pending Hwf Hok.
  - exists w, []. simpl. destruct (entry_done w self); auto.
  - simpl. destruct (entry_done w self); [exists w, []; auto |].
    unfold wimod_receive_buf.
    destruct (receive_loop_waiters_ok (pending ++ c) [] w 0 Hk
                (loop_inv_start w Hwf) Hok) as (x & Hx & Hwfx & Hokx).
    rewrite Hx.
    destruct (IH (exit_dev x) (skipn (Z.to_nat (exit_len x)) (pending ++ c))
                Hwfx Hokx) as (w' & tr & Hr & Hwf' & Hok').
    rewrite Hr. eexists. eexists. split; [reflexivity |]. auto.
Qed.

Lemma find_entry_slot_ok (w : wimod_device) (self : nat)
    (p : wimod_hci_packet_completion) :
  waiters_ok (packet_dispatchers w) -> find_entry w self = Some p -> slot_ok p.
Proof.
  unfold find_entry, waiters_ok. intros Hok Hf.
  destruct (find (fun e => Nat.eqb (fst e) self) (packet_dispatchers w))
    as [e |] eqn:E; [| discriminate].
  inversion Hf; subst. apply find_some in E. destruct E as [Hin _].
  rewrite Forall_forall in Hok. apply (Hok e Hin).
Qed.

Lemma wait_ok (w : wimod_device) (self : nat) (env : request_env) :
  (forall n, kzalloc n = true) -> rx_wf w -> waiters_ok (packet_dispatchers w) ->
  exists t w' tr,
    wait_for_completion_timeout kzalloc w self env = Some (t, w', tr) /\
    waiters_ok (packet_dispatchers w').
Proof.
  intros Hk Hwf Hok. unfold wait_for_completion_timeout.
  destruct (receive_while_waiting_ok (incoming env) w self [] Hk Hwf Hok)
    as (w' & tr & Hr & _ & Hok').
  rewrite Hr. destruct (entry_done w' self).
  - eexists. eexists. eexists. split; [reflexivity |].
    cbn [set_packet_dispatchers packet_dispatchers].
    unfold waiters_ok in *. rewrite Forall_map.
    eapply Forall_impl; [| exact Hok']. intros [a p] Hp. simpl in *.
    destruct (Nat.eqb a self); exact Hp.
  - eexists. eexists. eexists. split; [reflexivity | exact Hok'].
Qed.

End RequestProofs.

Section RequestClaims.
Variable kzalloc : Z -> bool.

Lemma new_packet_slot_ok (dst msg : Z) : slot_ok (new_packet dst msg).
Proof. unfold slot_ok, new_packet. simpl. lia. Qed.

Lemma armed_waiters_ok (w : wimod_device) (self : nat) (dst msg : Z)
    (sdev : serdev_device) :
  waiters_ok (packet_dispatchers w) ->
  waiters_ok (packet_dispatchers
                (set_serdev sdev (wimod_hci_add_dispatcher w (self, new_packet dst msg)))).
Proof.
  intros H. cbn [set_serdev wimod_hci_add_dispatcher set_packet_dispatchers
                   packet_dispatchers].
  unfold waiters_ok. apply Forall_app. split; [exact H |].
  constructor; [apply new_packet_slot_ok | constructor].
Qed.

Lemma ping_check_ok (p : wimod_hci_packet_completion) :
  slot_ok p -> exists r, ping_check p = Some r.
Proof.
  intros H. unfold ping_check.
  destruct (Z.ltb_spec (payload_len p) 1); [eauto |].
  destruct (payload p) eqn:E; [eauto |]. specialize (H E). lia.
Qed.

Lemma get_device_info_check_ok (p : wimod_hci_packet_completion)
    (buf : option (list Z)) :
  slot_ok p -> exists r, get_device_info_check p buf = Some r.
Proof.
  intros H. unfold get_device_info_check.
  destruct (Z.ltb_spec (payload_len p) 1); [eauto |].
  destruct (payload p) eqn:E; [| specialize (H E); lia].
  destruct (negb _); [eauto |].
  destruct (payload_len p <? 10); [eauto |].
  destruct buf; eauto.
Qed.

Lemma ping_result (wmdev : wimod_device) (self : nat) (env : request_env) :
  wimod_hci_ping kzalloc wmdev self env =
  let armed := wimod_hci_add_dispatcher wmdev
                 (self, new_packet DEVMGMT_ID DEVMGMT_MSG_PING_RSP) in
  let sent := wimod_hci_send (serdev wmdev) DEVMGMT_ID DEVMGMT_MSG_PING_REQ [] 0 in
  if negb (fst sent =? 0) then
    Some (mk_result (fst sent) None
            (wimod_hci_remove_dispatcher (set_serdev (snd sent) armed) self) [])
  else
    match wait_for_completion_timeout kzalloc (set_serdev (snd sent) armed) self env with
    | None => None
    | Some (timeout, w, tr) =>
        if timeout =? 0 then
          Some (mk_result (- ETIMEDOUT) None (wimod_hci_remove_dispatcher w self)
                  (Waited :: map Received tr))
        else
          match ping_check
                  (match find_entry w self with
                   | Some p => p
                   | None => new_packet DEVMGMT_ID DEVMGMT_MSG_PING_RSP
                   end) with
          | None => None
          | Some ret =>
              Some (mk_result ret None (wimod_hci_remove_dispatcher w self)
                      (Waited :: map Received tr))
          end
    end.
Proof.
  unfold wimod_hci_ping.
  cbn [serdev wimod_hci_add_dispatcher set_packet_dispatchers].
  destruct (wimod_hci_send (serdev wmdev) DEVMGMT_ID DEVMGMT_MSG_PING_REQ [] 0)
    as [r sdev']. reflexivity.
Qed.

Lemma get_device_info_result (wmdev : wimod_device) (self : nat)
    (buf : option (list Z)) (env : request_env) :
  wimod_hci_get_device_info kzalloc wmdev self buf env =
  let armed := wimod_hci_add_dispatcher wmdev
                 (self, new_packet DEVMGMT_ID DEVMGMT_MSG_GET_DEVICE_INFO_RSP) in
  let sent := wimod_hci_send (serdev wmdev) DEVMGMT_ID
                DEVMGMT_MSG_GET_DEVICE_INFO_REQ [] 0 in
  if negb (fst sent =? 0) then
    Some (mk_result (fst sent) buf
            (wimod_hci_remove_dispatcher (set_serdev (snd sent) armed) self) [])
  else
    match wait_for_completion_timeout kzalloc (set_serdev (snd sent) armed) self env with
    | None => None
    | Some (timeout, w, tr) =>
        if timeout =? 0 then
          Some (mk_result (- ETIMEDOUT) buf (wimod_hci_remove_dispatcher w self)
                  (Waited :: map Received tr))
        else
          match get_device_info_check
                  (match find_entry w self with
                   | Some p => p
                   | None => new_packet DEVMGMT_ID DEVMGMT_MSG_GET_DEVICE_INFO_RSP
                   end) buf with
          | None => None
          | Some (ret, buf') =>
              Some (mk_result ret buf' (wimod_hci_remove_dispatcher w self)
                      (Waited :: map Received tr))
          end
    end.
Proof.
  unfold wimod_hci_get_device_info.
  cbn [serdev wimod_hci_add_dispatcher set_packet_dispatchers].
  destruct (wimod_hci_send (serdev wmdev) DEVMGMT_ID
              DEVMGMT_MSG_GET_DEVICE_INFO_REQ [] 0) as [r sdev']. reflexivity.
Qed.

End RequestClaims.

(** C6 as stated fails on the distinctness of the timeout error: the write
    error is handed back as [serdev_device_write] returned it, and a write
    that times out returns -ETIMEDOUT too.  The first call below never
    waits, the second waits until the deadline; both return -ETIMEDOUT. *)
Lemma synchronizer_cleanup_counterexample :
  let failing := wimod_device_init (mk_serdev [] [- ETIMEDOUT]) in
  let silent := wimod_device_init (mk_serdev [] []) in
  let env := mk_env [] 0 in
  fst (wimod_hci_send (serdev failing) DEVMGMT_ID DEVMGMT_MSG_PING_REQ [] 0)
  = - ETIMEDOUT /\
  option_map (fun r => (res_ret r, res_steps r))
    (wimod_hci_ping (fun _ => true) failing 1 env) = Some (- ETIMEDOUT, []) /\
  option_map (fun r => (res_ret r, res_steps r))
    (wimod_hci_ping (fun _ => true) silent 1 env) = Some (- ETIMEDOUT, [Waited]).
Proof. vm_compute. repeat split. Qed.

(** C6, amended.  For [wimod_hci_ping] and [wimod_hci_get_device_info]:
    (a) when a write of the request fails, the call returns the write error
    as it is, with the waiter taken off the list and without having
    waited; (b) when the request is sent and the deadline passes with the
    waiter's completion not fired, the call returns -ETIMEDOUT, which
    differs from a write error only when that error is not -ETIMEDOUT
    itself; (c) whenever the call returns, the waiter is no longer on the
    list; and from a well-formed device, with no allocation failing, the
    call does return. *)
Theorem synchronizer_cleanup (kzalloc : Z -> bool) (wmdev : wimod_device)
    (self : nat) (buf : option (list Z)) (env : request_env) :
  let ping_armed :=
    wimod_hci_add_dispatcher wmdev
      (self, new_packet DEVMGMT_ID DEVMGMT_MSG_PING_RSP) in
  let info_armed :=
    wimod_hci_add_dispatcher wmdev
      (self, new_packet DEVMGMT_ID DEVMGMT_MSG_GET_DEVICE_INFO_RSP) in
  let ping_sent :=
    wimod_hci_send (serdev wmdev) DEVMGMT_ID DEVMGMT_MSG_PING_REQ [] 0 in
  let info_sent :=
    wimod_hci_send (serdev wmdev) DEVMGMT_ID DEVMGMT_MSG_GET_DEVICE_INFO_REQ [] 0 in
  (* (a) *)
  (fst ping_sent <> 0 ->
   wimod_hci_ping kzalloc wmdev self env
   = Some (mk_result (fst ping_sent) None
             (wimod_hci_remove_dispatcher (set_serdev (snd ping_sent) ping_armed) self)
             [])) /\
  (fst info_sent <> 0 ->
   wimod_hci_get_device_info kzalloc wmdev self buf env
   = Some (mk_result (fst info_sent) buf
             (wimod_hci_remove_dispatcher (set_serdev (snd info_sent) info_armed) self)
             [])) /\
  (* (b) *)
  (forall w tr,
      fst ping_sent = 0 ->
      receive_while_waiting kzalloc (set_serdev (snd ping_sent) ping_armed) self []
        (incoming env) = Some (w, tr) ->
      entry_done w self = false ->
      wimod_hci_ping kzalloc wmdev self env
      = Some (mk_result (- ETIMEDOUT) None (wimod_hci_remove_dispatcher w self)
                (Waited :: map Received tr))) /\
  (forall w tr,
      fst info_sent = 0 ->
      receive_while_waiting kzalloc (set_serdev (snd info_sent) info_armed) self []
        (incoming env) = Some (w, tr) ->
      entry_done w self = false ->
      wimod_hci_get_device_info kzalloc wmdev self buf env
      = Some (mk_result (- ETIMEDOUT) buf (wimod_hci_remove_dispatcher w self)
                (Waited :: map Received tr))) /\
  (* (c) *)
  (forall res,
      wimod_hci_ping kzalloc wmdev self env = Some res \/
      wimod_hci_get_device_info kzalloc wmdev self buf env = Some res ->
      ~ registered (res_dev res) self) /\
  ((forall n, kzalloc n = true) -> rx_wf wmdev ->
   waiters_ok (packet_dispatchers wmdev) ->
   (exists res, wimod_hci_ping kzalloc wmdev self env = Some res) /\
   (exists res, wimod_hci_get_device_info kzalloc wmdev self buf env = Some res)).
Proof.
  intros ping_armed info_armed ping_sent info_sent.
  rewrite ping_result, get_device_info_result.
  fold ping_armed info_armed ping_sent info_sent. cbv zeta.
  split; [| split; [| split; [| split; [| split]]]].
  - intros Hr. apply Z.eqb_neq in Hr. rewrite Hr. reflexivity.
  - intros Hr. apply Z.eqb_neq in Hr. rewrite Hr. reflexivity.
  - intros w tr Hr Hrx Hdone. rewrite Hr.
    rewrite (wait_timed_out kzalloc _ w self env tr Hrx Hdone). reflexivity.
  - intros w tr Hr Hrx Hdone. rewrite Hr.
    rewrite (wait_timed_out kzalloc _ w self env tr Hrx Hdone). reflexivity.
  - intros res [H | H].
    + destruct (negb (fst ping_sent =? 0)).
      * inversion H; subst. apply remove_not_registered.
      * destruct (wait_for_completion_timeout kzalloc _ self env)
          as [[[t w] tr] |]; [| discriminate].
        destruct (t =? 0); [inversion H; subst; apply remove_not_registered |].
        destruct (ping_check _); [| discriminate].
        inversion H; subst. apply remove_not_registered.
    + destruct (negb (fst info_sent =? 0)).
      * inversion H; subst. apply remove_not_registered.
      * destruct (wait_for_completion_timeout kzalloc _ self env)
          as [[[t w] tr] |]; [| discriminate].
        destruct (t =? 0); [inversion H; subst; apply remove_not_registered |].
        destruct (get_device_info_check _ buf) as [[ret buf'] |]; [| discriminate].
        inversion H; subst. apply remove_not_registered.
  - intros Hk Hwf Hok. split.
    + destruct (negb (fst ping_sent =? 0)); [eauto |].
      destruct (wait_ok kzalloc (set_serdev (snd ping_sent) ping_armed) self env Hk)
        as (t & w & tr & Hw & Hokw).
      * exact Hwf.
      * apply armed_waiters_ok, Hok.
      * rewrite Hw. destruct (t =? 0); [eauto |].
        destruct (ping_check_ok
                    (match find_entry w self with
                     | Some p => p
                     | None => new_packet DEVMGMT_ID DEVMGMT_MSG_PING_RSP
                     end)) as (r & Hr).
        -- destruct (find_entry w self) eqn:Ef.
           ++ eapply find_entry_slot_ok; eauto.
           ++ apply new_packet_slot_ok.
        -- rewrite Hr. eauto.
    + destruct (negb (fst info_sent =? 0)); [eauto |].
      destruct (wait_ok kzalloc (set_serdev (snd info_sent) info_armed) self env Hk)
        as (t & w & tr & Hw & Hokw).
      * exact Hwf.
      * apply armed_waiters_ok, Hok.
      * rewrite Hw. destruct (t =? 0); [eauto |].
        destruct (get_device_info_check_ok
                    (match find_entry w self with
                     | Some p => p
                     | None => new_packet DEVMGMT_ID DEVMGMT_MSG_GET_DEVICE_INFO_RSP
                     end) buf) as ([r b] & Hr).
        -- destruct (find_entry w self) eqn:Ef.
           ++ eapply find_entry_slot_ok; eauto.
           ++ apply new_packet_slot_ok.
        -- rewrite Hr. eauto.
Qed.

Lemma synchronizer_cleanup_witness :
  wimod_hci_ping (fun _ => true) (wimod_device_init (mk_serdev [] [0; 0; -5])) 1
    (mk_env [] 10)
  = Some (mk_result (-5) None
            (wimod_hci_remove_dispatcher
               (set_serdev
                  (snd (wimod_hci_send (mk_serdev [] [0; 0; -5])
                          DEVMGMT_ID DEVMGMT_MSG_PING_REQ [] 0))
                  (wimod_hci_add_dispatcher
                     (wimod_device_init (mk_serdev [] [0; 0; -5]))
                     (1%nat, new_packet DEVMGMT_ID DEVMGMT_MSG_PING_RSP))) 1)
            []).
Proof.
  apply (proj1 (synchronizer_cleanup (fun _ => true)
                  (wimod_device_init (mk_serdev [] [0; 0; -5])) 1 None
                  (mk_env [] 10))).
  vm_compute. discriminate.
Defined.

Lemma get_device_info_check_spec (packet : wimod_hci_packet_completion)
    (p : list Z) (buf : option (list Z)) :
  payload packet = Some p -> payload_len packet = Z.of_nat (length p) ->
  (forall b, buf = Some b -> length b = 9%nat) ->
  get_device_info_check packet buf
  = Some (if (10 <=? Z.of_nat (length p)) && (nth 0 p 0 =? DEVMGMT_STATUS_OK)
          then (0, option_map (fun _ => firstn 9 (skipn 1 p)) buf)
          else (- EINVAL, buf)).
Proof.
  intros Hp Hlen Hbuf. unfold get_device_info_check, wimod_hci_devmgmt_status.
  rewrite Hp, Hlen.
  destruct (Z.ltb_spec (Z.of_nat (length p)) 1) as [H1 | H1].
  - destruct (Z.leb_spec 10 (Z.of_nat (length p))); [lia | reflexivity].
  - destruct (nth 0 p 0 =? DEVMGMT_STATUS_OK) eqn:Hs.
    + cbn [negb Z.eqb]. change (negb (0 =? 0)) with false. cbv iota.
      destruct (Z.ltb_spec (Z.of_nat (length p)) 10) as [H10 | H10];
        destruct (Z.leb_spec 10 (Z.of_nat (length p))); try lia; cbn [andb].
      * reflexivity.
      * replace (Z.to_nat (Z.min (Z.of_nat (length p) - 1) 9)) with 9%nat by lia.
        destruct buf as [b |]; [| reflexivity].
        rewrite (skipn_all2 b) by (rewrite (Hbuf b eq_refl); lia).
        rewrite app_nil_r. reflexivity.
    + change (negb (- EINVAL =? 0)) with true. cbv iota.
      rewrite andb_false_r. reflexivity.
Qed.





(** ** Test vectors *)

Module Examples.

Import Vectors.

(** The first entries of the kernel's table and its last one. *)
Example table_entries :
  firstn 4 CRC.crc_ccitt_table = [0; 4489; 8978; 12955] /\
  nth 255 CRC.crc_ccitt_table 0 = 3960.
Proof. split; reflexivity. Qed.

(** The X.25 check value, 0x906e, on the digits 1 to 9. *)
Example x25_check_value :
  CRC.complement (CRC.crc_ccitt 65535 [49; 50; 51; 52; 53; 54; 55; 56; 57] 9)
  = 36974.
Proof. reflexivity. Qed.

(** A ping request on the wire: C0 01 01 16 07 C0. *)
Example ping_on_the_wire : wire 1 1 [] = [192; 1; 1; 22; 7; 192].
Proof. reflexivity. Qed.

(** A payload byte 0xC0 goes out as DB DC, and comes back as 0xC0. *)
Example escaped_end_on_the_wire :
  wire 1 2 [192] = [192; 1; 2; 219; 220; 172; 105; 192] /\
  option_map (fun r => processed (snd r)) (wimod_receive_buf always fresh (wire 1 2 [192]))
  = Some [[1; 2; 192; 172; 105]].
Proof. vm_compute. split; reflexivity. Qed.

(** A ping answered with status 0x00 succeeds. *)
Example ping_answered :
  returned (wimod_hci_ping always fresh 1 (mk_env [wire 1 2 [0]] 3)) = Some 0.
Proof. vm_compute. reflexivity. Qed.

(** Device information answered with status 0x01 alone: -EINVAL, and the
    caller's buffer is as it was. *)
Example get_device_info_refused :
  option_map (fun r => (res_ret r, res_buf r))
    (wimod_hci_get_device_info always fresh 1 (Some (repeat 0 9))
       (mk_env [wire 1 4 [1]] 3))
  = Some (- EINVAL, Some (repeat 0 9)).
Proof. vm_compute. reflexivity. Qed.

(** No answer before the deadline: -ETIMEDOUT; the answer that comes
    afterwards finds no waiter and is dropped. *)
Example ping_unanswered :
  match wimod_hci_ping always fresh 1 (mk_env [] 0) with
  | Some r =>
      res_ret r = - ETIMEDOUT /\
      option_map (fun x => dispatches (snd x))
        (wimod_receive_buf always (res_dev r) (wire 1 2 [0])) = Some []
  | None => False
  end.
Proof. vm_compute. split; reflexivity. Qed.

(** An answer with one payload byte damaged on the way reaches no waiter,
    and the ping times out. *)
Example ping_answer_damaged :
  returned (wimod_hci_ping always fresh 1
              (mk_env [[192; 1; 2; 1; 160; 175; 192]] 3))
  = Some (- ETIMEDOUT).
Proof. vm_compute. reflexivity. Qed.

End Examples.

(** * Further properties *)

(** ** Sending on any transport *)

Lemma app_self_nil (l m : list Z) : l = l ++ m -> m = [].
Proof.
  intros H. rewrite <- (app_nil_r l) in H at 1.
  apply app_inv_head in H. symmetry. exact H.
Qed.

Lemma sends_write (buf : list Z) :
  sends (fun s => serdev_device_write s buf) buf.
Proof.
  intros s. unfold serdev_device_write, first_error.
  destruct (write_ret s) as [| r rs] eqn:E; simpl.
  - exists buf. split; [reflexivity |]. split; [exists []; symmetry; apply app_nil_r |].
    split; [auto | intros H; contradiction].
  - destruct (Z.eqb_spec r 0) as [-> | Hr]; simpl.
    + exists buf. split; [reflexivity |].
      split; [exists []; symmetry; apply app_nil_r |].
      split; [auto | intros H; contradiction].
    + exists []. split; [symmetry; apply app_nil_r |].
      split; [exists buf; reflexivity |].
      split; [intros H; contradiction | reflexivity].
Qed.

Lemma sends_unit : sends (fun s => (0, s)) [].
Proof.
  intros s. exists []. simpl. split; [symmetry; apply app_nil_r |].
  split; [exists []; reflexivity |]. split; [auto | intros H; contradiction].
Qed.

Lemma sends_seq (f g : serdev_device -> Z * serdev_device) (a b : list Z) :
  sends f a -> sends g b -> sends (seq_send f g) (a ++ b).
Proof.
  intros Hf Hg s. unfold seq_send.
  destruct (Hf s) as (out & Htx & (more & Hmore) & H0 & Hne).
  destruct (f s) as [r s1] eqn:Ef. simpl in *.
  destruct (Z.eqb_spec r 0) as [-> | Hr]; simpl.
  - destruct (H0 eq_refl) as [-> Hfe].
    destruct (Hg s1) as (out2 & Htx2 & (more2 & Hmore2) & H02 & Hne2).
    exists (a ++ out2). split; [rewrite Htx2, Htx, app_assoc; reflexivity |].
    split; [exists more2; rewrite Hmore2, app_assoc; reflexivity |].
    split.
    + intros Hz. destruct (H02 Hz) as [-> Hfe2]. split; [reflexivity | congruence].
    + intros Hz. rewrite <- Hfe. apply Hne2, Hz.
  - exists out. split; [exact Htx |].
    split; [exists (more ++ b); rewrite Hmore, app_assoc; reflexivity |].
    split; [intros Hz; contradiction | intros _; apply Hne, Hr].
Qed.

Lemma sends_ext (f g : serdev_device -> Z * serdev_device) (a : list Z) :
  (forall s, f s = g s) -> sends f a -> sends g a.
Proof. intros E H s. rewrite <- E. apply H. Qed.

Lemma slip_send_data_loop_sends (rest run : list Z) (esc1 : Z) :
  sends (fun s => slip_send_data_loop s esc1 run rest) (run ++ slip_encode rest).
Proof.
  revert run esc1. induction rest as [| c rest IH]; intros run esc1.
  - simpl. rewrite app_nil_r. apply sends_write.
  - unfold slip_encode. simpl flat_map. fold (slip_encode rest).
    destruct (negb (c =? SLIP_END) && negb (c =? SLIP_ESC)) eqn:Hlit.
    + assert (He : slip_escape c = [c]).
      { unfold slip_escape. destruct (c =? SLIP_END); [discriminate |].
        destruct (c =? SLIP_ESC); [discriminate | reflexivity]. }
      rewrite He. simpl app.
      replace (run ++ c :: slip_encode rest) with ((run ++ [c]) ++ slip_encode rest)
        by (rewrite <- app_assoc; reflexivity).
      eapply sends_ext; [| apply (IH (run ++ [c]) esc1)].
      intros s. simpl. rewrite Hlit. reflexivity.
    + set (code := if c =? SLIP_END then SLIP_ESC_END
                   else if c =? SLIP_ESC then SLIP_ESC_ESC else esc1).
      assert (He : slip_escape c = [SLIP_ESC; code]).
      { unfold slip_escape, code. destruct (c =? SLIP_END); [reflexivity |].
        destruct (c =? SLIP_ESC); [reflexivity | discriminate]. }
      rewrite He.
      eapply sends_ext;
        [| apply (sends_seq _ _ run ([SLIP_ESC; code] ++ slip_encode rest)
                    (sends_write run)
                    (sends_seq _ _ [SLIP_ESC; code] ([] ++ slip_encode rest)
                       (sends_write [SLIP_ESC; code]) (IH [] code)))].
      intros s. unfold seq_send. simpl. rewrite Hlit. fold code.
      destruct (serdev_device_write s run) as [r s1].
      destruct (negb (r =? 0)); [reflexivity |].
      destruct (serdev_device_write s1 [SLIP_ESC; code]) as [r2 s2].
      reflexivity.
Qed.

Lemma slip_send_data_sends (buf : list Z) (len : Z) :
  sends (fun s => slip_send_data s buf len) (slip_encode (firstn (Z.to_nat len) buf)).
Proof.
  unfold slip_send_data.
  apply (slip_send_data_loop_sends (firstn (Z.to_nat len) buf) [] 0).
Qed.

Lemma falls_short_seq (f g : serdev_device -> Z * serdev_device) (a b : list Z) :
  sends f a -> falls_short g b -> b <> [] -> falls_short (seq_send f g) (a ++ b).
Proof.
  intros Hf Hg Hb s. unfold seq_send.
  destruct (Hf s) as (out & Htx & (more & Hmore) & H0 & Hne).
  destruct (f s) as [r s1] eqn:Ef. simpl in *.
  assert (Hlb : (0 < length b)%nat) by (destruct b; [contradiction | simpl; lia]).
  destruct (Z.eqb_spec r 0) as [-> | Hr]; simpl.
  - intros Hz. destruct (H0 eq_refl) as [-> _].
    specialize (Hg s1 Hz). rewrite Htx in Hg. rewrite !length_app in *. lia.
  - intros _. rewrite Htx, !length_app.
    apply (f_equal (@length Z)) in Hmore. rewrite length_app in Hmore. lia.
Qed.

Lemma falls_short_end :
  falls_short (seq_send slip_send_end (fun s => (0, s))) ([SLIP_END] ++ []).
Proof.
  intros s. unfold seq_send, slip_send_end, serdev_device_write.
  destruct (write_ret s) as [| r rs]; simpl; [intros H; contradiction |].
  destruct (Z.eqb_spec r 0) as [-> | Hr]; simpl; [intros H; contradiction |].
  apply Z.eqb_neq in Hr. rewrite Hr. simpl. intros _. lia.
Qed.

(** [wimod_hci_send], step by step. *)
Lemma wimod_hci_send_steps (dst msg : Z) (payload : list Z) (payload_len : Z)
    (s : serdev_device) :
  wimod_hci_send s dst msg payload payload_len
  = seq_send slip_send_end
      (seq_send (fun s => slip_send_data s [dst] 1)
         (seq_send (fun s => slip_send_data s [msg] 1)
            (seq_send (fun s => if 0 <? payload_len
                                then slip_send_data s payload payload_len
                                else (0, s))
               (seq_send (fun s => slip_send_data s
                                     (le16_bytes (hci_fcs dst msg payload payload_len)) 2)
                  (seq_send slip_send_end (fun s => (0, s))))))) s.
Proof.
  unfold wimod_hci_send, seq_send.
  destruct (slip_send_end s) as [r1 s1].
  destruct (negb (r1 =? 0)); [reflexivity |].
  destruct (slip_send_data s1 [dst] 1) as [r2 s2].
  destruct (negb (r2 =? 0)); [reflexivity |].
  destruct (slip_send_data s2 [msg] 1) as [r3 s3].
  destruct (negb (r3 =? 0)); [reflexivity |].
  destruct (if 0 <? payload_len then slip_send_data s3 payload payload_len else (0, s3))
    as [r4 s4].
  destruct (negb (r4 =? 0)); [reflexivity |].
  destruct (slip_send_data s4 (le16_bytes (hci_fcs dst msg payload payload_len)) 2)
    as [r5 s5].
  destruct (negb (r5 =? 0)); [reflexivity |].
  destruct (slip_send_end s5) as [r6 s6].
  destruct (r6 =? 0) eqn:E6; simpl; [| reflexivity].
  apply Z.eqb_eq in E6. subst. reflexivity.
Qed.

Lemma sends_payload (payload : list Z) :
  sends (fun s => if 0 <? Z.of_nat (length payload)
                  then slip_send_data s payload (Z.of_nat (length payload))
                  else (0, s)) (slip_encode payload).
Proof.
  destruct (Z.ltb_spec 0 (Z.of_nat (length payload))).
  - pose proof (slip_send_data_sends payload (Z.of_nat (length payload))) as Hs.
    rewrite Nat2Z.id, firstn_all in Hs. exact Hs.
  - destruct payload; [apply sends_unit | simpl length in *; lia].
Qed.

Lemma framed_steps (dst msg : Z) (payload : list Z) :
  framed (hci_frame dst msg payload)
  = [SLIP_END] ++ slip_encode [dst] ++ slip_encode [msg] ++ slip_encode payload
      ++ slip_encode (le16_bytes (hci_fcs dst msg payload (Z.of_nat (length payload))))
      ++ [SLIP_END] ++ [].
Proof.
  unfold framed, hci_frame.
  change (dst :: msg :: payload ++ ?x) with ([dst] ++ [msg] ++ payload ++ x).
  rewrite !slip_encode_app, <- !app_assoc. reflexivity.
Qed.

(** X1. [slip_send_data] on any transport: what it writes is a prefix of the
    escaped form of [buf[0 .. len)]; it returns 0 only with all of it
    written; and the value it returns otherwise is that of the first write
    of the transport that failed. *)
Theorem slip_send_data_writes_prefix (sdev : serdev_device) (buf : list Z) (len : Z) :
  exists out more,
    tx (snd (slip_send_data sdev buf len)) = tx sdev ++ out /\
    slip_encode (firstn (Z.to_nat len) buf) = out ++ more /\
    (fst (slip_send_data sdev buf len) = 0 -> more = []) /\
    (fst (slip_send_data sdev buf len) <> 0 ->
     first_error (write_ret sdev) = Some (fst (slip_send_data sdev buf len))).
Proof.
  destruct (slip_send_data_sends buf len sdev) as (out & Htx & (more & Hmore) & H0 & Hne).
  exists out, more. split; [exact Htx |]. split; [exact Hmore |].
  split; [| exact Hne].
  intros Hz. destruct (H0 Hz) as [Hout _]. rewrite Hout in Hmore.
  apply app_self_nil in Hmore. exact Hmore.
Qed.

(** X2. [wimod_hci_send] on any transport: what it writes is a prefix of
    END, the escaped frame with its checksum, END; it returns 0 exactly
    when all of it was written; and the value it returns otherwise is that
    of the first write of the transport that failed. *)
Theorem wimod_hci_send_complete_iff (sdev : serdev_device) (dst msg : Z)
    (payload : list Z) :
  let sent := wimod_hci_send sdev dst msg payload (Z.of_nat (length payload)) in
  exists out more,
    tx (snd sent) = tx sdev ++ out /\
    framed (hci_frame dst msg payload) = out ++ more /\
    (fst sent = 0 <-> more = []) /\
    (fst sent <> 0 -> first_error (write_ret sdev) = Some (fst sent)).
Proof.
  intros sent. unfold sent. rewrite wimod_hci_send_steps, framed_steps.
  set (f := seq_send slip_send_end _).
  assert (Hs : sends f
            ([SLIP_END] ++ slip_encode [dst] ++ slip_encode [msg]
               ++ slip_encode payload
               ++ slip_encode (le16_bytes (hci_fcs dst msg payload
                                             (Z.of_nat (length payload))))
               ++ [SLIP_END] ++ [])).
  { unfold f.
    apply sends_seq; [apply sends_write |].
    apply sends_seq; [apply (slip_send_data_sends [dst] 1) |].
    apply sends_seq; [apply (slip_send_data_sends [msg] 1) |].
    apply sends_seq; [apply sends_payload |].
    apply sends_seq; [apply (slip_send_data_sends (le16_bytes _) 2) |].
    apply sends_seq; [apply sends_write | apply sends_unit]. }
  assert (Hf : falls_short f
            ([SLIP_END] ++ slip_encode [dst] ++ slip_encode [msg]
               ++ slip_encode payload
               ++ slip_encode (le16_bytes (hci_fcs dst msg payload
                                             (Z.of_nat (length payload))))
               ++ [SLIP_END] ++ [])).
  { unfold f.
    assert (Hne : forall (a : list Z), a ++ [SLIP_END] ++ [] <> []).
    { intros a. destruct a; discriminate. }
    assert (Happ : forall (a b : list Z), b <> [] -> a ++ b <> []).
    { intros a b Hb E. apply app_eq_nil in E. destruct E as [_ E]. auto. }
    apply falls_short_seq; [apply sends_write | | auto].
    apply falls_short_seq; [apply (slip_send_data_sends [dst] 1) | | auto].
    apply falls_short_seq; [apply (slip_send_data_sends [msg] 1) | | auto].
    apply falls_short_seq; [apply sends_payload | | auto].
    apply falls_short_seq;
      [apply (slip_send_data_sends (le16_bytes _) 2) | | discriminate].
    apply falls_short_end. }
  destruct (Hs sdev) as (out & Htx & (more & Hmore) & H0 & Hne).
  exists out, more. split; [exact Htx |]. split; [exact Hmore |].
  split; [split |].
  - intros Hz. destruct (H0 Hz) as [Hout _]. rewrite Hout in Hmore.
    apply app_self_nil in Hmore. exact Hmore.
  - intros Hm. destruct (Z.eq_dec (fst (f sdev)) 0) as [E | E]; [exact E |].
    specialize (Hf sdev E). rewrite Htx, Hmore, Hm, !length_app in Hf.
    simpl length in Hf. lia.
  - exact Hne.
Qed.

(** ** The frame on the wire *)

Lemma slip_encode_no_end (l : list Z) : ~ In SLIP_END (slip_encode l).
Proof.
  induction l as [| c l IH]; simpl; [auto |].
  intros H. apply in_app_or in H. destruct H as [H | H]; [| auto].
  unfold slip_escape in H.
  destruct (Z.eqb_spec c SLIP_END) as [Ec | Ec].
  - destruct H as [H | [H | []]]; discriminate H.
  - destruct (c =? SLIP_ESC).
    + destruct H as [H | [H | []]]; discriminate H.
    + destruct H as [H | []]. auto.
Qed.

Lemma slip_encode_length (l : list Z) :
  (length l <= length (slip_encode l) <= 2 * length l)%nat.
Proof.
  induction l as [| c l IH]; simpl; [lia |].
  rewrite length_app.
  assert (H : (1 <= length (slip_escape c) <= 2)%nat).
  { unfold slip_escape. destruct (c =? SLIP_END); [simpl; lia |].
    destruct (c =? SLIP_ESC); simpl; lia. }
  lia.
Qed.

(** X3. The frame on the wire.  With every write succeeding,
    [wimod_hci_send] writes an END, a body and an END; the body holds no END
    byte, and between one and two bytes for each of the bytes of the frame
    and its checksum, so that for a payload of at most 300 bytes the whole
    is no longer than [WIMOD_HCI_PACKET_MAX]. *)
Theorem wire_format (sdev : serdev_device) (dst msg : Z) (payload : list Z) :
  writes_succeed sdev ->
  Z.of_nat (length payload) <= WIMOD_HCI_PAYLOAD_MAX ->
  exists body,
    tx (snd (wimod_hci_send sdev dst msg payload (Z.of_nat (length payload))))
    = tx sdev ++ SLIP_END :: body ++ [SLIP_END] /\
    ~ In SLIP_END body /\
    (length payload + 4 <= length body <= 2 * (length payload + 4))%nat /\
    Z.of_nat (length (SLIP_END :: body ++ [SLIP_END])) <= WIMOD_HCI_PACKET_MAX.
Proof.
  intros Hw Hmax.
  destruct (wimod_hci_send_ok sdev dst msg payload Hw) as (sdev' & Hs & Htx & _).
  rewrite Hs. cbn [snd].
  exists (slip_encode (hci_frame dst msg payload)).
  split; [exact Htx |]. split; [apply slip_encode_no_end |].
  pose proof (slip_encode_length (hci_frame dst msg payload)) as Hl.
  rewrite hci_frame_length in Hl. split; [exact Hl |].
  cbn [length]. rewrite length_app. cbn [length].
  rewrite packet_max. unfold WIMOD_HCI_PAYLOAD_MAX in Hmax. lia.
Qed.

Lemma wire_format_witness :
  exists body,
    tx (snd (wimod_hci_send (mk_serdev [] []) 1 2 [192; 219; 0] 3))
    = [] ++ SLIP_END :: body ++ [SLIP_END] /\
    ~ In SLIP_END body /\
    (3 + 4 <= length body <= 2 * (3 + 4))%nat /\
    Z.of_nat (length (SLIP_END :: body ++ [SLIP_END])) <= WIMOD_HCI_PACKET_MAX.
Proof.
  apply (wire_format (mk_serdev [] []) 1 2 [192; 219; 0]).
  - constructor.
  - vm_compute. discriminate.
Defined.

(** ** The checksum test *)

Module ChecksumProofs.
Import CRC CRCFacts CRCProofs.

Lemma inverse_table_all :
  forallb (fun x => nth (Z.to_nat (Z.shiftr (nth (Z.to_nat x) crc_ccitt_table 0) 8))
                        inverse_table 0 =? x) (indices 256) = true.
Proof. vm_compute. reflexivity. Qed.

(** The high byte of a table entry tells its index. *)
Lemma table_high_inj (x y : Z) :
  is_u8 x -> is_u8 y ->
  Z.shiftr (nth (Z.to_nat x) crc_ccitt_table 0) 8
  = Z.shiftr (nth (Z.to_nat y) crc_ccitt_table 0) 8 ->
  x = y.
Proof.
  intros Hx Hy E.
  pose proof (forallb_indices _ _ inverse_table_all x Hx) as Ex.
  pose proof (forallb_indices _ _ inverse_table_all y Hy) as Ey.
  cbv beta in Ex, Ey. apply Z.eqb_eq in Ex, Ey. rewrite E in Ex. congruence.
Qed.

Lemma land_255_u8 (x : Z) : is_u8 (Z.land x 255).
Proof.
  unfold is_u8. change 255 with (Z.ones 8). rewrite Z.land_ones by lia.
  apply Z.mod_pos_bound. lia.
Qed.

Lemma shiftr8_u8 (c : Z) : is_u8 c -> Z.shiftr c 8 = 0.
Proof.
  intros H. rewrite Z.shiftr_div_pow2 by lia. apply Z.div_small. exact H.
Qed.

Lemma lxor_u8 (a b : Z) : is_u8 a -> is_u8 b -> is_u8 (Z.lxor a b).
Proof. intros Ha Hb. apply (lxor_range 8); [lia | exact Ha | exact Hb]. Qed.

Lemma lxor_cancel_l (a b c : Z) : Z.lxor a b = Z.lxor a c -> b = c.
Proof.
  intros E. apply (f_equal (Z.lxor a)) in E.
  rewrite <- !Z.lxor_assoc, Z.lxor_nilpotent, !Z.lxor_0_l in E. exact E.
Qed.

(** The high byte of the register after a step is that of the table entry
    used. *)
Lemma crc_ccitt_byte_high (crc c : Z) :
  is_u16 crc ->
  Z.shiftr (crc_ccitt_byte crc c) 8
  = Z.shiftr (nth (Z.to_nat (Z.land (Z.lxor crc c) 255)) crc_ccitt_table 0) 8.
Proof.
  intros H. unfold crc_ccitt_byte.
  rewrite Z.shiftr_lxor, (shiftr8_u8 (Z.shiftr crc 8)) by (apply shiftr8_u16, H).
  apply Z.lxor_0_l.
Qed.

(** Two steps are injective in the pair of bytes fed. *)
Lemma two_steps_inj (crc c1 c2 d1 d2 : Z) :
  is_u16 crc -> is_u8 c1 -> is_u8 c2 -> is_u8 d1 -> is_u8 d2 ->
  crc_ccitt_byte (crc_ccitt_byte crc c1) c2
  = crc_ccitt_byte (crc_ccitt_byte crc d1) d2 ->
  c1 = d1 /\ c2 = d2.
Proof.
  intros Hcrc Hc1 Hc2 Hd1 Hd2 E.
  set (t := crc_ccitt_byte crc c1) in *. set (u := crc_ccitt_byte crc d1) in *.
  assert (Ht : is_u16 t) by (apply crc_ccitt_byte_u16, Hcrc).
  assert (Hu : is_u16 u) by (apply crc_ccitt_byte_u16, Hcrc).
  rewrite (crc_ccitt_byte_lxor t c2 Hc2), (crc_ccitt_byte_lxor u d2 Hd2) in E.
  apply crc_ccitt_byte_inj in E;
    [| apply lxor_u16; auto using u8_is_u16
     | apply lxor_u16; auto using u8_is_u16
     | unfold is_u8; lia].
  assert (Ehigh : Z.shiftr t 8 = Z.shiftr u 8).
  { apply (f_equal (fun z => Z.shiftr z 8)) in E.
    rewrite !Z.shiftr_lxor, (shiftr8_u8 c2 Hc2), (shiftr8_u8 d2 Hd2),
      !Z.lxor_0_r in E. exact E. }
  unfold t, u in Ehigh. rewrite !crc_ccitt_byte_high in Ehigh by exact Hcrc.
  apply table_high_inj in Ehigh; try apply land_255_u8.
  assert (Etu : t = u).
  { unfold t, u, crc_ccitt_byte. rewrite Ehigh. reflexivity. }
  split.
  - apply (crc_ccitt_byte_inj_byte crc c1 d1 Hcrc Hc1 Hd1 Etu).
  - rewrite Etu in E. apply lxor_cancel_l in E. exact E.
Qed.

Lemma complement_61624 : complement 61624 = 3911.
Proof. reflexivity. Qed.

Lemma residual_tail (body : list Z) (b1 b2 : Z) :
  is_u8 b1 -> is_u8 b2 ->
  residual (body ++ [b1; b2]) = 3911
  <-> [b1; b2] = le16_bytes (complement (crc_ccitt 65535 body (Z.of_nat (length body)))).
Proof.
  intros H1 H2. rewrite residual_fold, fold_left_app.
  unfold crc_ccitt. rewrite Nat2Z.id, firstn_all.
  set (s := fold_left crc_ccitt_byte body 65535).
  assert (Hs : is_u16 s) by (apply fold_crc_u16; unfold is_u16; lia).
  pose proof (fed_back s Hs) as Hfb.
  pose proof (le16_bytes_u8 (complement s) (complement_u16 s Hs)) as Hle.
  unfold le16_bytes in *. inversion Hle as [| ? ? Hl1 Hl]; subst.
  inversion Hl as [| ? ? Hl2 _]; subst.
  split.
  - intros E. rewrite <- complement_61624 in E.
    apply complement_inj in E;
      [| do 2 apply crc_ccitt_byte_u16; exact Hs | unfold is_u16; lia].
    simpl in E, Hfb. rewrite <- Hfb in E.
    apply two_steps_inj in E; auto. destruct E as [-> ->]. reflexivity.
  - intros E. inversion E; subst. simpl in *. rewrite Hfb. reflexivity.
Qed.

End ChecksumProofs.

(** X4. What passes the checksum test.  A packet of at least 4 bytes gets
    past the discards of [wimod_process_packet] exactly when its last two
    bytes are, low byte first, the complemented CRC of the bytes before
    them: the same value [wimod_hci_send] appends. *)
Theorem checksum_test_accepts_iff (kzalloc : Z -> bool) (wmdev : wimod_device)
    (body : list Z) (b1 b2 : Z) :
  is_u8 b1 -> is_u8 b2 -> (2 <= length body)%nat ->
  (accepted (snd (wimod_process_packet kzalloc wmdev (body ++ [b1; b2])
                    (Z.of_nat (length body) + 2))) = true
   <-> [b1; b2]
       = le16_bytes (CRC.complement
                       (CRC.crc_ccitt 65535 body (Z.of_nat (length body))))) /\
  (forall dst msg payload,
      body = dst :: msg :: payload ->
      le16_bytes (CRC.complement (CRC.crc_ccitt 65535 body (Z.of_nat (length body))))
      = le16_bytes (hci_fcs dst msg payload (Z.of_nat (length payload)))).
Proof.
  intros H1 H2 Hlen. split.
  - rewrite process_packet_accepted_iff by lia.
    replace (Z.to_nat (Z.of_nat (length body) + 2)) with (length (body ++ [b1; b2]))
      by (rewrite length_app; simpl length; lia).
    rewrite firstn_all. apply ChecksumProofs.residual_tail; assumption.
  - intros dst msg payload ->. f_equal.
    rewrite CRCProofs.hci_fcs_register. unfold CRCFacts.fcs_register, CRC.crc_ccitt.
    rewrite Nat2Z.id, firstn_all. reflexivity.
Qed.

Lemma checksum_test_accepts_iff_witness :
  accepted (snd (wimod_process_packet (fun _ => true)
                   (wimod_device_init (mk_serdev [] []))
                   ([1; 2; 0] ++ [160; 175]) (Z.of_nat (length [1; 2; 0]) + 2)))
  = true.
Proof.
  apply (proj1 (checksum_test_accepts_iff (fun _ => true)
                  (wimod_device_init (mk_serdev [] [])) [1; 2; 0] 160 175
                  ltac:(unfold is_u8; lia) ltac:(unfold is_u8; lia)
                  ltac:(simpl; lia))).
  reflexivity.
Defined.

Module DetectionProofs.
Import CRC CRCFacts CRCProofs ChecksumProofs.

Lemma split_pair (l : list Z) (i : nat) :
  (i + 2 <= length l)%nat ->
  l = firstn i l ++ nth i l 0 :: nth (S i) l 0 :: skipn (i + 2) l.
Proof.
  revert i. induction l as [| c l IH]; intros [| i] H; simpl in *; try lia.
  - destruct l as [| d l]; simpl in *; [lia | reflexivity].
  - f_equal. apply IH. lia.
Qed.

Lemma Forall_skipn (P : Z -> Prop) (l : list Z) (n : nat) :
  Forall P l -> Forall P (skipn n l).
Proof.
  intros H. rewrite Forall_forall in *. intros x Hx. apply H.
  rewrite <- (firstn_skipn n l). apply in_or_app. right. exact Hx.
Qed.

(** Two adjacent bytes replaced change the register, unless they are
    replaced by themselves. *)
Lemma fold_crc_pair (l : list Z) (i : nat) (d1 d2 crc : Z) :
  Forall is_u8 l -> (i + 2 <= length l)%nat -> is_u8 d1 -> is_u8 d2 ->
  is_u16 crc ->
  fold_left crc_ccitt_byte (firstn i l ++ d1 :: d2 :: skipn (i + 2) l) crc
  = fold_left crc_ccitt_byte l crc ->
  d1 = nth i l 0 /\ d2 = nth (S i) l 0.
Proof.
  intros Hl Hi H1 H2 Hcrc E.
  rewrite (split_pair l i Hi) in E at 3.
  rewrite !fold_left_app in E. simpl in E.
  set (s := fold_left crc_ccitt_byte (firstn i l) crc) in E.
  assert (Hs : is_u16 s) by (apply fold_crc_u16, Hcrc).
  apply fold_crc_inj in E;
    [| apply Forall_skipn, Hl
     | do 2 apply crc_ccitt_byte_u16; exact Hs
     | do 2 apply crc_ccitt_byte_u16; exact Hs].
  rewrite Forall_forall in Hl.
  apply two_steps_inj in E; auto; apply Hl, nth_In; lia.
Qed.

End DetectionProofs.

(** X5. Damage confined to two adjacent bytes is always caught.  A packet
    of bytes that passes the checksum test, with the bytes at positions
    [i] and [i + 1] replaced by any other pair of bytes, no longer passes
    it: [wimod_process_packet] leaves the device as it was and calls no
    handler. *)
Theorem adjacent_bytes_damage_discarded (kzalloc : Z -> bool)
    (wmdev : wimod_device) (l : list Z) (i : nat) (d1 d2 : Z) :
  Forall is_u8 l -> CRCFacts.residual l = 3911 ->
  (i + 2 <= length l)%nat -> is_u8 d1 -> is_u8 d2 ->
  (d1, d2) <> (nth i l 0, nth (S i) l 0) ->
  let damaged := firstn i l ++ d1 :: d2 :: skipn (i + 2) l in
  CRCFacts.residual damaged <> 3911 /\
  fst (wimod_process_packet kzalloc wmdev damaged (Z.of_nat (length damaged)))
  = wmdev /\
  dispatches (snd (wimod_process_packet kzalloc wmdev damaged
                     (Z.of_nat (length damaged)))) = [].
Proof.
  intros Hl Hres Hi H1 H2 Hne damaged.
  assert (Hbad : CRCFacts.residual damaged <> 3911).
  { intros E. rewrite <- Hres in E. rewrite !CRCProofs.residual_fold in E.
    apply CRCProofs.complement_inj in E;
      [| apply CRCProofs.fold_crc_u16; unfold is_u16; lia
       | apply CRCProofs.fold_crc_u16; unfold is_u16; lia].
    apply DetectionProofs.fold_crc_pair in E; auto; [| unfold is_u16; lia].
    destruct E as [-> ->]. apply Hne. reflexivity. }
  split; [exact Hbad |].
  destruct (Z.lt_ge_cases (Z.of_nat (length damaged)) 4) as [Hs | Hs].
  - rewrite process_packet_short by exact Hs. split; reflexivity.
  - rewrite process_packet_bad_checksum;
      [split; reflexivity | lia | rewrite Nat2Z.id, firstn_all; exact Hbad].
Qed.

Lemma adjacent_bytes_damage_discarded_witness :
  CRCFacts.residual ([1; 2] ++ 9 :: 9 :: skipn 4 [1; 2; 0; 160; 175]) <> 3911.
Proof.
  apply (adjacent_bytes_damage_discarded (fun _ => true)
           (wimod_device_init (mk_serdev [] [])) [1; 2; 0; 160; 175] 2 9 9).
  - repeat (constructor; [unfold is_u8; lia |]). constructor.
  - reflexivity.
  - simpl. lia.
  - unfold is_u8. lia.
  - unfold is_u8. lia.
  - discriminate.
Defined.

(** ** More on the receive loop *)

Section ReceiveMore.
Variable kzalloc : Z -> bool.

Lemma receive_loop_shift (rest lit : list Z) (w : wimod_device) (len d : Z)
    (x : receive_exit) :
  receive_loop kzalloc w lit rest len = Some x ->
  receive_loop kzalloc w lit rest (len + d)
  = Some (mk_exit (exit_len x + d) (exit_data x) (exit_dev x) (exit_trace x)).
Proof.
  revert lit w len x. induction rest as [| c rest IH]; intros lit w len x Hx.
  - simpl in *. inversion Hx; subst. reflexivity.
  - rewrite receive_loop_step in *.
    destruct (loop_step kzalloc w lit c) as [| | w' tr |].
    + inversion Hx; subst. reflexivity.
    + apply IH, Hx.
    + destruct (receive_loop kzalloc w' [] rest (len + (Z.of_nat (length lit) + 1)))
        as [y |] eqn:Hy; [| discriminate].
      apply (IH _ _ _ _) in Hy.
      replace (len + d + (Z.of_nat (length lit) + 1))
        with (len + (Z.of_nat (length lit) + 1) + d) by lia.
      rewrite Hy. simpl in *. inversion Hx; subst. reflexivity.
    + discriminate.
Qed.

(** What is left unconsumed is a literal run, with more behind it only when
    the buffer cannot take the run. *)
Lemma exit_tail (rest lit : list Z) (w : wimod_device) (len : Z) (x : receive_exit) :
  loop_inv w lit ->
  receive_loop kzalloc w lit rest len = Some x ->
  exists lit' rest',
    exit_data x = lit' ++ rest' /\
    loop_inv (exit_dev x) lit' /\
    (rest' = [] \/
     WIMOD_HCI_PACKET_MAX - rx_len (exit_dev x) <= Z.of_nat (length lit')).
Proof.
  revert lit w len x. induction rest as [| c rest IH]; intros lit w len x Hinv Hx.
  - simpl in Hx. inversion Hx; subst. exists lit, []. simpl. auto.
  - rewrite receive_loop_step in Hx.
    pose proof (step_inv kzalloc w lit c Hinv) as Hs.
    destruct (loop_step kzalloc w lit c) as [| | w' tr |].
    + inversion Hx; subst. exists lit, (c :: rest). simpl. auto.
    + eapply IH; eauto.
    + destruct (receive_loop kzalloc w' [] rest (len + (Z.of_nat (length lit) + 1)))
        as [y |] eqn:Hy; [| discriminate].
      simpl in Hx. inversion Hx; subst. simpl.
      eapply IH; [apply loop_inv_start, Hs | exact Hy].
    + discriminate.
Qed.

(** One framed packet, with more input behind it. *)
Lemma receive_framed (pkt more : list Z) (w : wimod_device) (len : Z) :
  rx_wf w -> rx_len w = 0 -> rx_esc w = false ->
  pkt <> [] -> Z.of_nat (length pkt) < WIMOD_HCI_PACKET_MAX ->
  receive_loop kzalloc w [] (framed pkt ++ more) len
  = emit (snd (wimod_process_packet kzalloc (rx_load w pkt)
                 (rx_buf (rx_load w pkt)) (Z.of_nat (length pkt))))
      (receive_loop kzalloc
         (set_rx_len 0
            (fst (wimod_process_packet kzalloc (rx_load w pkt)
                    (rx_buf (rx_load w pkt)) (Z.of_nat (length pkt)))))
         [] more (len + Z.of_nat (length (framed pkt)))).
Proof.
  intros Hwf Hlen Hesc Hne Hfit.
  rewrite receive_loop_split by (apply loop_inv_start, Hwf).
  pose proof (receive_frame kzalloc pkt w Hwf Hlen Hesc Hne Hfit) as Hrx.
  apply (receive_loop_shift _ _ _ 0 len) in Hrx.
  change (0 + len) with len in Hrx. unfold framed. rewrite Hrx.
  cbn [resume exit_trace exit_dev exit_data exit_len app].
  f_equal. f_equal. lia.
Qed.

Lemma rx_wf_after_packet (w : wimod_device) (data : list Z) (len : Z) :
  rx_wf w ->
  rx_wf (set_rx_len 0 (fst (wimod_process_packet kzalloc w data len))).
Proof.
  intros [Hb Hl]. destruct (process_packet_rx kzalloc w data len) as (_ & Eb & _).
  unfold rx_wf. cbn [set_rx_len rx_buf rx_len]. rewrite Eb.
  split; [exact Hb | lia].
Qed.

Lemma frames_loop (pkts : list (list Z)) (w : wimod_device) (len : Z) :
  rx_wf w -> rx_len w = 0 -> rx_esc w = false ->
  Forall (fun p => p <> [] /\ Z.of_nat (length p) < WIMOD_HCI_PACKET_MAX) pkts ->
  exists w' tr,
    receive_loop kzalloc w [] (frames_stream pkts) len
    = Some (mk_exit (len + Z.of_nat (length (frames_stream pkts))) [] w' tr) /\
    processed tr = pkts /\
    rx_wf w' /\ rx_len w' = 0 /\ rx_esc w' = false /\ serdev w' = serdev w.
Proof.
  revert w len. induction pkts as [| p ps IH]; intros w len Hwf Hlen Hesc Hall.
  - exists w, []. simpl. rewrite Z.add_0_r.
    repeat split; try assumption; apply Hwf.
  - inversion Hall as [| ? ? [Hne Hfit] Hps]; subst.
    change (frames_stream (p :: ps)) with (framed p ++ frames_stream ps).
    rewrite receive_framed by assumption.
    set (P := wimod_process_packet kzalloc (rx_load w p) (rx_buf (rx_load w p))
                (Z.of_nat (length p))).
    destruct (process_packet_rx kzalloc (rx_load w p) (rx_buf (rx_load w p))
                (Z.of_nat (length p))) as (Es & Eb & El & Ee).
    fold P in Es, Eb, El, Ee.
    destruct (IH (set_rx_len 0 (fst P)) (len + Z.of_nat (length (framed p))))
      as (w' & tr & Hrx & Hp & Hwf' & Hl' & He' & Hs'); auto.
    + apply rx_wf_after_packet, rx_load_wf; [exact Hwf | lia].
    + cbn [set_rx_len rx_esc]. rewrite Ee. exact Hesc.
    + rewrite Hrx. cbn [emit exit_len exit_data exit_dev exit_trace].
      exists w', (snd P ++ tr). split; [f_equal; f_equal; rewrite length_app; lia |].
      split.
      * rewrite processed_app. unfold P. rewrite processed_process_packet.
        rewrite Nat2Z.id, rx_load_buf_firstn, Hp. reflexivity.
      * split; [exact Hwf' |]. split; [exact Hl' |]. split; [exact He' |].
        rewrite Hs'. cbn [set_rx_len serdev]. rewrite Es. reflexivity.
Qed.

End ReceiveMore.

(** X6. Chunking never matters, whatever the bytes.  From any well-formed
    device, the chunks of any byte sequence handed to [wimod_receive_buf]
    one after the other, each call being given again in front of its chunk
    what the call before did not consume, leave the same device and the same
    trace as the sequence handed over in one call, and leave unconsumed what
    that one call leaves. *)
Theorem chunking_never_matters (kzalloc : Z -> bool) (wmdev : wimod_device)
    (chunks : list (list Z)) :
  rx_wf wmdev ->
  exists n wmdev' tr,
    wimod_receive_buf kzalloc wmdev (concat chunks) = Some (n, wmdev', tr) /\
    receive_chunks kzalloc wmdev [] chunks
    = Some (wmdev', skipn (Z.to_nat n) (concat chunks), tr).
Proof.
  intros Hwf.
  destruct (receive_loop_safe kzalloc (concat chunks) [] wmdev 0
              (loop_inv_start wmdev Hwf)) as (x & Hx & _).
  exists (exit_len x), (exit_dev x), (exit_trace x).
  unfold wimod_receive_buf. rewrite Hx. split; [reflexivity |].
  rewrite receive_chunks_whole by (auto; reflexivity).
  change ([] ++ concat chunks) with (concat chunks). rewrite Hx.
  destruct (exit_data_skipn kzalloc _ _ _ Hx) as [Hskip _]. rewrite Hskip.
  reflexivity.
Qed.

Lemma chunking_never_matters_witness :
  exists n wmdev' tr,
    wimod_receive_buf (fun _ => true) (wimod_device_init (mk_serdev [] []))
      (concat [[1; 2; 219]; [220; 3]; []; [192; 7]]) = Some (n, wmdev', tr) /\
    receive_chunks (fun _ => true) (wimod_device_init (mk_serdev [] [])) []
      [[1; 2; 219]; [220; 3]; []; [192; 7]]
    = Some (wmdev', skipn (Z.to_nat n) (concat [[1; 2; 219]; [220; 3]; []; [192; 7]]), tr).
Proof.
  apply (chunking_never_matters (fun _ => true) (wimod_device_init (mk_serdev [] []))
           [[1; 2; 219]; [220; 3]; []; [192; 7]]).
  split; [reflexivity | vm_compute; split; discriminate].
Defined.

(** X7. What a call consumes.  The count [wimod_receive_buf] returns lies
    between 0 and the count it was given.  The bytes behind it are a run of
    bytes that are neither END nor ESC, and the run is followed by more only
    when it fills what is free of the buffer; with such a run left, no
    escape is pending. *)
Theorem receive_buf_consumed (kzalloc : Z -> bool) (wmdev wmdev' : wimod_device)
    (data : list Z) (n : Z) (tr : list event) :
  rx_wf wmdev ->
  wimod_receive_buf kzalloc wmdev data = Some (n, wmdev', tr) ->
  0 <= n <= Z.of_nat (length data) /\
  rx_wf wmdev' /\
  exists lit rest,
    skipn (Z.to_nat n) data = lit ++ rest /\
    Forall (fun c => c <> SLIP_END /\ c <> SLIP_ESC) lit /\
    (rest = [] \/
     Z.of_nat (length lit) = WIMOD_HCI_PACKET_MAX - rx_len wmdev') /\
    (lit <> [] -> rx_esc wmdev' = false).
Proof.
  intros Hwf Hrx. unfold wimod_receive_buf in Hrx.
  destruct (receive_loop kzalloc wmdev [] data 0) as [x |] eqn:Hx; [| discriminate].
  inversion Hrx; subst.
  destruct (exit_data_skipn kzalloc _ _ _ Hx) as [Hskip Hn].
  destruct (exit_tail kzalloc data [] wmdev 0 x (loop_inv_start wmdev Hwf) Hx)
    as (lit & rest & Hd & (Hwf' & Hlit & Hroom & Hesc) & Hfull).
  split; [exact Hn |]. split; [exact Hwf' |].
  exists lit, rest. split; [rewrite Hskip; exact Hd |].
  split.
  - eapply Forall_impl; [| exact Hlit]. intros c Hc. unfold literal in Hc.
    apply andb_prop in Hc. destruct Hc as [H1 H2].
    apply negb_true_iff in H1, H2. apply Z.eqb_neq in H1, H2.
    split; assumption.
  - split; [destruct Hfull as [? | ?]; [auto | right; lia] |].
    intros Hne. destruct (rx_esc (exit_dev x)); [| reflexivity].
    specialize (Hesc eq_refl). contradiction.
Qed.

Lemma receive_buf_consumed_witness :
  0 <= 1 <= Z.of_nat (length [192; 1; 2]) /\
  rx_wf (wimod_device_init (mk_serdev [] [])).
Proof.
  destruct (receive_buf_consumed (fun _ => true)
              (wimod_device_init (mk_serdev [] []))
              (wimod_device_init (mk_serdev [] [])) [192; 1; 2] 1 [])
    as (Hn & Hwf & _).
  - split; [reflexivity | vm_compute; split; discriminate].
  - vm_compute. reflexivity.
  - split; [exact Hn | exact Hwf].
Defined.

(** X8. No delimiter, nothing consumed.  With no escape pending, input in
    which no END or ESC comes before what is free of the buffer is used up
    is not consumed at all: [wimod_receive_buf] returns 0 and leaves the
    device as it was.  With the buffer full this is so for any input, so a
    full buffer is never emptied again. *)
Theorem receive_buf_idle (kzalloc : Z -> bool) (wmdev : wimod_device)
    (data : list Z) :
  rx_wf wmdev ->
  rx_esc wmdev = false \/ rx_len wmdev = WIMOD_HCI_PACKET_MAX ->
  Forall (fun c => literal c = true)
         (firstn (Z.to_nat (WIMOD_HCI_PACKET_MAX - rx_len wmdev)) data) ->
  wimod_receive_buf kzalloc wmdev data = Some (0, wmdev, []).
Proof.
  intros Hwf Hstate Hlit.
  set (room := Z.to_nat (WIMOD_HCI_PACKET_MAX - rx_len wmdev)) in *.
  assert (Hroom : Z.of_nat room = WIMOD_HCI_PACKET_MAX - rx_len wmdev).
  { unfold room. destruct Hwf as [_ Hl]. lia. }
  assert (Hinv : loop_inv wmdev ([] ++ firstn room data)).
  { split; [exact Hwf |]. split; [exact Hlit |]. split.
    - cbn [app]. rewrite length_firstn. lia.
    - intros He. destruct Hstate as [Hs | Hs]; [congruence |].
      replace room with 0%nat by lia. reflexivity. }
  unfold wimod_receive_buf.
  rewrite <- (firstn_skipn room data) at 1.
  rewrite (rescan kzalloc (firstn room data) [] (skipn room data) wmdev 0 Hinv).
  simpl app.
  destruct (skipn room data) as [| c more] eqn:Hmore.
  - reflexivity.
  - rewrite receive_loop_step, step_halt; [reflexivity | exact Hwf |].
    rewrite length_firstn.
    assert (Hlen : (room < length data)%nat).
    { destruct (Nat.lt_ge_cases room (length data)) as [H | H]; [exact H |].
      rewrite skipn_all2 in Hmore by exact H. discriminate. }
    lia.
Qed.

Lemma receive_buf_idle_witness :
  wimod_receive_buf (fun _ => true) (wimod_device_init (mk_serdev [] []))
    [1; 2; 3]
  = Some (0, wimod_device_init (mk_serdev [] []), []).
Proof.
  apply receive_buf_idle.
  - split; [reflexivity | vm_compute; split; discriminate].
  - left. reflexivity.
  - repeat constructor.
Defined.

(** X9. A byte after ESC that is neither ESC_END nor ESC_ESC is dropped
    together with the ESC, be it an END: from a device with no escape
    pending and room in its buffer, input that starts with such a pair does
    what the input behind the pair does, two more bytes being counted and
    the diagnostic put in front. *)
Theorem unknown_escape_dropped (kzalloc : Z -> bool) (wmdev : wimod_device)
    (c : Z) (rest : list Z) :
  rx_wf wmdev -> rx_esc wmdev = false -> rx_len wmdev < WIMOD_HCI_PACKET_MAX ->
  c <> SLIP_ESC_END -> c <> SLIP_ESC_ESC ->
  exists n wmdev' tr,
    wimod_receive_buf kzalloc wmdev rest = Some (n, wmdev', tr) /\
    wimod_receive_buf kzalloc wmdev (SLIP_ESC :: c :: rest)
    = Some (n + 2, wmdev', Unknown_escape c :: tr).
Proof.
  intros Hwf Hesc Hroom Hc1 Hc2.
  destruct (receive_loop_safe kzalloc rest [] wmdev 0 (loop_inv_start wmdev Hwf))
    as (x & Hx & _).
  exists (exit_len x), (exit_dev x), (exit_trace x).
  unfold wimod_receive_buf. rewrite Hx. split; [reflexivity |].
  rewrite receive_loop_step, step_delim; try assumption; try reflexivity;
    [| cbn [length]; lia].
  rewrite app_nil_r, rx_load_content by exact Hwf.
  unfold delimited. change (SLIP_ESC =? SLIP_END) with false.
  change (SLIP_ESC =? SLIP_ESC) with true. cbn [andb fst snd length].
  rewrite emit_nil, receive_loop_step, step_escaped;
    [| exact Hwf | reflexivity | exact Hroom].
  unfold unescaped, unescaped_trace.
  apply Z.eqb_neq in Hc1, Hc2. rewrite Hc1, Hc2.
  change (set_rx_esc false (set_rx_esc true wmdev)) with (set_rx_esc false wmdev).
  rewrite set_rx_esc_same by exact Hesc.
  apply (receive_loop_shift kzalloc _ _ _ 0 2) in Hx.
  change (0 + (Z.of_nat 0 + 1) + (Z.of_nat (length (@nil Z)) + 1)) with (0 + 2).
  rewrite Hx. reflexivity.
Qed.

Lemma unknown_escape_dropped_witness :
  exists n wmdev' tr,
    wimod_receive_buf (fun _ => true) (wimod_device_init (mk_serdev [] []))
      [1; 2; 192] = Some (n, wmdev', tr) /\
    wimod_receive_buf (fun _ => true) (wimod_device_init (mk_serdev [] []))
      (SLIP_ESC :: SLIP_END :: [1; 2; 192])
    = Some (n + 2, wmdev', Unknown_escape SLIP_END :: tr).
Proof.
  apply (unknown_escape_dropped (fun _ => true)
           (wimod_device_init (mk_serdev [] [])) SLIP_END [1; 2; 192]).
  - split; [reflexivity | vm_compute; split; discriminate].
  - reflexivity.
  - vm_compute. reflexivity.
  - discriminate.
  - discriminate.
Defined.

(** X10. Packets in a row.  Any sequence of packets, each non-empty and
    shorter than the buffer, each escaped and put between two ENDs, and
    handed to [wimod_receive_buf] in one call with the buffer empty: all
    bytes are consumed and [wimod_process_packet] is entered on exactly
    these packets, in their order, none lost, split or merged; the buffer
    is empty again and the transport untouched. *)
Theorem packets_in_a_row (kzalloc : Z -> bool) (wmdev : wimod_device)
    (pkts : list (list Z)) :
  rx_wf wmdev -> rx_len wmdev = 0 -> rx_esc wmdev = false ->
  Forall (fun p => p <> [] /\ Z.of_nat (length p) < WIMOD_HCI_PACKET_MAX) pkts ->
  exists wmdev' tr,
    wimod_receive_buf kzalloc wmdev (frames_stream pkts)
    = Some (Z.of_nat (length (frames_stream pkts)), wmdev', tr) /\
    processed tr = pkts /\
    rx_len wmdev' = 0 /\ rx_esc wmdev' = false /\ serdev wmdev' = serdev wmdev.
Proof.
  intros Hwf Hlen Hesc Hall.
  destruct (frames_loop kzalloc pkts wmdev 0 Hwf Hlen Hesc Hall)
    as (w' & tr & Hrx & Hp & _ & Hl & He & Hs).
  exists w', tr. unfold wimod_receive_buf. rewrite Hrx.
  split; [reflexivity |]. auto.
Qed.

Lemma packets_in_a_row_witness :
  exists wmdev' tr,
    wimod_receive_buf (fun _ => true) (wimod_device_init (mk_serdev [] []))
      (frames_stream [[1; 192; 3]; [219]; hci_frame 1 2 [0]])
    = Some (Z.of_nat (length (frames_stream [[1; 192; 3]; [219]; hci_frame 1 2 [0]])),
            wmdev', tr) /\
    processed tr = [[1; 192; 3]; [219]; hci_frame 1 2 [0]] /\
    rx_len wmdev' = 0 /\ rx_esc wmdev' = false /\
    serdev wmdev' = mk_serdev [] [].
Proof.
  apply (packets_in_a_row (fun _ => true) (wimod_device_init (mk_serdev [] []))
           [[1; 192; 3]; [219]; hci_frame 1 2 [0]]).
  - split; [reflexivity | vm_compute; split; discriminate].
  - reflexivity.
  - reflexivity.
  - repeat (constructor; [split; [discriminate | vm_compute; reflexivity] |]).
    constructor.
Defined.

(** ** What the receive path does to the dispatcher list *)

Section RegistryProofs.
Variable kzalloc : Z -> bool.

(** A property of the list kept by every scan on a packet that lies within
    its buffer is kept by the loop. *)
Variable P : list dispatcher_entry -> Prop.
Hypothesis P_scan :
  forall es data len,
    4 <= len <= Z.of_nat (length data) -> P es ->
    P (fst (dispatch_scan kzalloc es data len)).

Lemma process_packet_keeps (w : wimod_device) (data : list Z) (len : Z) :
  len <= Z.of_nat (length data) -> P (packet_dispatchers w) ->
  P (packet_dispatchers (fst (wimod_process_packet kzalloc w data len))) /\
  serdev (fst (wimod_process_packet kzalloc w data len)) = serdev w.
Proof.
  intros Hlen H. unfold wimod_process_packet.
  destruct (Z.ltb_spec len 4); [auto |].
  destruct (negb _); [auto |].
  pose proof (P_scan (packet_dispatchers w) data len ltac:(lia) H) as Hs.
  destruct (dispatch_scan kzalloc (packet_dispatchers w) data len).
  auto.
Qed.

Lemma step_keeps (w : wimod_device) (lit : list Z) (c : Z) :
  loop_inv w lit -> P (packet_dispatchers w) ->
  match loop_step kzalloc w lit c with
  | Consume w' _ => P (packet_dispatchers w') /\ serdev w' = serdev w
  | _ => True
  end.
Proof.
  intros (Hwf & Hlit & Hroom & Hesc) HP.
  destruct (Z.lt_ge_cases (Z.of_nat (length lit)) (WIMOD_HCI_PACKET_MAX - rx_len w))
    as [Hlt | Hge]; [| rewrite step_halt by auto; exact I].
  destruct (rx_esc w) eqn:He.
  - rewrite (Hesc eq_refl) in *. cbn [length] in *.
    rewrite step_escaped by (auto; lia).
    unfold unescaped.
    destruct (c =? SLIP_ESC_END); [auto |].
    destruct (c =? SLIP_ESC_ESC); auto.
  - destruct (literal c) eqn:Hc; [rewrite step_scan by auto; exact I |].
    rewrite step_delim by auto. unfold delimited.
    set (w1 := rx_load w (content w ++ lit)).
    assert (Hwf1 : rx_wf w1).
    { apply rx_load_wf; [exact Hwf |].
      rewrite length_app, content_length by exact Hwf. destruct Hwf. lia. }
    assert (HP1 : P (packet_dispatchers w1)) by exact HP.
    destruct ((c =? SLIP_END) && (0 <? rx_len w1)).
    + cbn [fst]. destruct Hwf1 as [Hb Hl].
      destruct (process_packet_keeps w1 (rx_buf w1) (rx_len w1)) as [H1 H2];
        [rewrite Hb; lia | exact HP1 |].
      split; [exact H1 | exact H2].
    + destruct (c =? SLIP_ESC); auto.
Qed.

Lemma receive_loop_keeps (rest lit : list Z) (w : wimod_device) (len : Z)
    (x : receive_exit) :
  loop_inv w lit -> P (packet_dispatchers w) ->
  receive_loop kzalloc w lit rest len = Some x ->
  P (packet_dispatchers (exit_dev x)) /\ serdev (exit_dev x) = serdev w.
Proof.
  revert lit w len x. induction rest as [| c rest IH]; intros lit w len x Hinv HP Hx.
  - simpl in Hx. inversion Hx; subst. auto.
  - rewrite receive_loop_step in Hx.
    pose proof (step_inv kzalloc w lit c Hinv) as Hs.
    pose proof (step_keeps w lit c Hinv HP) as Hk.
    destruct (loop_step kzalloc w lit c) as [| | w' tr |].
    + inversion Hx; subst. auto.
    + eapply IH; eauto.
    + destruct (receive_loop kzalloc w' [] rest (len + (Z.of_nat (length lit) + 1)))
        as [y |] eqn:Hy; [| discriminate].
      simpl in Hx. inversion Hx; subst. cbn [exit_dev].
      destruct Hk as [HP' Hs'].
      destruct (IH [] w' _ y (loop_inv_start w' Hs) HP' Hy) as [H1 H2].
      split; [exact H1 | congruence].
    + discriminate.
Qed.

End RegistryProofs.

Section RegistryInvariants.
Variable kzalloc : Z -> bool.

Lemma completed_from_refl (es : list dispatcher_entry) :
  Forall2 completed_from es es.
Proof.
  induction es as [| e es IH]; constructor; [| exact IH].
  split; [reflexivity | left; reflexivity].
Qed.

Lemma handler_completed_from (e0 : dispatcher_entry) (a : nat)
    (p : wimod_hci_packet_completion) (data : list Z) (len : Z) :
  completed_from e0 (a, p) ->
  completed_from e0 (a, call_dispatchee kzalloc (dispatchee (disp p)) data len p).
Proof.
  intros [Hk Hc]. destruct (dispatchee (disp p)). cbn [call_dispatchee].
  unfold wimod_hci_packet_dispatch_completion.
  destruct (completion_done (comp p)) eqn:Hd; [split; assumption |].
  split; [exact Hk |]. right. cbn [snd comp].
  destruct Hc as [Hc | [_ Hc]]; [| cbn [snd] in Hc; congruence].
  cbn [snd] in Hc. rewrite <- Hc. split; [exact Hd |].
  unfold completion_done, complete in *.
  apply negb_false_iff, Z.eqb_eq in Hd. rewrite Hd. reflexivity.
Qed.

Lemma scan_completed_from (es0 es : list dispatcher_entry) (data : list Z) (len : Z) :
  Forall2 completed_from es0 es ->
  Forall2 completed_from es0 (fst (dispatch_scan kzalloc es data len)).
Proof.
  intros H. induction H as [| e0 [a p] es0 es He Hes IH]; simpl.
  - constructor.
  - destruct ((dst_id (disp p) =? nth 0 data 0) && (msg_id (disp p) =? nth 1 data 0)).
    + simpl. constructor; [| exact Hes]. apply handler_completed_from, He.
    + destruct (dispatch_scan kzalloc es data len). simpl in *.
      constructor; assumption.
Qed.

Lemma handler_slot_sized (data : list Z) (len : Z) (p : wimod_hci_packet_completion) :
  4 <= len + 2 <= Z.of_nat (length data) -> slot_sized p ->
  slot_sized (wimod_hci_packet_dispatch_completion kzalloc data len p).
Proof.
  intros Hlen Hp. unfold wimod_hci_packet_dispatch_completion.
  destruct (completion_done (comp p)); [exact Hp |].
  unfold slot_sized. cbn [payload payload_len]. intros bytes Hb.
  destruct (kzalloc (len - 2)); [| discriminate].
  assert (E : bytes = firstn (Z.to_nat (len - 2)) (skipn 2 data)) by congruence.
  rewrite E, length_firstn, length_skipn. lia.
Qed.

Lemma scan_waiters_sized (es : list dispatcher_entry) (data : list Z) (len : Z) :
  4 <= len <= Z.of_nat (length data) -> waiters_sized es ->
  waiters_sized (fst (dispatch_scan kzalloc es data len)).
Proof.
  intros Hlen. unfold waiters_sized.
  induction es as [| [a p] es IH]; intros H; simpl.
  - constructor.
  - inversion H as [| ? ? Hp Hes]; subst.
    destruct ((dst_id (disp p) =? nth 0 data 0) && (msg_id (disp p) =? nth 1 data 0)).
    + simpl. constructor; [| exact Hes]. simpl.
      destruct (dispatchee (disp p)). apply handler_slot_sized; [lia | exact Hp].
    + specialize (IH Hes).
      destruct (dispatch_scan kzalloc es data len). simpl in *.
      constructor; assumption.
Qed.

(** *** Calls of handlers *)

Lemma dispatch_scan_calls (es : list dispatcher_entry) (data : list Z) (len : Z) :
  forall e, In e (snd (dispatch_scan kzalloc es data len)) ->
  exists a, e = Dispatch a (firstn (Z.to_nat (len - 2)) data).
Proof.
  induction es as [| [a d] es IH]; simpl; intros e He.
  - contradiction.
  - destruct ((dst_id (disp d) =? nth 0 data 0) && (msg_id (disp d) =? nth 1 data 0)).
    + simpl in He. destruct He as [<- | []]. eauto.
    + destruct (dispatch_scan kzalloc es data len). simpl in *. apply IH, He.
Qed.

Lemma dispatch_valid_app (tr tr' : list event) :
  dispatch_valid tr -> dispatch_valid tr' -> dispatch_valid (tr ++ tr').
Proof.
  intros H H' a d Hin. apply in_app_or in Hin.
  destruct Hin as [Hin | Hin].
  - destruct (H a d Hin) as (p & Hp & Hrest). exists p.
    split; [rewrite processed_app; apply in_or_app; left; exact Hp | exact Hrest].
  - destruct (H' a d Hin) as (p & Hp & Hrest). exists p.
    split; [rewrite processed_app; apply in_or_app; right; exact Hp | exact Hrest].
Qed.

Lemma dispatch_valid_nil : dispatch_valid [].
Proof. intros a d []. Qed.

Lemma process_packet_valid_calls (w : wimod_device) (data : list Z) (len : Z) :
  0 <= len <= Z.of_nat (length data) ->
  dispatch_valid (snd (wimod_process_packet kzalloc w data len)).
Proof.
  intros Hlen a d Hin.
  destruct (Z.lt_ge_cases len 4) as [Hs | Hs].
  - rewrite process_packet_short in Hin by exact Hs.
    destruct Hin as [H | [H | []]]; discriminate H.
  - destruct (Z.eq_dec (CRCFacts.residual (firstn (Z.to_nat len) data)) 3911)
      as [Hr | Hr].
    + rewrite process_packet_valid in * by assumption. cbn [snd] in *.
      destruct Hin as [H | Hin]; [discriminate H |].
      apply dispatch_scan_calls in Hin. destruct Hin as (a' & E).
      inversion E; subst.
      exists (firstn (Z.to_nat len) data).
      assert (Hl : length (firstn (Z.to_nat len) data) = Z.to_nat len)
        by (rewrite length_firstn; lia).
      split; [left; reflexivity |]. split; [lia |]. split; [exact Hr |].
      rewrite Hl, firstn_firstn. f_equal. lia.
    + rewrite process_packet_bad_checksum in Hin by assumption.
      destruct Hin as [H | [H | []]]; discriminate H.
Qed.

Lemma step_valid_calls (w : wimod_device) (lit : list Z) (c : Z) :
  loop_inv w lit ->
  match loop_step kzalloc w lit c with
  | Consume _ tr => dispatch_valid tr
  | _ => True
  end.
Proof.
  intros (Hwf & Hlit & Hroom & Hesc).
  destruct (Z.lt_ge_cases (Z.of_nat (length lit)) (WIMOD_HCI_PACKET_MAX - rx_len w))
    as [Hlt | Hge]; [| rewrite step_halt by auto; exact I].
  destruct (rx_esc w) eqn:He.
  - rewrite (Hesc eq_refl) in *. cbn [length] in *.
    rewrite step_escaped by (auto; lia).
    intros a d Hin. unfold unescaped_trace in Hin.
    destruct (c =? SLIP_ESC_END); [contradiction |].
    destruct (c =? SLIP_ESC_ESC); [contradiction |].
    destruct Hin as [H | []]. discriminate H.
  - destruct (literal c) eqn:Hc; [rewrite step_scan by auto; exact I |].
    rewrite step_delim by auto. unfold delimited.
    set (w1 := rx_load w (content w ++ lit)).
    assert (Hwf1 : rx_wf w1).
    { apply rx_load_wf; [exact Hwf |].
      rewrite length_app, content_length by exact Hwf. destruct Hwf. lia. }
    destruct ((c =? SLIP_END) && (0 <? rx_len w1)).
    + cbn [snd]. destruct Hwf1 as [Hb Hl].
      apply process_packet_valid_calls. rewrite Hb. lia.
    + destruct (c =? SLIP_ESC); apply dispatch_valid_nil.
Qed.

Lemma receive_loop_valid_calls (rest lit : list Z) (w : wimod_device) (len : Z)
    (x : receive_exit) :
  loop_inv w lit ->
  receive_loop kzalloc w lit rest len = Some x ->
  dispatch_valid (exit_trace x).
Proof.
  revert lit w len x. induction rest as [| c rest IH]; intros lit w len x Hinv Hx.
  - simpl in Hx. inversion Hx; subst. apply dispatch_valid_nil.
  - rewrite receive_loop_step in Hx.
    pose proof (step_inv kzalloc w lit c Hinv) as Hs.
    pose proof (step_valid_calls w lit c Hinv) as Hv.
    destruct (loop_step kzalloc w lit c) as [| | w' tr |].
    + inversion Hx; subst. apply dispatch_valid_nil.
    + eapply IH; eauto.
    + destruct (receive_loop kzalloc w' [] rest (len + (Z.of_nat (length lit) + 1)))
        as [y |] eqn:Hy; [| discriminate].
      simpl in Hx. inversion Hx; subst. cbn [exit_trace].
      apply dispatch_valid_app; [exact Hv |].
      eapply IH; [apply loop_inv_start, Hs | exact Hy].
    + discriminate.
Qed.

End RegistryInvariants.

(** X11. The receive path only completes.  Whatever the input, a call of
    [wimod_receive_buf] leaves the transport untouched and the dispatcher
    list with the same entries in the same order, same addresses and same
    keys; each waiter is as it was or, if the counter of its completion was
    0 before the call, is completed after it.  So a waiter whose completion
    has fired and has not been consumed is not written by the call.  A
    waiter whose completion was consumed has counter 0 like one that was
    never completed, and nothing more is said of it than of that one. *)
Theorem receive_only_completes (kzalloc : Z -> bool) (wmdev wmdev' : wimod_device)
    (data : list Z) (n : Z) (tr : list event) :
  rx_wf wmdev ->
  wimod_receive_buf kzalloc wmdev data = Some (n, wmdev', tr) ->
  serdev wmdev' = serdev wmdev /\
  Forall2 completed_from (packet_dispatchers wmdev) (packet_dispatchers wmdev').
Proof.
  intros Hwf Hrx. unfold wimod_receive_buf in Hrx.
  destruct (receive_loop kzalloc wmdev [] data 0) as [x |] eqn:Hx; [| discriminate].
  inversion Hrx; subst.
  destruct (receive_loop_keeps kzalloc
              (Forall2 completed_from (packet_dispatchers wmdev))
              (fun es d l _ H => scan_completed_from kzalloc _ es d l H)
              data [] wmdev 0 x (loop_inv_start wmdev Hwf)
              (completed_from_refl _) Hx) as [H1 H2].
  split; assumption.
Qed.

Lemma receive_only_completes_witness :
  Forall2 completed_from
    [(1%nat, new_packet 1 2); (2%nat, new_packet 1 4)]
    [(1%nat, mk_packet (disp (new_packet 1 2)) (mk_completion 1) (Some [0]) 1);
     (2%nat, new_packet 1 4)].
Proof.
  refine (proj2 (receive_only_completes (fun _ => true)
            (wimod_hci_add_dispatcher
               (wimod_hci_add_dispatcher (wimod_device_init (mk_serdev [] []))
                  (1%nat, new_packet 1 2)) (2%nat, new_packet 1 4))
            (set_rx_len 0 (set_packet_dispatchers
               [(1%nat, mk_packet (disp (new_packet 1 2)) (mk_completion 1) (Some [0]) 1);
                (2%nat, new_packet 1 4)]
               (rx_load (wimod_device_init (mk_serdev [] [])) (hci_frame 1 2 [0]))))
            (framed (hci_frame 1 2 [0])) 7
            [Processing (hci_frame 1 2 [0]); Dispatch 1 [1; 2; 0]] _ _)).
  - split; [reflexivity | vm_compute; split; discriminate].
  - vm_compute. reflexivity.
Defined.

(** X12. Only checked packets reach a handler.  Whatever the input,
    every call of a handler in a call of [wimod_receive_buf] is on the
    bytes, less the last two, of a packet of at least 4 bytes whose
    complemented CRC is 0x0f47. *)
Theorem only_checked_packets_dispatched (kzalloc : Z -> bool)
    (wmdev wmdev' : wimod_device) (data : list Z) (n : Z) (tr : list event) :
  rx_wf wmdev ->
  wimod_receive_buf kzalloc wmdev data = Some (n, wmdev', tr) ->
  dispatch_valid tr.
Proof.
  intros Hwf Hrx. unfold wimod_receive_buf in Hrx.
  destruct (receive_loop kzalloc wmdev [] data 0) as [x |] eqn:Hx; [| discriminate].
  inversion Hrx; subst.
  eapply receive_loop_valid_calls; [apply loop_inv_start, Hwf | exact Hx].
Qed.

Lemma only_checked_packets_dispatched_witness :
  dispatch_valid [Processing (hci_frame 1 2 [0]); Dispatch 1 [1; 2; 0]].
Proof.
  apply (only_checked_packets_dispatched (fun _ => true)
           (wimod_hci_add_dispatcher (wimod_device_init (mk_serdev [] []))
              (1%nat, new_packet 1 2))
           (set_rx_len 0 (set_packet_dispatchers
              [(1%nat, mk_packet (disp (new_packet 1 2)) (mk_completion 1) (Some [0]) 1)]
              (rx_load (wimod_device_init (mk_serdev [] [])) (hci_frame 1 2 [0]))))
           (framed (hci_frame 1 2 [0])) 7).
  - split; [reflexivity | vm_compute; split; discriminate].
  - vm_compute. reflexivity.
Defined.

(** X13. Payload slots are as long as they say.  If every payload slot on
    the dispatcher list holds [payload_len] bytes before a call of
    [wimod_receive_buf], so it is after it, whatever the input and whether
    or not allocations succeed. *)
Theorem payload_slots_sized (kzalloc : Z -> bool) (wmdev wmdev' : wimod_device)
    (data : list Z) (n : Z) (tr : list event) :
  rx_wf wmdev -> waiters_sized (packet_dispatchers wmdev) ->
  wimod_receive_buf kzalloc wmdev data = Some (n, wmdev', tr) ->
  waiters_sized (packet_dispatchers wmdev').
Proof.
  intros Hwf Hsz Hrx. unfold wimod_receive_buf in Hrx.
  destruct (receive_loop kzalloc wmdev [] data 0) as [x |] eqn:Hx; [| discriminate].
  inversion Hrx; subst.
  apply (receive_loop_keeps kzalloc waiters_sized
           (scan_waiters_sized kzalloc)
           data [] wmdev 0 x (loop_inv_start wmdev Hwf) Hsz Hx).
Qed.

Lemma payload_slots_sized_witness :
  waiters_sized
    [(1%nat, mk_packet (disp (new_packet 1 2)) (mk_completion 1) (Some [0]) 1)].
Proof.
  apply (payload_slots_sized (fun _ => true)
           (wimod_hci_add_dispatcher (wimod_device_init (mk_serdev [] []))
              (1%nat, new_packet 1 2))
           (set_rx_len 0 (set_packet_dispatchers
              [(1%nat, mk_packet (disp (new_packet 1 2)) (mk_completion 1) (Some [0]) 1)]
              (rx_load (wimod_device_init (mk_serdev [] [])) (hci_frame 1 2 [0]))))
           (framed (hci_frame 1 2 [0])) 7
           [Processing (hci_frame 1 2 [0]); Dispatch 1 [1; 2; 0]]).
  - split; [reflexivity | vm_compute; split; discriminate].
  - constructor; [| constructor]. intros bytes H. discriminate H.
  - vm_compute. reflexivity.
Defined.

(** ** Registering, answering, unregistering *)

Lemma filter_unregistered (es : list dispatcher_entry) (self : nat) :
  ~ In self (map fst es) ->
  filter (fun e => negb (Nat.eqb (fst e) self)) es = es.
Proof.
  induction es as [| [a p] es IH]; simpl; intros H; [reflexivity |].
  destruct (Nat.eqb_spec a self) as [E | E]; [exfalso; auto |].
  simpl. f_equal. apply IH. auto.
Qed.

Lemma find_unregistered (es : list dispatcher_entry) (self : nat) :
  ~ In self (map fst es) ->
  find (fun e => Nat.eqb (fst e) self) es = None.
Proof.
  induction es as [| [a p] es IH]; simpl; intros H; [reflexivity |].
  destruct (Nat.eqb_spec a self) as [E | E]; [exfalso; auto |].
  apply IH. auto.
Qed.

Lemma find_app_unregistered (es post : list dispatcher_entry) (self : nat) :
  ~ In self (map fst es) ->
  find (fun e => Nat.eqb (fst e) self) (es ++ post)
  = find (fun e => Nat.eqb (fst e) self) post.
Proof.
  induction es as [| [a p] es IH]; simpl; intros H; [reflexivity |].
  destruct (Nat.eqb_spec a self) as [E | E]; [exfalso; auto |].
  apply IH. auto.
Qed.

Lemma set_packet_dispatchers_id (w : wimod_device) :
  set_packet_dispatchers (packet_dispatchers w) w = w.
Proof. destruct w; reflexivity. Qed.

(** X14. Registering and unregistering.  An address that is not on the
    list is on it once registered and is found with its waiter, and the
    other addresses are found as before; unregistering it gives the list
    back as it was; and unregistering another entry of the list takes that
    entry off and leaves the new waiter to be found. *)
Theorem register_unregister (wmdev : wimod_device) (self : nat)
    (p : wimod_hci_packet_completion) :
  ~ registered wmdev self ->
  let armed := wimod_hci_add_dispatcher wmdev (self, p) in
  registered armed self /\
  find_entry armed self = Some p /\
  (forall a, a <> self -> find_entry armed a = find_entry wmdev a) /\
  wimod_hci_remove_dispatcher armed self = wmdev /\
  (forall a, registered wmdev a ->
     ~ registered (wimod_hci_remove_dispatcher armed a) a /\
     find_entry (wimod_hci_remove_dispatcher armed a) self = Some p).
Proof.
  intros Hfresh. cbv zeta. unfold registered in *.
  unfold find_entry, wimod_hci_add_dispatcher, wimod_hci_remove_dispatcher.
  cbn [set_packet_dispatchers packet_dispatchers].
  split; [| split; [| split; [| split]]].
  - rewrite map_app. apply in_or_app. right. left. reflexivity.
  - rewrite find_app_unregistered by exact Hfresh. simpl.
    rewrite Nat.eqb_refl. reflexivity.
  - intros a Ha. clear Hfresh.
    induction (packet_dispatchers wmdev) as [| [b q] es IH]; simpl.
    + destruct (Nat.eqb_spec self a); [congruence | reflexivity].
    + destruct (Nat.eqb b a); [reflexivity | exact IH].
  - rewrite filter_app, filter_unregistered by exact Hfresh. simpl.
    rewrite Nat.eqb_refl. simpl. rewrite app_nil_r.
    destruct wmdev; reflexivity.
  - intros a Ha.
    assert (Hne : self <> a) by (intros ->; exact (Hfresh Ha)).
    split.
    + intros Hin. apply in_map_iff in Hin. destruct Hin as (e & He & Hin).
      apply filter_In in Hin. destruct Hin as [_ Hin].
      rewrite He, Nat.eqb_refl in Hin. discriminate Hin.
    + rewrite filter_app, find_app_unregistered.
      * simpl. apply Nat.eqb_neq in Hne. rewrite Hne. simpl.
        rewrite Nat.eqb_refl. reflexivity.
      * intros Hin. apply Hfresh. apply in_map_iff in Hin.
        destruct Hin as (e & He & Hin). apply filter_In in Hin.
        apply in_map_iff. exists e. tauto.
Qed.

Lemma register_unregister_witness :
  let wmdev :=
    wimod_hci_add_dispatcher (wimod_device_init (mk_serdev [] []))
      (7%nat, new_packet 1 4) in
  let armed := wimod_hci_add_dispatcher wmdev (3%nat, new_packet 1 2) in
  find_entry armed 3 = Some (new_packet 1 2) /\
  wimod_hci_remove_dispatcher armed 3 = wmdev /\
  find_entry (wimod_hci_remove_dispatcher armed 7) 3 = Some (new_packet 1 2).
Proof.
  intros wmdev armed.
  destruct (register_unregister wmdev 3 (new_packet 1 2))
    as (_ & Hfind & _ & Hrem & Hother).
  - vm_compute. intros [H | []]. discriminate H.
  - split; [exact Hfind |]. split; [exact Hrem |].
    apply Hother. left. reflexivity.
Defined.

Section AnswerProofs.
Variable kzalloc : Z -> bool.

Lemma key_free_no_match (es : list dispatcher_entry) (dst msg : Z) (data : list Z) :
  key_free es dst msg -> nth 0 data 0 = dst -> nth 1 data 0 = msg ->
  forallb (fun x => negb (entry_matches data x)) es = true.
Proof.
  intros H H0 H1. apply forallb_forall. intros e He.
  unfold key_free in H. rewrite Forall_forall in H. specialize (H e He).
  unfold entry_matches. rewrite H0, H1. exact H.
Qed.

Lemma rx_load_frame_data (w : wimod_device) (dst msg : Z) (p : list Z) :
  let data := rx_buf (rx_load w (hci_frame dst msg p)) in
  nth 0 data 0 = dst /\ nth 1 data 0 = msg /\
  firstn (length p) (skipn 2 data) = p /\
  firstn (length p + 2) data = dst :: msg :: p.
Proof.
  unfold rx_load, hci_frame. cbn [set_rx rx_buf]. cbn [app nth skipn firstn].
  split; [reflexivity |]. split; [reflexivity |].
  rewrite <- !app_assoc.
  split.
  - rewrite firstn_app, Nat.sub_diag, firstn_all. simpl. apply app_nil_r.
  - replace (length p + 2)%nat with (S (S (length p))) by lia. cbn [firstn].
    rewrite firstn_app, Nat.sub_diag, firstn_all. simpl.
    rewrite app_nil_r. reflexivity.
Qed.

(** A frame as [wimod_hci_send] writes it, received with the buffer empty,
    on a list whose first entry for the key of the frame is a pending
    waiter. *)
Lemma receive_answer (w : wimod_device) (pre post : list dispatcher_entry)
    (a : nat) (e : wimod_hci_packet_completion) (dst msg : Z) (p : list Z) :
  rx_wf w -> rx_len w = 0 -> rx_esc w = false ->
  packet_dispatchers w = pre ++ (a, e) :: post ->
  key_free pre dst msg ->
  dst_id (disp e) = dst -> msg_id (disp e) = msg -> done (comp e) = 0 ->
  Z.of_nat (length p) <= WIMOD_HCI_PAYLOAD_MAX ->
  wimod_receive_buf kzalloc w (framed (hci_frame dst msg p))
  = Some (Z.of_nat (length (framed (hci_frame dst msg p))),
          set_rx_len 0
            (set_packet_dispatchers
               (pre ++ (a, mk_packet (disp e) (mk_completion 1)
                             (if kzalloc (Z.of_nat (length p))
                              then Some p else None)
                             (Z.of_nat (length p))) :: post)
               (rx_load w (hci_frame dst msg p))),
          [Processing (hci_frame dst msg p); Dispatch a (dst :: msg :: p)]).
Proof.
  intros Hwf Hlen Hesc Hreg Hfree Hdst Hmsg Hdone Hmax.
  destruct (receive_hci_frame kzalloc w dst msg p Hwf Hlen Hesc Hmax)
    as (w' & tr & Hrx & _ & _ & _ & _ & _ & Hres).
  unfold wimod_receive_buf, framed. rewrite Hrx. cbn [exit_len exit_dev exit_trace].
  apply pair_equal_spec in Hres. destruct Hres as [-> ->]. clear Hrx.
  destruct (rx_load_frame_data w dst msg p) as (H0 & H1 & Hpay & Hhead).
  set (data := rx_buf (rx_load w (hci_frame dst msg p))) in *.
  rewrite Hreg.
  rewrite (dispatch_scan_first kzalloc pre post a e data
             (Z.of_nat (length (hci_frame dst msg p)))).
  - cbn [fst snd]. rewrite hci_frame_length.
    assert (Hhandler :
      call_dispatchee kzalloc (dispatchee (disp e)) data
        (Z.of_nat (length p + 4) - 2) e
      = mk_packet (disp e) (mk_completion 1)
          (if kzalloc (Z.of_nat (length p)) then Some p else None)
          (Z.of_nat (length p))).
    { destruct (dispatchee (disp e)). cbn [call_dispatchee].
      unfold wimod_hci_packet_dispatch_completion, completion_done, complete.
      rewrite Hdone. cbn [Z.eqb negb].
      replace (Z.of_nat (length p + 4) - 2 - 2) with (Z.of_nat (length p)) by lia.
      rewrite Nat2Z.id, Hpay. reflexivity. }
    rewrite Hhandler.
    replace (Z.to_nat (Z.of_nat (length p + 4) - 2)) with (length p + 2)%nat by lia.
    rewrite Hhead. reflexivity.
  - apply (key_free_no_match pre dst msg); assumption.
  - unfold entry_matches. cbn [snd]. rewrite H0, H1, Hdst, Hmsg, !Z.eqb_refl.
    reflexivity.
Qed.

End AnswerProofs.

(** X15. An answer reaches the first waiter for its key.  A frame as
    [wimod_hci_send] writes it, with a payload of at most 300 bytes,
    received in one call with the buffer empty: if the first entry of the
    list with the key of the frame is a waiter whose completion has not
    fired, all bytes are consumed, this waiter and no other entry is
    completed, with [payload_len] the length of the payload and, the
    allocation succeeding, exactly the payload in its slot. *)
Theorem answer_reaches_first_waiter (kzalloc : Z -> bool) (wmdev : wimod_device)
    (pre post : list dispatcher_entry) (a : nat)
    (e : wimod_hci_packet_completion) (dst msg : Z) (p : list Z) :
  rx_wf wmdev -> rx_len wmdev = 0 -> rx_esc wmdev = false ->
  packet_dispatchers wmdev = pre ++ (a, e) :: post ->
  key_free pre dst msg ->
  dst_id (disp e) = dst -> msg_id (disp e) = msg -> done (comp e) = 0 ->
  Z.of_nat (length p) <= WIMOD_HCI_PAYLOAD_MAX ->
  exists wmdev',
    wimod_receive_buf kzalloc wmdev (framed (hci_frame dst msg p))
    = Some (Z.of_nat (length (framed (hci_frame dst msg p))), wmdev',
            [Processing (hci_frame dst msg p); Dispatch a (dst :: msg :: p)]) /\
    packet_dispatchers wmdev'
    = pre ++ (a, mk_packet (disp e) (mk_completion 1)
                   (if kzalloc (Z.of_nat (length p)) then Some p else None)
                   (Z.of_nat (length p))) :: post /\
    rx_len wmdev' = 0 /\ rx_esc wmdev' = false /\ serdev wmdev' = serdev wmdev.
Proof.
  intros Hwf Hlen Hesc Hreg Hfree Hdst Hmsg Hdone Hmax.
  eexists. split.
  - apply receive_answer; eassumption.
  - cbn [set_rx_len set_packet_dispatchers packet_dispatchers rx_len rx_esc serdev
         rx_load set_rx].
    auto.
Qed.

Lemma answer_reaches_first_waiter_witness :
  exists wmdev',
    wimod_receive_buf (fun _ => true)
      (wimod_hci_add_dispatcher
         (wimod_hci_add_dispatcher (wimod_device_init (mk_serdev [] []))
            (1%nat, new_packet 1 4)) (2%nat, new_packet 1 2))
      (framed (hci_frame 1 2 [0; 192]))
    = Some (Z.of_nat (length (framed (hci_frame 1 2 [0; 192]))), wmdev',
            [Processing (hci_frame 1 2 [0; 192]); Dispatch 2 (1 :: 2 :: [0; 192])]) /\
    packet_dispatchers wmdev'
    = [(1%nat, new_packet 1 4)]
        ++ (2%nat, mk_packet (disp (new_packet 1 2)) (mk_completion 1)
                     (Some [0; 192]) 2) :: [] /\
    rx_len wmdev' = 0 /\ rx_esc wmdev' = false /\
    serdev wmdev' = mk_serdev [] [].
Proof.
  apply (answer_reaches_first_waiter (fun _ => true)
           (wimod_hci_add_dispatcher
              (wimod_hci_add_dispatcher (wimod_device_init (mk_serdev [] []))
                 (1%nat, new_packet 1 4)) (2%nat, new_packet 1 2))
           [(1%nat, new_packet 1 4)] [] 2 (new_packet 1 2) 1 2 [0; 192]).
  - split; [reflexivity | vm_compute; split; discriminate].
  - reflexivity.
  - reflexivity.
  - reflexivity.
  - constructor; [reflexivity | constructor].
  - reflexivity.
  - reflexivity.
  - reflexivity.
  - vm_compute. discriminate.
Defined.

(** ** Requests from end to end *)

Section RequestInvariants.
Variable kzalloc : Z -> bool.
Variable P : list dispatcher_entry -> Prop.
Hypothesis P_scan :
  forall es data len,
    4 <= len <= Z.of_nat (length data) -> P es ->
    P (fst (dispatch_scan kzalloc es data len)).

Lemma receive_while_waiting_keeps (chunks : list (list Z)) (w : wimod_device)
    (self : nat) (pending : list Z) (w' : wimod_device) (tr : list event) :
  rx_wf w -> P (packet_dispatchers w) ->
  receive_while_waiting kzalloc w self pending chunks = Some (w', tr) ->
  P (packet_dispatchers w') /\ serdev w' = serdev w /\ rx_wf w'.
Proof.
  revert w pending w' tr.
  induction chunks as [| c cs IH]; intros w pending w' tr Hwf HP Hr.
  - simpl in Hr. destruct (entry_done w self); inversion Hr; subst; auto.
  - simpl in Hr. destruct (entry_done w self); [inversion Hr; subst; auto |].
    unfold wimod_receive_buf in Hr.
    destruct (receive_loop_safe kzalloc (pending ++ c) [] w 0
                (loop_inv_start w Hwf)) as (x & Hx & Hwfx).
    rewrite Hx in Hr.
    destruct (receive_loop_keeps kzalloc P P_scan (pending ++ c) [] w 0 x
                (loop_inv_start w Hwf) HP Hx) as [HPx Hsx].
    destruct (receive_while_waiting kzalloc (exit_dev x) self
                (skipn (Z.to_nat (exit_len x)) (pending ++ c)) cs)
      as [[w1 tr1] |] eqn:Hrec; [| discriminate].
    inversion Hr; subst w' tr.
    destruct (IH _ _ _ _ Hwfx HPx Hrec) as (H1 & H2 & H3).
    split; [exact H1 |]. split; [congruence | exact H3].
Qed.

End RequestInvariants.

Section RequestsEndToEnd.
Variable kzalloc : Z -> bool.

Lemma completed_from_address (e e' : dispatcher_entry) :
  completed_from e e' -> fst e' = fst e.
Proof.
  intros [Hk _]. unfold entry_key in Hk. congruence.
Qed.

Lemma completed_from_addresses (es es' : list dispatcher_entry) :
  Forall2 completed_from es es' -> map fst es' = map fst es.
Proof.
  induction 1 as [| e e' es es' He _ IH]; simpl; [reflexivity |].
  rewrite IH, (completed_from_address e e' He). reflexivity.
Qed.

(** What is left of the list once the caller's waiter, the last entry when
    the wait began, has been consumed by [f] and taken off. *)
Lemma others_kept (es0 es' : list dispatcher_entry) (self : nat)
    (pk : wimod_hci_packet_completion)
    (f : dispatcher_entry -> dispatcher_entry) :
  (forall e, fst (f e) = fst e) -> (forall e, fst e <> self -> f e = e) ->
  ~ In self (map fst es0) ->
  Forall2 completed_from (es0 ++ [(self, pk)]) es' ->
  Forall2 completed_from es0
    (filter (fun e => negb (Nat.eqb (fst e) self)) (map f es')).
Proof.
  intros Hf1 Hf2 Hfresh H.
  apply Forall2_app_inv_l in H. destruct H as (es1 & es2 & H1 & H2 & ->).
  inversion H2 as [| ? x ? tl Hx Htl]; subst. inversion Htl; subst.
  rewrite map_app, filter_app. cbn [map filter].
  rewrite Hf1, (completed_from_address _ _ Hx). cbn [fst].
  rewrite Nat.eqb_refl. cbn [negb]. rewrite app_nil_r.
  assert (Hfresh1 : ~ In self (map fst es1)).
  { rewrite (completed_from_addresses _ _ H1). exact Hfresh. }
  assert (Hmap : map f es1 = es1).
  { clear - Hf2 Hfresh1. induction es1 as [| e es1 IH]; simpl; [reflexivity |].
    rewrite Hf2, IH; [reflexivity | |]; simpl in Hfresh1; intuition. }
  rewrite Hmap, filter_unregistered by exact Hfresh1. exact H1.
Qed.

Lemma wait_keeps_others (w : wimod_device) (es0 : list dispatcher_entry)
    (self : nat) (pk : wimod_hci_packet_completion) (env : request_env)
    (t : Z) (w' : wimod_device) (tr : list event) :
  rx_wf w -> packet_dispatchers w = es0 ++ [(self, pk)] ->
  ~ In self (map fst es0) ->
  wait_for_completion_timeout kzalloc w self env = Some (t, w', tr) ->
  Forall2 completed_from es0
    (packet_dispatchers (wimod_hci_remove_dispatcher w' self)) /\
  serdev w' = serdev w /\ rx_wf w'.
Proof.
  intros Hwf Hreg Hfresh Hwait. unfold wait_for_completion_timeout in Hwait.
  destruct (receive_while_waiting kzalloc w self [] (incoming env))
    as [[w1 tr1] |] eqn:Hr; [| discriminate].
  destruct (receive_while_waiting_keeps kzalloc
              (Forall2 completed_from (packet_dispatchers w))
              (fun es d l _ H => scan_completed_from kzalloc _ es d l H)
              (incoming env) w self [] w1 tr1 Hwf (completed_from_refl _) Hr)
    as (HP & Hs & Hwf1).
  rewrite Hreg in HP.
  unfold wimod_hci_remove_dispatcher. cbn [set_packet_dispatchers packet_dispatchers].
  destruct (entry_done w1 self); inversion Hwait; subst t w' tr.
  - cbn [set_packet_dispatchers packet_dispatchers serdev].
    split; [| split; [exact Hs | exact Hwf1]].
    apply (others_kept es0 _ self pk); try assumption.
    + intros e. destruct (Nat.eqb (fst e) self); reflexivity.
    + intros e He. apply Nat.eqb_neq in He. rewrite He. reflexivity.
  - split; [| split; [exact Hs | exact Hwf1]].
    rewrite <- (map_id (packet_dispatchers w1)).
    apply (others_kept es0 _ self pk); auto.
Qed.

Lemma receive_while_waiting_done (w : wimod_device) (self : nat)
    (pending : list Z) (chunks : list (list Z)) :
  entry_done w self = true ->
  receive_while_waiting kzalloc w self pending chunks = Some (w, []).
Proof.
  intros H. destruct chunks; simpl; rewrite H; reflexivity.
Qed.

(** The wait of a caller whose waiter is the last entry of the list and the
    first one for its key, when the answer is the next thing to arrive. *)
Lemma wait_answered (w : wimod_device) (es : list dispatcher_entry) (self : nat)
    (dst msg : Z) (p : list Z) (more : list (list Z)) (env : request_env) :
  rx_wf w -> rx_len w = 0 -> rx_esc w = false ->
  packet_dispatchers w = es ++ [(self, new_packet dst msg)] ->
  key_free es dst msg -> ~ In self (map fst es) ->
  Z.of_nat (length p) <= WIMOD_HCI_PAYLOAD_MAX ->
  kzalloc (Z.of_nat (length p)) = true ->
  incoming env = framed (hci_frame dst msg p) :: more ->
  exists w',
    wait_for_completion_timeout kzalloc w self env
    = Some (Z.max 1 (jiffies_left env), w',
            [Processing (hci_frame dst msg p); Dispatch self (dst :: msg :: p)]) /\
    find_entry w' self
    = Some (mk_packet (disp (new_packet dst msg)) (mk_completion 0) (Some p)
              (Z.of_nat (length p))) /\
    packet_dispatchers (wimod_hci_remove_dispatcher w' self) = es /\
    serdev w' = serdev w /\ rx_len w' = 0 /\ rx_esc w' = false /\ rx_wf w' /\
    rx_buf w' = rx_buf (rx_load w (hci_frame dst msg p)).
Proof.
  intros Hwf Hlen Hesc Hreg Hfree Hfresh Hmax Hk Hinc.
  unfold wait_for_completion_timeout. rewrite Hinc.
  assert (Hnot : entry_done w self = false).
  { unfold entry_done, find_entry. rewrite Hreg, find_app_unregistered by exact Hfresh.
    simpl. rewrite Nat.eqb_refl. reflexivity. }
  cbn [receive_while_waiting]. rewrite Hnot. cbn [app].
  rewrite (receive_answer kzalloc w es [] self (new_packet dst msg) dst msg p
             Hwf Hlen Hesc Hreg Hfree eq_refl eq_refl eq_refl Hmax).
  rewrite Hk.
  set (w1 := set_rx_len 0 (set_packet_dispatchers _ (rx_load w (hci_frame dst msg p)))).
  assert (Hdone : entry_done w1 self = true).
  { unfold entry_done, find_entry, w1.
    cbn [set_rx_len set_packet_dispatchers packet_dispatchers].
    rewrite find_app_unregistered by exact Hfresh.
    simpl. rewrite Nat.eqb_refl. reflexivity. }
  rewrite (receive_while_waiting_done w1 self _ more Hdone), Hdone.
  eexists. split; [reflexivity |].
  unfold find_entry, wimod_hci_remove_dispatcher, w1.
  cbn [set_rx_len set_packet_dispatchers packet_dispatchers serdev rx_len rx_esc
       rx_load set_rx].
  rewrite map_app.
  assert (Hmap : forall f : dispatcher_entry -> dispatcher_entry,
             (forall e, fst e <> self -> f e = e) -> map f es = es).
  { intros f Hf. clear - Hf Hfresh.
    induction es as [| e es IH]; simpl; [reflexivity |].
    rewrite Hf, IH; [reflexivity | |]; simpl in Hfresh; intuition. }
  rewrite Hmap.
  - rewrite find_app_unregistered, filter_app, filter_unregistered by exact Hfresh.
    simpl. rewrite !Nat.eqb_refl. simpl. rewrite ?Nat.eqb_refl. simpl.
    rewrite app_nil_r.
    split; [reflexivity |]. split; [reflexivity |]. split; [reflexivity |].
    split; [reflexivity |]. split; [exact Hesc |].
    assert (Hfit : Z.of_nat (length (hci_frame dst msg p)) <= WIMOD_HCI_PACKET_MAX).
    { rewrite hci_frame_length, packet_max.
      unfold WIMOD_HCI_PAYLOAD_MAX in Hmax. lia. }
    destruct (rx_load_wf w (hci_frame dst msg p) Hwf Hfit) as [Hb _].
    split; [| reflexivity].
    split; [exact Hb |].
    cbn [rx_len set_packet_dispatchers set_rx_len]. rewrite packet_max. lia.
  - intros e He. apply Nat.eqb_neq in He. rewrite He. reflexivity.
Qed.

(** A request up to the end of its wait, when the transport takes every
    write and the answer is the next thing to arrive. *)
Lemma request_answered (wmdev : wimod_device) (self : nat) (req rsp : Z)
    (p : list Z) (more : list (list Z)) (env : request_env) :
  rx_wf wmdev -> rx_len wmdev = 0 -> rx_esc wmdev = false ->
  writes_succeed (serdev wmdev) ->
  key_free (packet_dispatchers wmdev) DEVMGMT_ID rsp ->
  ~ registered wmdev self ->
  Z.of_nat (length p) <= WIMOD_HCI_PAYLOAD_MAX ->
  kzalloc (Z.of_nat (length p)) = true ->
  incoming env = framed (hci_frame DEVMGMT_ID rsp p) :: more ->
  let armed := wimod_hci_add_dispatcher wmdev (self, new_packet DEVMGMT_ID rsp) in
  let sent := wimod_hci_send (serdev wmdev) DEVMGMT_ID req [] 0 in
  fst sent = 0 /\
  exists t w',
    wait_for_completion_timeout kzalloc (set_serdev (snd sent) armed) self env
    = Some (t, w',
            [Processing (hci_frame DEVMGMT_ID rsp p);
             Dispatch self (DEVMGMT_ID :: rsp :: p)]) /\
    (t =? 0) = false /\
    find_entry w' self
    = Some (mk_packet (disp (new_packet DEVMGMT_ID rsp)) (mk_completion 0)
              (Some p) (Z.of_nat (length p))) /\
    packet_dispatchers (wimod_hci_remove_dispatcher w' self)
    = packet_dispatchers wmdev /\
    tx (serdev w') = tx (serdev wmdev) ++ framed (hci_frame DEVMGMT_ID req []) /\
    writes_succeed (serdev w') /\
    rx_len w' = 0 /\ rx_esc w' = false /\ rx_wf w' /\
    rx_buf w'
    = hci_frame DEVMGMT_ID rsp p
        ++ skipn (length (hci_frame DEVMGMT_ID rsp p)) (rx_buf wmdev).
Proof.
  intros Hwf Hlen Hesc Hwr Hfree Hfresh Hmax Hk Hinc armed sent.
  destruct (wimod_hci_send_ok (serdev wmdev) DEVMGMT_ID req [] Hwr)
    as (sdev' & Hsend & Htx & Hwr').
  change (Z.of_nat (length (@nil Z))) with 0 in Hsend. fold sent in Hsend.
  rewrite Hsend. cbn [fst snd]. split; [reflexivity |].
  destruct (wait_answered (set_serdev sdev' armed) (packet_dispatchers wmdev)
              self DEVMGMT_ID rsp p more env Hwf Hlen Hesc eq_refl Hfree Hfresh
              Hmax Hk Hinc)
    as (w' & Hwait & Hfind & Hrem & Hs & Hl & He & Hwf' & Hrx).
  exists (Z.max 1 (jiffies_left env)), w'.
  split; [exact Hwait |].
  split; [apply Z.eqb_neq; lia |].
  split; [exact Hfind |]. split; [exact Hrem |].
  rewrite Hs. cbn [set_serdev serdev].
  split; [exact Htx |]. split; [exact Hwr' |].
  split; [exact Hl |]. split; [exact He |]. split; [exact Hwf' | exact Hrx].
Qed.

(** The wait of a caller when the only thing to arrive is an answer for its
    key and an earlier entry of the list is a pending waiter for that key. *)
Lemma wait_starved (w : wimod_device) (pre post : list dispatcher_entry)
    (a self : nat) (e pk : wimod_hci_packet_completion) (dst msg : Z)
    (p : list Z) (env : request_env) :
  rx_wf w -> rx_len w = 0 -> rx_esc w = false ->
  packet_dispatchers w = (pre ++ (a, e) :: post) ++ [(self, pk)] ->
  key_free pre dst msg ->
  dst_id (disp e) = dst -> msg_id (disp e) = msg -> done (comp e) = 0 ->
  done (comp pk) = 0 ->
  ~ In self (map fst (pre ++ (a, e) :: post)) ->
  Z.of_nat (length p) <= WIMOD_HCI_PAYLOAD_MAX ->
  incoming env = [framed (hci_frame dst msg p)] ->
  exists w',
    wait_for_completion_timeout kzalloc w self env
    = Some (0, w', [Processing (hci_frame dst msg p); Dispatch a (dst :: msg :: p)]) /\
    packet_dispatchers (wimod_hci_remove_dispatcher w' self)
    = pre ++ (a, mk_packet (disp e) (mk_completion 1)
                   (if kzalloc (Z.of_nat (length p)) then Some p else None)
                   (Z.of_nat (length p))) :: post.
Proof.
  intros Hwf Hlen Hesc Hreg Hfree Hdst Hmsg Hdone Hpk Hfresh Hmax Hinc.
  unfold wait_for_completion_timeout. rewrite Hinc.
  assert (Hnot : entry_done w self = false).
  { unfold entry_done, find_entry. rewrite Hreg, find_app_unregistered by exact Hfresh.
    simpl. rewrite Nat.eqb_refl. cbn [snd]. unfold completion_done.
    rewrite Hpk. reflexivity. }
  cbn [receive_while_waiting]. rewrite Hnot. cbn [app].
  rewrite <- app_assoc in Hreg. cbn [app] in Hreg.
  rewrite (receive_answer kzalloc w pre (post ++ [(self, pk)]) a e dst msg p
             Hwf Hlen Hesc Hreg Hfree Hdst Hmsg Hdone Hmax).
  set (e' := mk_packet (disp e) (mk_completion 1) _ _).
  set (w1 := set_rx_len 0 (set_packet_dispatchers _ (rx_load w (hci_frame dst msg p)))).
  assert (Hfresh' : ~ In self (map fst (pre ++ (a, e') :: post))).
  { rewrite map_app in *. exact Hfresh. }
  assert (Hreg1 : packet_dispatchers w1 = (pre ++ (a, e') :: post) ++ [(self, pk)]).
  { unfold w1. cbn [set_rx_len set_packet_dispatchers packet_dispatchers].
    rewrite <- app_assoc. reflexivity. }
  assert (Hnot1 : entry_done w1 self = false).
  { unfold entry_done, find_entry.
    rewrite Hreg1, find_app_unregistered by exact Hfresh'.
    simpl. rewrite Nat.eqb_refl. cbn [snd]. unfold completion_done.
    rewrite Hpk. reflexivity. }
  rewrite Hnot1, Hnot1.
  eexists. split; [reflexivity |].
  unfold wimod_hci_remove_dispatcher. cbn [set_packet_dispatchers packet_dispatchers].
  rewrite Hreg1, filter_app, filter_unregistered by exact Hfresh'.
  simpl. rewrite Nat.eqb_refl. simpl. apply app_nil_r.
Qed.

(** A request that could not send takes its waiter off the list again. *)
Lemma send_failed_keeps_others (wmdev : wimod_device) (self : nat)
    (sdev : serdev_device) (pk : wimod_hci_packet_completion) :
  rx_wf wmdev -> ~ registered wmdev self ->
  Forall2 completed_from (packet_dispatchers wmdev)
    (packet_dispatchers
       (wimod_hci_remove_dispatcher
          (set_serdev sdev (wimod_hci_add_dispatcher wmdev (self, pk))) self)) /\
  rx_wf (wimod_hci_remove_dispatcher
           (set_serdev sdev (wimod_hci_add_dispatcher wmdev (self, pk))) self).
Proof.
  intros Hwf Hfresh. split; [| exact Hwf].
  unfold wimod_hci_remove_dispatcher, wimod_hci_add_dispatcher.
  cbn [set_serdev set_packet_dispatchers packet_dispatchers].
  rewrite filter_app, filter_unregistered by exact Hfresh.
  simpl. rewrite Nat.eqb_refl. simpl. rewrite app_nil_r.
  apply completed_from_refl.
Qed.

(** So does a request that has waited, whatever was received meanwhile. *)
Lemma waited_keeps_others (wmdev : wimod_device) (self : nat)
    (sdev : serdev_device) (pk : wimod_hci_packet_completion)
    (env : request_env) (t : Z) (w : wimod_device) (tr : list event) :
  rx_wf wmdev -> ~ registered wmdev self ->
  wait_for_completion_timeout kzalloc
    (set_serdev sdev (wimod_hci_add_dispatcher wmdev (self, pk))) self env
  = Some (t, w, tr) ->
  Forall2 completed_from (packet_dispatchers wmdev)
    (packet_dispatchers (wimod_hci_remove_dispatcher w self)) /\
  rx_wf (wimod_hci_remove_dispatcher w self).
Proof.
  intros Hwf Hfresh Hw.
  destruct (wait_keeps_others
              (set_serdev sdev (wimod_hci_add_dispatcher wmdev (self, pk)))
              (packet_dispatchers wmdev) self pk env t w tr Hwf eq_refl Hfresh Hw)
    as (H1 & _ & H3).
  split; [exact H1 | exact H3].
Qed.

Lemma get_device_info_keeps_others (wmdev : wimod_device) (self : nat)
    (buf : option (list Z)) (env : request_env) (res : request_result) :
  rx_wf wmdev -> ~ registered wmdev self ->
  wimod_hci_get_device_info kzalloc wmdev self buf env = Some res ->
  Forall2 completed_from (packet_dispatchers wmdev)
    (packet_dispatchers (res_dev res)) /\
  rx_wf (res_dev res).
Proof.
  intros Hwf Hfresh H.
  rewrite get_device_info_result in H. cbv zeta in H.
  destruct (negb _) in H;
    [inversion H; subst; apply send_failed_keeps_others; assumption |].
  destruct (wait_for_completion_timeout _ _ _ _) as [[[t w] tr] |] eqn:Hw in H;
    [| discriminate].
  pose proof (waited_keeps_others _ _ _ _ _ _ _ _ Hwf Hfresh Hw) as Hwait.
  request_dev H; exact Hwait.
Qed.

End RequestsEndToEnd.

(** X16. A request leaves the other waiters alone.  Whatever the transport
    and the receive path do in the meantime, when a ping or get-device-info
    request of a caller whose waiter is not yet on the list returns, the
    list has the entries it had, in the same order, with the same addresses
    and keys: the caller's waiter is off again and no other entry was added,
    removed or reordered; another waiter is as it was or has been
    completed by a packet received during the wait. *)
Theorem requests_keep_other_waiters (kzalloc : Z -> bool) (wmdev : wimod_device)
    (self : nat) (buf : option (list Z)) (env : request_env)
    (res : request_result) :
  rx_wf wmdev -> ~ registered wmdev self ->
  wimod_hci_ping kzalloc wmdev self env = Some res \/
  wimod_hci_get_device_info kzalloc wmdev self buf env = Some res ->
  Forall2 completed_from (packet_dispatchers wmdev)
    (packet_dispatchers (res_dev res)) /\
  rx_wf (res_dev res).
Proof.
  intros Hwf Hfresh [H | H].
  - rewrite ping_result in H. cbv zeta in H.
    destruct (negb _) in H;
      [inversion H; subst; apply send_failed_keeps_others; assumption |].
    destruct (wait_for_completion_timeout _ _ _ _) as [[[t w] tr] |] eqn:Hw in H;
      [| discriminate].
    pose proof (waited_keeps_others kzalloc _ _ _ _ _ _ _ _ Hwf Hfresh Hw) as Hwait.
    request_dev H; exact Hwait.
  - exact (get_device_info_keeps_others kzalloc wmdev self buf env res Hwf Hfresh H).
Qed.

Lemma requests_keep_other_waiters_witness :
  Forall2 completed_from
    [(7%nat, new_packet 1 4)]
    (packet_dispatchers
       (wimod_hci_remove_dispatcher
          (set_serdev (snd (wimod_hci_send (mk_serdev [] [5]) 1 1 [] 0))
             (wimod_hci_add_dispatcher
                (wimod_hci_add_dispatcher (wimod_device_init (mk_serdev [] [5]))
                   (7%nat, new_packet 1 4))
                (3%nat, new_packet 1 2))) 3)).
Proof.
  refine (proj1 (requests_keep_other_waiters (fun _ => true)
            (wimod_hci_add_dispatcher (wimod_device_init (mk_serdev [] [5]))
               (7%nat, new_packet 1 4))
            3 None (mk_env [] 0)
            (mk_result 5 None
               (wimod_hci_remove_dispatcher
                  (set_serdev (snd (wimod_hci_send (mk_serdev [] [5]) 1 1 [] 0))
                     (wimod_hci_add_dispatcher
                        (wimod_hci_add_dispatcher
                           (wimod_device_init (mk_serdev [] [5]))
                           (7%nat, new_packet 1 4))
                        (3%nat, new_packet 1 2))) 3) [])
            _ _ (or_introl _))).
  - split; [reflexivity | vm_compute; split; discriminate].
  - vm_compute. intros [H | []]. discriminate H.
  - reflexivity.
Defined.

(** X17. A ping that is answered.  With the receiver between frames, a
    transport that takes every write, no entry on the list for the key of
    the ping response and the caller's waiter not on it, when the next
    bytes to arrive are a ping response with payload [p] of at most 300
    bytes and the allocation of the payload slot succeeds: the call returns
    0 when the first byte of [p] is 0 and -EINVAL when it is another byte or
    [p] is empty; the request frame and nothing else was written.
    Afterwards the list is as it was, the receiver is between frames, the
    transport still takes every write, and [rx_buf] holds the frame of the
    answer in front of what it held: the conditions above hold again, so
    that requests can follow one another. *)
Theorem ping_request_answered (kzalloc : Z -> bool) (wmdev : wimod_device) (self : nat)
    (p : list Z) (more : list (list Z)) (env : request_env) :
  rx_wf wmdev -> rx_len wmdev = 0 -> rx_esc wmdev = false ->
  writes_succeed (serdev wmdev) ->
  key_free (packet_dispatchers wmdev) DEVMGMT_ID DEVMGMT_MSG_PING_RSP ->
  ~ registered wmdev self ->
  Z.of_nat (length p) <= WIMOD_HCI_PAYLOAD_MAX ->
  kzalloc (Z.of_nat (length p)) = true ->
  incoming env = framed (hci_frame DEVMGMT_ID DEVMGMT_MSG_PING_RSP p) :: more ->
  exists res,
    wimod_hci_ping kzalloc wmdev self env = Some res /\
    res_ret res = match p with
                  | [] => - EINVAL
                  | status :: _ => if status =? 0 then 0 else - EINVAL
                  end /\
    res_steps res
    = [Waited; Received (Processing (hci_frame DEVMGMT_ID DEVMGMT_MSG_PING_RSP p));
       Received (Dispatch self (DEVMGMT_ID :: DEVMGMT_MSG_PING_RSP :: p))] /\
    tx (serdev (res_dev res))
    = tx (serdev wmdev) ++ framed (hci_frame DEVMGMT_ID DEVMGMT_MSG_PING_REQ []) /\
    packet_dispatchers (res_dev res) = packet_dispatchers wmdev /\
    writes_succeed (serdev (res_dev res)) /\
    rx_len (res_dev res) = 0 /\ rx_esc (res_dev res) = false /\
    rx_wf (res_dev res) /\
    rx_buf (res_dev res)
    = hci_frame DEVMGMT_ID DEVMGMT_MSG_PING_RSP p
        ++ skipn (length (hci_frame DEVMGMT_ID DEVMGMT_MSG_PING_RSP p))
             (rx_buf wmdev).
Proof.
  intros Hwf Hlen Hesc Hwr Hfree Hfresh Hmax Hk Hinc.
  destruct (request_answered kzalloc wmdev self DEVMGMT_MSG_PING_REQ
              DEVMGMT_MSG_PING_RSP p more env Hwf Hlen Hesc Hwr Hfree Hfresh
              Hmax Hk Hinc)
    as (Hsent & t & w' & Hwait & Ht & Hfind & Hrem & Htx & Hwr' & Hl & He & Hwf'
        & Hrx).
  rewrite ping_result. cbv zeta. rewrite Hsent.
  change (negb (0 =? 0)) with false. cbv iota.
  rewrite Hwait, Ht, Hfind.
  unfold ping_check. cbn [payload payload_len].
  assert (Hret : (if Z.of_nat (length p) <? 1 then Some (- EINVAL)
                  else Some (wimod_hci_devmgmt_status (nth 0 p 0)))
                 = Some (match p with
                         | [] => - EINVAL
                         | status :: _ => if status =? 0 then 0 else - EINVAL
                         end)).
  { destruct p as [| status p']; [reflexivity |].
    destruct (Z.ltb_spec (Z.of_nat (length (status :: p'))) 1) as [H | H].
    - simpl length in H. lia.
    - reflexivity. }
  rewrite Hret.
  eexists. split; [reflexivity |]. cbn [res_ret res_steps res_dev map].
  split; [reflexivity |]. split; [reflexivity |].
  split; [exact Htx |]. split; [exact Hrem |].
  split; [exact Hwr' |]. split; [exact Hl |]. split; [exact He |].
  split; [exact Hwf' | exact Hrx].
Qed.

Lemma ping_request_answered_witness :
  exists res,
    wimod_hci_ping (fun _ => true) (wimod_device_init (mk_serdev [] [])) 1
      (mk_env [framed (hci_frame DEVMGMT_ID DEVMGMT_MSG_PING_RSP [0])] 3)
    = Some res /\
    res_ret res = 0 /\
    tx (serdev (res_dev res))
    = framed (hci_frame DEVMGMT_ID DEVMGMT_MSG_PING_REQ []) /\
    packet_dispatchers (res_dev res) = [] /\
    rx_buf (res_dev res) = [1; 2; 0; 160; 175] ++ repeat 0 605.
Proof.
  destruct (ping_request_answered (fun _ => true) (wimod_device_init (mk_serdev [] [])) 1
              [0] [] (mk_env [framed (hci_frame DEVMGMT_ID DEVMGMT_MSG_PING_RSP [0])] 3))
    as (res & Hres & Hret & _ & Htx & Hreg & _ & _ & _ & _ & Hrx).
  - split; [reflexivity | vm_compute; split; discriminate].
  - reflexivity.
  - reflexivity.
  - constructor.
  - constructor.
  - intros H. exact H.
  - vm_compute. discriminate.
  - reflexivity.
  - reflexivity.
  - exists res. split; [exact Hres |]. split; [exact Hret |].
    split; [exact Htx |]. split; [exact Hreg | exact Hrx].
Defined.

(** X18. A get-device-info request that is answered.  With the receiver
    between frames, a transport that takes every write, no entry on the
    list for the key of the response and the caller's waiter not on it,
    when the next bytes to arrive are a get-device-info response with
    payload [p] of at most 300 bytes whose slot can be allocated, and the
    buffer of the caller is NULL or nine bytes long: the call returns 0
    when [p] has at least 10 bytes and starts with 0, and the caller's
    buffer then holds the bytes 1 .. 9 of [p]; otherwise it returns -EINVAL
    and the buffer is as it was.  The request frame and nothing else was
    written.  Afterwards the list is as it was, the receiver is between
    frames, the transport still takes every write, and [rx_buf] holds the
    frame of the answer in front of what it held: the conditions above
    hold again. *)
Theorem get_device_info_request_answered (kzalloc : Z -> bool) (wmdev : wimod_device)
    (self : nat) (buf : option (list Z)) (p : list Z) (more : list (list Z))
    (env : request_env) :
  rx_wf wmdev -> rx_len wmdev = 0 -> rx_esc wmdev = false ->
  writes_succeed (serdev wmdev) ->
  key_free (packet_dispatchers wmdev) DEVMGMT_ID DEVMGMT_MSG_GET_DEVICE_INFO_RSP ->
  ~ registered wmdev self ->
  Z.of_nat (length p) <= WIMOD_HCI_PAYLOAD_MAX ->
  kzalloc (Z.of_nat (length p)) = true ->
  incoming env
  = framed (hci_frame DEVMGMT_ID DEVMGMT_MSG_GET_DEVICE_INFO_RSP p) :: more ->
  (forall b, buf = Some b -> length b = 9%nat) ->
  exists res,
    wimod_hci_get_device_info kzalloc wmdev self buf env = Some res /\
    (res_ret res, res_buf res)
    = (if (10 <=? Z.of_nat (length p)) && (nth 0 p 0 =? DEVMGMT_STATUS_OK)
       then (0, option_map (fun _ => firstn 9 (skipn 1 p)) buf)
       else (- EINVAL, buf)) /\
    tx (serdev (res_dev res))
    = tx (serdev wmdev)
        ++ framed (hci_frame DEVMGMT_ID DEVMGMT_MSG_GET_DEVICE_INFO_REQ []) /\
    packet_dispatchers (res_dev res) = packet_dispatchers wmdev /\
    writes_succeed (serdev (res_dev res)) /\
    rx_len (res_dev res) = 0 /\ rx_esc (res_dev res) = false /\
    rx_wf (res_dev res) /\
    rx_buf (res_dev res)
    = hci_frame DEVMGMT_ID DEVMGMT_MSG_GET_DEVICE_INFO_RSP p
        ++ skipn (length (hci_frame DEVMGMT_ID DEVMGMT_MSG_GET_DEVICE_INFO_RSP p))
             (rx_buf wmdev).
Proof.
  intros Hwf Hlen Hesc Hwr Hfree Hfresh Hmax Hk Hinc Hbuf.
  destruct (request_answered kzalloc wmdev self DEVMGMT_MSG_GET_DEVICE_INFO_REQ
              DEVMGMT_MSG_GET_DEVICE_INFO_RSP p more env Hwf Hlen Hesc Hwr Hfree
              Hfresh Hmax Hk Hinc)
    as (Hsent & t & w' & Hwait & Ht & Hfind & Hrem & Htx & Hwr' & Hl & He & Hwf'
        & Hrx).
  rewrite get_device_info_result. cbv zeta. rewrite Hsent.
  change (negb (0 =? 0)) with false. cbv iota.
  rewrite Hwait, Ht, Hfind.
  rewrite (get_device_info_check_spec
             (mk_packet (disp (new_packet DEVMGMT_ID DEVMGMT_MSG_GET_DEVICE_INFO_RSP))
                (mk_completion 0) (Some p) (Z.of_nat (length p)))
             p buf eq_refl eq_refl Hbuf).
  destruct ((10 <=? Z.of_nat (length p)) && (nth 0 p 0 =? DEVMGMT_STATUS_OK));
    (eexists; split; [reflexivity |]; cbn [res_ret res_buf res_dev];
     split; [reflexivity |];
     split; [exact Htx |]; split; [exact Hrem |];
     split; [exact Hwr' |]; split; [exact Hl |]; split; [exact He |];
     split; [exact Hwf' | exact Hrx]).
Qed.

Lemma get_device_info_request_answered_witness :
  exists res,
    wimod_hci_get_device_info (fun _ => true)
      (wimod_device_init (mk_serdev [] [])) 1 (Some (repeat 0 9))
      (mk_env [framed (hci_frame DEVMGMT_ID DEVMGMT_MSG_GET_DEVICE_INFO_RSP
                         [0; 144; 1; 2; 3; 4; 5; 6; 7; 8])] 3)
    = Some res /\
    (res_ret res, res_buf res) = (0, Some [144; 1; 2; 3; 4; 5; 6; 7; 8]).
Proof.
  destruct (get_device_info_request_answered (fun _ => true)
              (wimod_device_init (mk_serdev [] [])) 1 (Some (repeat 0 9))
              [0; 144; 1; 2; 3; 4; 5; 6; 7; 8] []
              (mk_env [framed (hci_frame DEVMGMT_ID DEVMGMT_MSG_GET_DEVICE_INFO_RSP
                                 [0; 144; 1; 2; 3; 4; 5; 6; 7; 8])] 3))
    as (res & Hres & Hret & _).
  - split; [reflexivity | vm_compute; split; discriminate].
  - reflexivity.
  - reflexivity.
  - constructor.
  - constructor.
  - intros H. exact H.
  - vm_compute. discriminate.
  - reflexivity.
  - reflexivity.
  - intros b Hb. inversion Hb. reflexivity.
  - exists res. split; [exact Hres | exact Hret].
Defined.

(** X19. An earlier waiter for the same key takes the answer.  When a ping
    is issued while the list already holds a pending waiter for the key of
    the ping response, and a single ping response arrives, the response is
    handed to that earlier waiter (the first for the key), the caller's
    own waiter is never completed, and the call returns -ETIMEDOUT with its
    waiter off the list. *)
Theorem earlier_waiter_takes_answer (kzalloc : Z -> bool) (wmdev : wimod_device)
    (pre post : list dispatcher_entry) (a self : nat)
    (e : wimod_hci_packet_completion) (p : list Z) (env : request_env) :
  rx_wf wmdev -> rx_len wmdev = 0 -> rx_esc wmdev = false ->
  writes_succeed (serdev wmdev) ->
  packet_dispatchers wmdev = pre ++ (a, e) :: post ->
  key_free pre DEVMGMT_ID DEVMGMT_MSG_PING_RSP ->
  dst_id (disp e) = DEVMGMT_ID -> msg_id (disp e) = DEVMGMT_MSG_PING_RSP ->
  done (comp e) = 0 ->
  ~ registered wmdev self ->
  Z.of_nat (length p) <= WIMOD_HCI_PAYLOAD_MAX ->
  incoming env = [framed (hci_frame DEVMGMT_ID DEVMGMT_MSG_PING_RSP p)] ->
  exists res,
    wimod_hci_ping kzalloc wmdev self env = Some res /\
    res_ret res = - ETIMEDOUT /\
    res_steps res
    = [Waited; Received (Processing (hci_frame DEVMGMT_ID DEVMGMT_MSG_PING_RSP p));
       Received (Dispatch a (DEVMGMT_ID :: DEVMGMT_MSG_PING_RSP :: p))] /\
    packet_dispatchers (res_dev res)
    = pre ++ (a, mk_packet (disp e) (mk_completion 1)
                   (if kzalloc (Z.of_nat (length p)) then Some p else None)
                   (Z.of_nat (length p))) :: post.
Proof.
  intros Hwf Hlen Hesc Hwr Hreg Hfree Hdst Hmsg Hdone Hfresh Hmax Hinc.
  destruct (wimod_hci_send_ok (serdev wmdev) DEVMGMT_ID DEVMGMT_MSG_PING_REQ [] Hwr)
    as (sdev' & Hsend & _ & _).
  change (Z.of_nat (length (@nil Z))) with 0 in Hsend.
  unfold registered in Hfresh. rewrite Hreg in Hfresh.
  destruct (wait_starved kzalloc
              (set_serdev sdev'
                 (wimod_hci_add_dispatcher wmdev
                    (self, new_packet DEVMGMT_ID DEVMGMT_MSG_PING_RSP)))
              pre post a self e (new_packet DEVMGMT_ID DEVMGMT_MSG_PING_RSP)
              DEVMGMT_ID DEVMGMT_MSG_PING_RSP p env)
    as (w' & Hwait & Hrem); try assumption.
  - unfold wimod_hci_add_dispatcher.
    cbn [set_serdev set_packet_dispatchers packet_dispatchers].
    rewrite Hreg. reflexivity.
  - reflexivity.
  - rewrite ping_result. cbv zeta. rewrite Hsend. cbn [fst snd].
    change (negb (0 =? 0)) with false. cbv iota.
    rewrite Hwait. change (0 =? 0) with true. cbv iota.
    eexists. split; [reflexivity |]. cbn [res_ret res_steps res_dev map].
    split; [reflexivity |]. split; [reflexivity | exact Hrem].
Qed.

Lemma earlier_waiter_takes_answer_witness :
  exists res,
    wimod_hci_ping (fun _ => true)
      (wimod_hci_add_dispatcher (wimod_device_init (mk_serdev [] []))
         (7%nat, new_packet DEVMGMT_ID DEVMGMT_MSG_PING_RSP))
      3 (mk_env [framed (hci_frame DEVMGMT_ID DEVMGMT_MSG_PING_RSP [0])] 3)
    = Some res /\
    res_ret res = - ETIMEDOUT /\
    packet_dispatchers (res_dev res)
    = [(7%nat, mk_packet (disp (new_packet DEVMGMT_ID DEVMGMT_MSG_PING_RSP))
                 (mk_completion 1) (Some [0]) 1)].
Proof.
  destruct (earlier_waiter_takes_answer (fun _ => true)
              (wimod_hci_add_dispatcher (wimod_device_init (mk_serdev [] []))
                 (7%nat, new_packet DEVMGMT_ID DEVMGMT_MSG_PING_RSP))
              [] [] 7 3 (new_packet DEVMGMT_ID DEVMGMT_MSG_PING_RSP) [0]
              (mk_env [framed (hci_frame DEVMGMT_ID DEVMGMT_MSG_PING_RSP [0])] 3))
    as (res & Hres & Hret & _ & Hreg).
  - split; [reflexivity | vm_compute; split; discriminate].
  - reflexivity.
  - reflexivity.
  - constructor.
  - reflexivity.
  - constructor.
  - reflexivity.
  - reflexivity.
  - reflexivity.
  - vm_compute. intros [H | []]. discriminate H.
  - vm_compute. discriminate.
  - reflexivity.
  - exists res. split; [exact Hres |]. split; [exact Hret | exact Hreg].
Defined.

Lemma port_open_after_app (calls more : list port_call) :
  port_open_after (calls ++ more)
  = fold_left (fun opened c =>
                 match c with
                 | Port_open ret => ret =? 0
                 | Port_close => false
                 | _ => opened
                 end) more (port_open_after calls).
Proof. unfold port_open_after. apply fold_left_app. Qed.

(** X20. What probing leaves behind.  Whenever [wimod_probe] returns, the
    serial port is left open exactly when the return value is 0, a later
    [wimod_remove] closes it, and the device, if one was allocated, has an
    empty dispatcher list and a receive buffer within its bounds: the
    waiter that lived on the stack of the request is never left on the
    list. *)
Theorem probe_leaves_port_and_list (kzalloc : Z -> bool) (sdev : serdev_device)
    (self : nat) (buf : list Z) (env : probe_env) (r : probe_result) :
  wimod_probe kzalloc sdev self buf env = Some r ->
  port_open_after (probe_port r) = (probe_ret r =? 0) /\
  port_open_after (wimod_remove (probe_port r)) = false /\
  (forall dev, probe_dev r = Some dev ->
     packet_dispatchers dev = [] /\ rx_wf dev).
Proof.
  unfold wimod_probe, wimod_remove. intros H.
  destruct (devm_kzalloc_ok env); cbn [negb] in H.
  2: { inversion H; subst. cbn. repeat split; discriminate. }
  destruct (open_ret env =? 0) eqn:Hopen; cbn [negb] in H.
  2: { inversion H; subst. cbn [probe_port probe_ret probe_dev].
       rewrite port_open_after_app. cbn. rewrite Hopen.
       split; [reflexivity |]. split; [reflexivity |].
       intros dev Hdev. inversion Hdev; subst.
       split; [reflexivity | apply rx_wf_init]. }
  destruct (wimod_hci_get_device_info kzalloc (wimod_device_init sdev) self
              (Some buf) (probe_request env)) as [res |] eqn:Hinfo;
    [| discriminate].
  destruct (get_device_info_keeps_others kzalloc (wimod_device_init sdev) self
              (Some buf) (probe_request env) res (rx_wf_init sdev)
              (fun F => F) Hinfo) as [Hlist Hwf].
  cbn [wimod_device_init packet_dispatchers] in Hlist.
  assert (Hempty : packet_dispatchers (res_dev res) = []).
  { inversion Hlist. reflexivity. }
  destruct (res_ret res =? 0) eqn:Hret; cbn [negb] in H; inversion H; subst;
    cbn [probe_port probe_ret probe_dev]; rewrite ?port_open_after_app; cbn;
    rewrite ?Hopen, ?Hret;
    (split; [reflexivity |]; split; [reflexivity |];
     intros dev Hdev; inversion Hdev; subst; split; assumption).
Qed.

Lemma probe_leaves_port_and_list_witness :
  port_open_after [Port_open 0; Port_set_baudrate 115200;
                   Port_set_flow_control false; Port_set_client_ops; Port_close]
  = (- ETIMEDOUT =? 0).
Proof.
  refine (proj1 (probe_leaves_port_and_list (fun _ => true) (mk_serdev [] []) 1
            (repeat 0 9) (mk_probe_env true 0 (mk_env [] 0))
            (mk_probe_result (- ETIMEDOUT)
               (Some (set_serdev
                        (snd (wimod_hci_send (mk_serdev [] []) DEVMGMT_ID
                                DEVMGMT_MSG_GET_DEVICE_INFO_REQ [] 0))
                        (wimod_device_init (mk_serdev [] []))))
               [Port_open 0; Port_set_baudrate 115200;
                Port_set_flow_control false; Port_set_client_ops; Port_close]
               [Waited] None) _)).
  reflexivity.
Defined.

(** X21. Probing a module that answers.  When the device structure is
    allocated, the port opens, the transport takes every write and the next
    bytes to arrive are a get-device-info response with payload [p] of at
    most 300 bytes whose slot can be allocated, [wimod_probe] writes the
    get-device-info request and nothing else; it returns 0, with the port
    configured and left open and byte 1 of [p] logged as the module type,
    when [p] has at least 10 bytes and starts with 0, and otherwise returns
    -EINVAL with the port closed. *)
Theorem probe_answered (kzalloc : Z -> bool) (sdev : serdev_device) (self : nat)
    (buf p : list Z) (more : list (list Z)) (env : probe_env) :
  devm_kzalloc_ok env = true -> open_ret env = 0 ->
  writes_succeed sdev -> length buf = 9%nat ->
  Z.of_nat (length p) <= WIMOD_HCI_PAYLOAD_MAX ->
  kzalloc (Z.of_nat (length p)) = true ->
  incoming (probe_request env)
  = framed (hci_frame DEVMGMT_ID DEVMGMT_MSG_GET_DEVICE_INFO_RSP p) :: more ->
  exists r dev,
    wimod_probe kzalloc sdev self buf env = Some r /\
    probe_dev r = Some dev /\
    tx (serdev dev)
    = tx sdev ++ framed (hci_frame DEVMGMT_ID DEVMGMT_MSG_GET_DEVICE_INFO_REQ []) /\
    (probe_ret r, probe_port r, probe_module_type r)
    = (if (10 <=? Z.of_nat (length p)) && (nth 0 p 0 =? DEVMGMT_STATUS_OK)
       then (0,
             [Port_open 0; Port_set_baudrate 115200;
              Port_set_flow_control false; Port_set_client_ops],
             Some (nth 1 p 0))
       else (- EINVAL,
             [Port_open 0; Port_set_baudrate 115200;
              Port_set_flow_control false; Port_set_client_ops; Port_close],
             None)).
Proof.
  intros Halloc Hopen Hwr Hbuf Hmax Hk Hinc.
  assert (Hb : forall b, Some buf = Some b -> length b = 9%nat).
  { intros b Hb. inversion Hb; subst. exact Hbuf. }
  destruct (request_answered kzalloc (wimod_device_init sdev) self
              DEVMGMT_MSG_GET_DEVICE_INFO_REQ DEVMGMT_MSG_GET_DEVICE_INFO_RSP
              p more (probe_request env) (rx_wf_init sdev) eq_refl eq_refl Hwr
              (Forall_nil _) (fun F => F) Hmax Hk Hinc)
    as (Hsent & t & w' & Hwait & Ht & Hfind & _ & Htx & _).
  pose proof (get_device_info_result kzalloc (wimod_device_init sdev) self
                (Some buf) (probe_request env)) as Hres.
  cbv zeta in Hres. rewrite Hsent in Hres.
  change (negb (0 =? 0)) with false in Hres. cbv iota in Hres.
  rewrite Hwait, Ht, Hfind in Hres.
  rewrite (get_device_info_check_spec
             (mk_packet (disp (new_packet DEVMGMT_ID DEVMGMT_MSG_GET_DEVICE_INFO_RSP))
                (mk_completion 0) (Some p) (Z.of_nat (length p)))
             p (Some buf) eq_refl eq_refl Hb) in Hres.
  unfold wimod_probe. rewrite Halloc, Hopen. cbn [negb Z.eqb]. rewrite Hres.
  destruct ((10 <=? Z.of_nat (length p)) && (nth 0 p 0 =? DEVMGMT_STATUS_OK))
    eqn:Hcond; cbv iota beta; cbn [res_ret res_buf res_dev res_steps negb Z.eqb];
    [| change (negb (- EINVAL =? 0)) with true; cbv iota];
    eexists; eexists; (split; [reflexivity |]);
    cbn [probe_dev probe_ret probe_port probe_module_type app];
    (split; [reflexivity |]); (split; [exact Htx |]); [| reflexivity].
  cbn [option_map].
  apply andb_prop in Hcond. destruct Hcond as [H10 _]. apply Z.leb_le in H10.
  destruct p as [| s [| t' p']]; simpl length in H10; try lia.
  reflexivity.
Qed.

Lemma probe_answered_witness :
  exists r dev,
    wimod_probe (fun _ => true) (mk_serdev [] []) 1 (repeat 0 9)
      (mk_probe_env true 0
         (mk_env [framed (hci_frame DEVMGMT_ID DEVMGMT_MSG_GET_DEVICE_INFO_RSP
                            [0; 144; 1; 2; 3; 4; 5; 6; 7; 8])] 3))
    = Some r /\
    probe_dev r = Some dev /\
    tx (serdev dev)
    = framed (hci_frame DEVMGMT_ID DEVMGMT_MSG_GET_DEVICE_INFO_REQ []) /\
    (probe_ret r, probe_port r, probe_module_type r)
    = (0,
       [Port_open 0; Port_set_baudrate 115200; Port_set_flow_control false;
        Port_set_client_ops],
       Some 144).
Proof.
  apply (probe_answered (fun _ => true) (mk_serdev [] []) 1 (repeat 0 9)
           [0; 144; 1; 2; 3; 4; 5; 6; 7; 8] []
           (mk_probe_env true 0
              (mk_env [framed (hci_frame DEVMGMT_ID DEVMGMT_MSG_GET_DEVICE_INFO_RSP
                                 [0; 144; 1; 2; 3; 4; 5; 6; 7; 8])] 3))).
  - reflexivity.
  - reflexivity.
  - constructor.
  - reflexivity.
  - vm_compute. discriminate.
  - reflexivity.
  - reflexivity.
Defined.
